(** * Multi-branch DenseNet / MobileNetV2 / MutualNet: a shallow embedding

    The development follows [models/model_cifar/densenet_one.py],
    [models/model_cifar/mobilenetv2_one.py] and [models/model_cifar/DML.py].

    - Python exceptions are an error monad ([result]).
    - Tensors are nested lists of real numbers, outermost axis first; the
      arithmetic of the tensor library is idealised to exact real
      arithmetic (rounding of floating-point numbers is not modelled).
    - [nn.Module] objects are records holding the plain attributes and the
      dictionary of registered sub-modules; [getattr] on a missing name
      raises [AttributeError].
    - The layers of the numerical library (convolutions, normalisation,
      linear maps with their trained parameters) are an interface
      ([Torch]); what the library promises about shapes is a separate
      contract ([TorchContract]). *)

From Stdlib Require Import Reals Lra Lia ZArith QArith Qround.
From Stdlib Require Lqa.
From stdpp Require Import base option list gmap strings pretty.

(** ** Python exceptions and the error monad *)

Inductive exn : Type :=
| AttributeError (name : string)
| UnboundLocalError (name : string)
| NotImplementedError (msg : string)
| ValueError
| AssertionError
| ZeroDivisionError
| IndexError
| RuntimeError.

Inductive result (A : Type) : Type :=
| Ok (a : A)
| Raise (e : exn).

Arguments Ok {A} a.
Arguments Raise {A} e.

#[global] Instance result_ret : MRet result := fun A a => Ok a.

#[global] Instance result_bind : MBind result := fun A B f r =>
  match r with
  | Ok a => f a
  | Raise e => Raise e
  end.

#[global] Instance result_fmap : FMap result := fun A B f r =>
  match r with
  | Ok a => Ok (f a)
  | Raise e => Raise e
  end.

Definition raises {A} (r : result A) : Prop := exists e, r = Raise e.

(** [str(i)] for a non-negative integer. *)
Definition str (i : nat) : string := pretty i.

(** [range(a, b)]: empty when [b <= a]. *)
Definition range (a b : nat) : list nat := seq a (b - a).

(** [for i in l: s = body(i, s)], stopping at the first exception. *)
Fixpoint for_each {S : Type} (l : list nat) (body : nat -> S -> result S) (s : S)
  : result S :=
  match l with
  | [] => Ok s
  | i :: l' => s' ← body i s; for_each l' body s'
  end.

(** [[f(a) for a in l]], stopping at the first exception. *)
Fixpoint traverse {A B : Type} (f : A -> result B) (l : list A) : result (list B) :=
  match l with
  | [] => Ok []
  | a :: l' => b ← f a; bs ← traverse f l'; Ok (b :: bs)
  end.

(** Elementwise combination of two axes that must have the same size. *)
Fixpoint zip_with_strict {A B C : Type} (f : A -> B -> result C)
  (l : list A) (k : list B) : result (list C) :=
  match l, k with
  | [], [] => Ok []
  | a :: l', b :: k' => c ← f a b; cs ← zip_with_strict f l' k'; Ok (c :: cs)
  | _, _ => Raise RuntimeError
  end.

(** [int(q)]: truncation towards zero. *)
Definition py_int (q : Q) : Z := Z.quot (Qnum q) (Zpos (Qden q)).

(** [a // b] on integers. *)
Definition py_floordiv (a b : Z) : result Z :=
  if decide (b = 0%Z) then Raise ZeroDivisionError else Ok (a / b)%Z.

(** [a / b] on integers: true division. *)
Definition py_truediv (a b : Z) : result R :=
  if decide (b = 0%Z) then Raise ZeroDivisionError else Ok (IZR a / IZR b)%R.

(** ** Tensors *)

Abbreviation Vec := (list R).
Abbreviation Mat := (list (list R)).
Abbreviation Ten3 := (list (list (list R))).
Abbreviation Ten4 := (list (list (list (list R)))).

Definition Rsum (l : list R) : R := foldr Rplus 0%R l.

(** [t.unsqueeze(-1)] on a 2-D tensor. *)
Definition unsqueeze_last (m : Mat) : Ten3 := map (map (fun v => [v])) m.

(** [torch.cat([p, q], -1)] on 3-D tensors: the leading two axes must agree. *)
Definition cat_last (p q : Ten3) : result Ten3 :=
  zip_with_strict (zip_with_strict (fun u v => Ok (u ++ v))) p q.

Definition index (v : Vec) (i : nat) : result R :=
  match v !! i with
  | Some a => Ok a
  | None => Raise IndexError
  end.

(** [p[:, :, i]]. *)
Definition index_last3 (p : Ten3) (i : nat) : result Mat :=
  traverse (traverse (fun v => index v i)) p.

(** [m[:, i]]. *)
Definition index_col (m : Mat) (i : nat) : result Vec :=
  traverse (fun v => index v i) m.

(** [v.view(-1, 1)]. *)
Definition view_col (v : Vec) : Mat := map (fun a => [a]) v.

(** [m.repeat(1, n)]. *)
Definition repeat_cols (n : nat) (m : Mat) : Mat :=
  map (fun r => concat (replicate n r)) m.

(** [m.size(1)]; a nested list with no row does not record its second
    extent, and no caller below reaches this function with an empty batch
    (the preceding [view] raises first). *)
Definition size1 (m : Mat) : nat :=
  match m with
  | [] => 0
  | r :: _ => length r
  end.

(** [a * b] and [a + b] on 2-D tensors of one shape.  Broadcasting of
    size-one axes is not modelled: both operands have the same shape
    wherever the library keeps its shape contract. *)
Definition mul_ew (a b : Mat) : result Mat :=
  zip_with_strict (zip_with_strict (fun u v => Ok (u * v)%R)) a b.

Definition add_ew (a b : Mat) : result Mat :=
  zip_with_strict (zip_with_strict (fun u v => Ok (u + v)%R)) a b.

(** [c * m] for a Python float [c]. *)
Definition scale (c : R) (m : Mat) : Mat := map (map (fun v => (c * v)%R)) m.

(** [t.view(n, -1)] where [n] is the batch size of a tensor with the same
    batch as [t]: one row per batch element, the remaining axes flattened.
    A zero batch leaves [-1] ambiguous ([RuntimeError]); a leading size that
    differs from the batch of [t] would regroup the elements and is reported
    as [RuntimeError] as well. *)
Definition view_rows (n : nat) (t : Ten4) : result Mat :=
  if decide (n = 0) then Raise RuntimeError
  else if decide (n = length t) then Ok (map (fun s => concat (concat s)) t)
  else Raise RuntimeError.

(** [F.relu] and [F.softmax(_, dim=1)] on 2-D tensors. *)
Definition relu (m : Mat) : Mat := map (map (fun v => Rmax 0 v)) m.

Definition softmax_row (v : Vec) : Vec :=
  let e := map exp v in map (fun a => (a / Rsum e)%R) e.

Definition softmax (m : Mat) : Mat := map softmax_row m.

(** Python values that are either the integer a loop starts from or a
    tensor: [x_m = 0; x_m += t]. *)
Inductive pyval : Type :=
| PyInt (z : Z)
| PyTensor (m : Mat).

(** [acc += t]: an integer accumulator is added to every element. *)
Definition py_iadd (acc : pyval) (t : Mat) : result pyval :=
  match acc with
  | PyInt z => Ok (PyTensor (map (map (fun v => (v + IZR z)%R)) t))
  | PyTensor m => PyTensor <$> add_ew m t
  end.

(** [acc.unsqueeze(-1)]: integers have no such attribute. *)
Definition py_unsqueeze (acc : pyval) : result Ten3 :=
  match acc with
  | PyInt _ => Raise (AttributeError "unsqueeze")
  | PyTensor m => Ok (unsqueeze_last m)
  end.

(** [torch.cat(ts, 1)] on 4-D tensors: the batch sizes must agree and the
    channels of every batch element are appended in the order of the list;
    an empty list is refused.  Nested lists do not record the spatial extent
    of a tensor without channels, so the spatial extents are not compared. *)
Fixpoint cat_channels (ts : list Ten4) : result Ten4 :=
  match ts with
  | [] => Raise RuntimeError
  | [t] => Ok t
  | t :: ts' =>
      r ← cat_channels ts';
      zip_with_strict (fun a b => Ok (a ++ b)) t r
  end.

(** ** Layers of the numerical library

    A layer is described by the arguments it was constructed with; its
    trained parameters live in the library and are addressed by the name
    under which the layer is registered.  Constructing a layer records its
    arguments: the checks the library's constructors make on them (a
    negative width, say) are not part of these sources and are not
    modelled. *)

#[local] Set Warnings "-register-all".

Inductive Layer : Type :=
| Conv2d (in_channels out_channels kernel_size stride padding groups : Z)
| BatchNorm2d (num_features : Z)
| BatchNorm1d (num_features : Z)
| ReLU
| ReLU6
| MaxPool2d (kernel_size stride padding : Z)
| AvgPool2d (kernel_size stride : Z)
| AdaptiveAvgPool2d
| Dropout (p : Q)
| Linear (in_features out_features : Z)
| Sequential (children : list (string * Layer))
| DenseLayer (children : list (string * Layer)) (drop_rate : Q) (efficient : bool)
| DenseBlock (children : list (string * Layer))
| InvertedResidual (use_res_connect : bool) (conv : list Layer).

(** Evaluation of a registered layer on a 4-D or a 2-D tensor, and the
    functional [F.adaptive_avg_pool2d(_, (1, 1))].  A call either returns a
    tensor or raises; a single forward pass is modelled, so the running
    statistics of the normalisation layers are part of the library. *)
Class Torch : Type := {
  run4 : string -> Layer -> Ten4 -> result Ten4;
  run2 : string -> Layer -> Mat -> result Mat;
  adaptive_avg_pool2d : Ten4 -> result Ten4
}.

(** [nn.Sequential(nn.Dropout(p), nn.Linear(i, o))]. *)
Definition classifier (p : Q) (i o : Z) : Layer :=
  Sequential [("0"%string, Dropout p); ("1"%string, Linear i o)].

(** What the library promises about shapes: every 4-D layer and the pooling
    keep the batch axis; a linear layer with [o] output features maps a batch
    of rows to a batch of rows of length [o]; 1-D batch normalisation over
    [n] features returns a batch of rows of length [n]. *)
Class TorchContract (T : Torch) : Prop := {
  run4_batch : forall name l x y, run4 name l x = Ok y -> length y = length x;
  pool_batch : forall x y, adaptive_avg_pool2d x = Ok y -> length y = length x;
  linear_shape : forall name i o x y,
    run2 name (Linear i o) x = Ok y ->
    length y = length x /\ Forall (fun r => length r = Z.to_nat o) y;
  classifier_shape : forall name p i o x y,
    run2 name (classifier p i o) x = Ok y ->
    length y = length x /\ Forall (fun r => length r = Z.to_nat o) y;
  bn1d_shape : forall name n x y,
    run2 name (BatchNorm1d n) x = Ok y ->
    length y = length x /\ Forall (fun r => length r = Z.to_nat n) y
}.

(** [F.dropout(_, p, training)]: the random mask and the training flag
    belong to the library. *)
Class Functional : Type := {
  dropout : Q -> Ten4 -> result Ten4
}.

(** What the library promises about channels: a convolution with [o]
    output channels keeps the batch and returns [o] channels for every
    batch element; dropout keeps the batch and the channels. *)
Class ChannelContract (T : Torch) (F : Functional) : Prop := {
  conv_channels : forall name i o k s p g x y,
    run4 name (Conv2d i o k s p g) x = Ok y ->
    length y = length x /\ Forall (fun e => length e = Z.to_nat o) y;
  dropout_channels : forall p x y,
    dropout p x = Ok y ->
    length y = length x /\ Forall2 (fun a b => length b = length a) x y
}.

(** ** Model objects *)

Module Net.

(** The attributes both model classes set in [__init__]: the four
    configuration flags, whether [layer_ILR] was assigned, and the
    sub-modules registered with [setattr] / [add_module].  The integer
    attributes [avgpool_size] and [last_channel] are read by no method and
    are not recorded. *)
Record t : Type := {
  num_branches : nat;
  avg : bool;
  ind : bool;
  bpscale : bool;
  layer_ILR : bool;
  modules : gmap string Layer
}.

End Net.

Definition getattr (self : Net.t) (name : string) : result Layer :=
  match Net.modules self !! name with
  | Some l => Ok l
  | None => Raise (AttributeError name)
  end.

(** A run of [setattr(self, name, layer)] statements, in program order. *)
Definition setattrs (l : list (string * Layer)) (mods : gmap string Layer)
  : gmap string Layer :=
  foldl (fun m kv => <[kv.1 := kv.2]> m) mods l.

(** The assignments of [for i in range(n): setattr(...); setattr(...)]. *)
Definition per_branch (n : nat) (body : nat -> list (string * Layer))
  : list (string * Layer) :=
  flat_map body (range 0 n).

Definition call4 `{Torch} (self : Net.t) (name : string) (x : Ten4) : result Ten4 :=
  l ← getattr self name; run4 name l x.

Definition call2 `{Torch} (self : Net.t) (name : string) (x : Mat) : result Mat :=
  l ← getattr self name; run2 name l x.

(** The second component of what [forward] returns: [None], a 2-D tensor
    (gated fusion) or a 3-D tensor (averaging). *)
Inductive fused : Type :=
| FNone
| FMat (m : Mat)
| FTen (t : Ten3).

(** ** The gradient-scaling function [ILR] *)

Module ILR.

Record ctx : Type := { num_branches : nat }.

Definition forward (input : Ten4) (num_branches : nat) : ctx * Ten4 :=
  ({| num_branches := num_branches |}, input).

Definition backward (c : ctx) (grad_output : Ten4) : Ten4 * option Ten4 :=
  (map (map (map (map (fun g => (g / INR (num_branches c))%R)))) grad_output, None).

(** [ILR.apply(input, num_branches)]: the value seen by the forward pass. *)
Definition apply (input : Ten4) (num_branches : nat) : Ten4 :=
  snd (forward input num_branches).

End ILR.

(** ** The gate and the gated fusion (the same statements in both models) *)

Definition gate `{Torch} (self : Net.t) (x : Ten4) : result Mat :=
  x_c ← adaptive_avg_pool2d x;
  x_c ← view_rows (length x_c) x_c;
  x_c ← call2 self "control_v1" x_c;
  x_c ← call2 self "bn_v1" x_c;
  Ok (softmax (relu x_c)).

(** [x_c[:, i].view(-1, 1).repeat(1, pro[:, :, i].size(1)) * pro[:, :, i]]. *)
Definition gated_term (x_c : Mat) (pro : Ten3) (i : nat) : result Mat :=
  w ← index_col x_c i;
  p ← index_last3 pro i;
  mul_ew (repeat_cols (size1 p) (view_col w)) p.

Definition fuse_gated (K : nat) (x_c : Mat) (pro : Ten3) : result Mat :=
  x_m ← gated_term x_c pro 0;
  for_each (range 1 K)
    (fun i x_m => t ← gated_term x_c pro i; add_ew x_m t) x_m.

(** ** [densenet_one.py] *)

Module DenseNet.

(** The keyword arguments of [DenseNet.__init__]. *)
Record args : Type := {
  growth_rate : Z;
  block_config : list Z;
  num_branches : nat;
  bpscale : bool;
  avg : bool;
  compression : Q;
  num_init_features : Z;
  bn_size : Z;
  drop_rate : Q;
  num_classes : Z;
  small_inputs : bool;
  efficient : bool;
  ind : bool
}.

(** The defaults of the signature. *)
Definition defaults : args := {|
  growth_rate := 12;
  block_config := [16; 16; 16]%Z;
  num_branches := 3;
  bpscale := false;
  avg := false;
  compression := 1 # 2;
  num_init_features := 24;
  bn_size := 4;
  drop_rate := 0;
  num_classes := 10;
  small_inputs := true;
  efficient := false;
  ind := false
|}.

(** [_DenseLayer.__init__]. *)
Definition _DenseLayer (num_input_features growth_rate bn_size : Z) (drop_rate : Q)
  (efficient : bool) : Layer :=
  DenseLayer
    [("norm1"%string, BatchNorm2d num_input_features);
     ("relu1"%string, ReLU);
     ("conv1"%string, Conv2d num_input_features (bn_size * growth_rate) 1 1 0 1);
     ("norm2"%string, BatchNorm2d (bn_size * growth_rate));
     ("relu2"%string, ReLU);
     ("conv2"%string, Conv2d (bn_size * growth_rate) growth_rate 3 1 1 1)]
    drop_rate efficient.

(** [_Transition.__init__]. *)
Definition _Transition (num_input_features num_output_features : Z) : Layer :=
  Sequential
    [("norm"%string, BatchNorm2d num_input_features);
     ("relu"%string, ReLU);
     ("conv"%string, Conv2d num_input_features num_output_features 1 1 0 1);
     ("pool"%string, AvgPool2d 2 2)].

(** [_DenseBlock.__init__]. *)
Definition _DenseBlock (num_layers num_input_features bn_size growth_rate : Z)
  (drop_rate : Q) (efficient : bool) : Layer :=
  DenseBlock
    (map (fun i =>
            ("denselayer" +:+ str (i + 1),
             _DenseLayer (num_input_features + Z.of_nat i * growth_rate)
               growth_rate bn_size drop_rate efficient))
       (range 0 (Z.to_nat num_layers))).

(** The state of the loop over [enumerate(block_config)]: the children of
    [self.features], the registered sub-modules, [num_features], and the
    loop variable [num_layers] (unbound before the first iteration). *)
Record blocks_state : Type := {
  features : list (string * Layer);
  mods : gmap string Layer;
  num_features : Z;
  num_layers : option Z
}.

(** One iteration of the loop.  The product [num_features * compression]
    is taken exactly; the code rounds it to a float before [int()]
    truncates it. *)
Definition block_step (a : args) (len : nat) (st : blocks_state) (i : nat) (nl : Z)
  : blocks_state :=
  if decide (i <> len - 1) then
    let nf := (num_features st + nl * growth_rate a)%Z in
    let out := py_int (inject_Z nf * compression a) in
    {| features := features st ++
         [("denseblock" +:+ str (i + 1),
           _DenseBlock nl (num_features st) (bn_size a) (growth_rate a)
             (drop_rate a) (efficient a));
          ("transition" +:+ str (i + 1), _Transition nf out)];
       mods := mods st;
       num_features := out;
       num_layers := Some nl |}
  else
    {| features := features st;
       mods := setattrs
                 (per_branch (num_branches a) (fun i =>
                    [("layer3_" +:+ str i,
                      _DenseBlock nl (num_features st) (bn_size a)
                        (growth_rate a) (drop_rate a) (efficient a))]))
                 (mods st);
       num_features := num_features st;
       num_layers := Some nl |}.

Definition first_convolution (a : args) : list (string * Layer) :=
  if small_inputs a then
    [("conv0"%string, Conv2d 3 (num_init_features a) 3 1 1 1);
     ("norm0"%string, BatchNorm2d (num_init_features a));
     ("relu0"%string, ReLU)]
  else
    [("conv0"%string, Conv2d 3 (num_init_features a) 7 2 3 1);
     ("norm0"%string, BatchNorm2d (num_init_features a));
     ("relu0"%string, ReLU);
     ("pool0"%string, MaxPool2d 3 2 1)].

Definition blocks (a : args) : blocks_state :=
  foldl (fun st '(i, nl) => block_step a (length (block_config a)) st i nl)
    {| features := first_convolution a; mods := ∅;
       num_features := num_init_features a; num_layers := None |}
    (imap pair (block_config a)).

(** [DenseNet.__init__].  [self.features] is one object that [add_module]
    extends in place, so the registered value is the finished sequence.
    The initialisation loop only writes parameter values and has no
    counterpart here. *)
Definition init (a : args) : result Net.t :=
  if negb (negb (Qle_bool (compression a) 0) && Qle_bool (compression a) 1)
  then Raise AssertionError
  else
    let st := blocks a in
    let m := <["features" := Sequential (features st)]> (mods st) in
    let m :=
      if bool_decide (avg a = false) then
        <["bn_v1" := BatchNorm1d (Z.of_nat (num_branches a))]>
          (<["control_v1" := Linear (num_features st) (Z.of_nat (num_branches a))]> m)
      else m in
    match num_layers st with
    | None => Raise (UnboundLocalError "num_layers")
    | Some nl =>
        let nf := (num_features st + nl * growth_rate a)%Z in
        let m := setattrs
                   (per_branch (num_branches a) (fun i =>
                      [("norm_final_" +:+ str i, BatchNorm2d nf);
                       ("relu_final_" +:+ str i, ReLU)])) m in
        let m := setattrs
                   (per_branch (num_branches a) (fun i =>
                      [("classifier3_" +:+ str i, Linear nf (num_classes a))])) m in
        let m := <["avgpool" := AdaptiveAvgPool2d]> m in
        Ok {| Net.num_branches := num_branches a;
              Net.avg := avg a;
              Net.ind := ind a;
              Net.bpscale := bpscale a;
              Net.layer_ILR := bpscale a;
              Net.modules := m |}
    end.

Section Forward.
Context `{Torch}.

(** Lines 223-228 for [i = 0] and the loop body of lines 231-236; the
    literal names of branch 0 are ["layer3_" + str(0)] and so on.
    [temp.size(0)] is read before the pooled tensor replaces [temp]. *)
Definition head (self : Net.t) (i : nat) (x : Ten4) : result Mat :=
  temp ← call4 self ("layer3_" +:+ str i) x;
  temp ← call4 self ("norm_final_" +:+ str i) temp;
  temp ← call4 self ("relu_final_" +:+ str i) temp;
  pooled ← call4 self "avgpool" temp;
  temp ← view_rows (length temp) pooled;
  call2 self ("classifier3_" +:+ str i) temp.

(** The per-branch logits [pro], lines 223-238. *)
Definition branches (self : Net.t) (x : Ten4) : result Ten3 :=
  x_3_1 ← head self 0 x;
  for_each (range 1 (Net.num_branches self))
    (fun i pro => temp_1 ← head self i x; cat_last pro (unsqueeze_last temp_1))
    (unsqueeze_last x_3_1).

(** [1/(self.num_branches-1) * pro[:, :, j]]. *)
Definition avg_term (K : nat) (pro : Ten3) (j : nat) : result Mat :=
  c ← py_truediv 1 (Z.of_nat K - 1);
  p ← index_last3 pro j;
  Ok (scale c p).

(** Lines 244-256. *)
Definition fuse_avg (K : nat) (pro : Ten3) : result Ten3 :=
  x_m ← for_each (range 1 K)
          (fun i x_m => t ← avg_term K pro i; py_iadd x_m t) (PyInt 0);
  x_m ← py_unsqueeze x_m;
  for_each (range 1 K)
    (fun i x_m =>
       temp ← for_each (range 0 K)
                (fun j temp =>
                   if decide (j <> i) then t ← avg_term K pro j; py_iadd temp t
                   else Ok temp)
                (PyInt 0);
       temp ← py_unsqueeze temp;
       cat_last x_m temp)
    x_m.

(** Lines 219-221: the trunk and the optional gradient-scaling tap. *)
Definition trunk (self : Net.t) (x : Ten4) : result Ten4 :=
  x ← call4 self "features" x;
  if Net.bpscale self then
    if Net.layer_ILR self then Ok (ILR.apply x (Net.num_branches self))
    else Raise (AttributeError "layer_ILR")
  else Ok x.

Definition forward (self : Net.t) (x : Ten4) : result (Ten3 * fused) :=
  x ← trunk self x;
  pro ← branches self x;
  if Net.ind self then Ok (pro, FNone)
  else if Net.avg self then
    x_m ← fuse_avg (Net.num_branches self) pro;
    Ok (pro, FTen x_m)
  else
    x_c ← gate self x;
    x_m ← fuse_gated (Net.num_branches self) x_c pro;
    Ok (pro, FMat x_m).

End Forward.

Section Blocks.
Context `{Torch} `{Functional}.

(** [_bn_function_factory(norm, relu, conv)]: the closure it returns. *)
Definition _bn_function_factory (norm relu conv : Ten4 -> result Ten4)
  (inputs : list Ten4) : result Ten4 :=
  concated_features ← cat_channels inputs;
  n ← norm concated_features;
  r ← relu n;
  conv r.

(** [_DenseLayer.forward] of the layer [_DenseLayer.__init__] builds from
    these arguments, registered under [path].  With or without
    [cp.checkpoint] the bottleneck is the value of [bn_function]. *)
Definition _DenseLayer_forward (path : string)
  (num_input_features growth_rate bn_size : Z) (drop_rate : Q) (efficient : bool)
  (prev_features : list Ten4) : result Ten4 :=
  let bn_function :=
    _bn_function_factory
      (run4 (path +:+ ".norm1") (BatchNorm2d num_input_features))
      (run4 (path +:+ ".relu1") ReLU)
      (run4 (path +:+ ".conv1")
         (Conv2d num_input_features (bn_size * growth_rate) 1 1 0 1)) in
  bottleneck_output ← bn_function prev_features;
  n ← run4 (path +:+ ".norm2") (BatchNorm2d (bn_size * growth_rate)) bottleneck_output;
  r ← run4 (path +:+ ".relu2") ReLU n;
  new_features ← run4 (path +:+ ".conv2")
                   (Conv2d (bn_size * growth_rate) growth_rate 3 1 1 1) r;
  if negb (Qle_bool drop_rate 0) then dropout drop_rate new_features
  else Ok new_features.

(** The loop of [_DenseBlock.forward] over the first [n] layers: the list
    [features] after them. *)
Definition _DenseBlock_features (path : string)
  (n : nat) (num_input_features bn_size growth_rate : Z)
  (drop_rate : Q) (efficient : bool) (init_features : Ten4) : result (list Ten4) :=
  for_each (range 0 n)
    (fun i features =>
       new_features ← _DenseLayer_forward (path +:+ ".denselayer" +:+ str (i + 1))
                        (num_input_features + Z.of_nat i * growth_rate)
                        growth_rate bn_size drop_rate efficient features;
       Ok (features ++ [new_features]))
    [init_features].

(** [_DenseBlock.forward] of the block [_DenseBlock.__init__] builds from
    these arguments. *)
Definition _DenseBlock_forward (path : string)
  (num_layers num_input_features bn_size growth_rate : Z)
  (drop_rate : Q) (efficient : bool) (init_features : Ten4) : result Ten4 :=
  features ← _DenseBlock_features path (Z.to_nat num_layers) num_input_features
               bn_size growth_rate drop_rate efficient init_features;
  cat_channels features.

End Blocks.

End DenseNet.

(** ** [mobilenetv2_one.py] *)

Module MobileNetV2.

(** The keyword arguments of [MobileNetV2.__init__]; [block] and
    [norm_layer] are left at [None], which selects [InvertedResidual] and
    [nn.BatchNorm2d]. *)
Record args : Type := {
  num_classes : Z;
  width_mult : Q;
  inverted_residual_setting : option (list (list Z));
  round_nearest : Z;
  num_branches : nat;
  bpscale : bool;
  avg : bool;
  ind : bool
}.

Definition defaults : args := {|
  num_classes := 1000;
  width_mult := 1;
  inverted_residual_setting := None;
  round_nearest := 8;
  num_branches := 3;
  bpscale := false;
  avg := false;
  ind := false
|}.

(** [_make_divisible] in exact arithmetic: the numbers of lines 20 and 22
    are rationals.  This is what the code computes wherever its floats are
    exact (small values such as the channel counts of the standard
    settings); rounding, NaN and the infinities are left to
    [PyFloat._make_divisible]. *)
Definition _make_divisible (v : Q) (divisor : Z) (min_value : option Z) : result Z :=
  let min_value := default divisor min_value in
  q ← py_floordiv (py_int (v + inject_Z divisor / 2)) divisor;
  let new_v := Z.max min_value (q * divisor) in
  if negb (Qle_bool ((9 # 10) * v) (inject_Z new_v)) then Ok (new_v + divisor)%Z
  else Ok new_v.

(** [ConvBNActivation.__init__] with the default normalisation and
    activation and [dilation = 1]. *)
Definition ConvBNReLU (in_planes out_planes kernel_size stride groups : Z) : Layer :=
  let padding := ((kernel_size - 1) / 2 * 1)%Z in
  Sequential
    [("0"%string, Conv2d in_planes out_planes kernel_size stride padding groups);
     ("1"%string, BatchNorm2d out_planes);
     ("2"%string, ReLU6)].

(** [InvertedResidual.__init__]. *)
Definition _InvertedResidual (inp oup stride expand_ratio : Z) : result Layer :=
  if negb (bool_decide (stride = 1%Z) || bool_decide (stride = 2%Z))
  then Raise AssertionError
  else
    let hidden_dim := (inp * expand_ratio)%Z in
    let use_res_connect := bool_decide (stride = 1%Z) && bool_decide (inp = oup) in
    let layers :=
      (if bool_decide (expand_ratio <> 1%Z)
       then [ConvBNReLU inp hidden_dim 1 1 1] else []) ++
      [ConvBNReLU hidden_dim hidden_dim 3 stride hidden_dim;
       Conv2d hidden_dim oup 1 1 0 1;
       BatchNorm2d oup] in
    Ok (InvertedResidual use_res_connect layers).

Definition default_setting : list (list Z) :=
  [[1; 16; 1; 1]; [6; 24; 2; 1]; [6; 32; 3; 1]; [6; 64; 4; 2];
   [6; 96; 3; 1]; [6; 160; 3; 2]; [6; 320; 1; 1]]%Z.

(** The state of the loop over the setting: the list [features],
    [input_channel], and [output_channel] (unbound before the first row). *)
Record stage_state : Type := {
  features : list Layer;
  input_channel : Z;
  output_channel : option Z
}.

(** One row [t, c, n, s]; a row of another length cannot be unpacked. *)
Definition stage (a : args) (st : stage_state) (row : list Z) : result stage_state :=
  match row with
  | [t; c; n; s] =>
      oc ← _make_divisible (inject_Z c * width_mult a) (round_nearest a) None;
      '(fs, ic) ← for_each (range 0 (Z.to_nat n))
        (fun i '(fs, ic) =>
           let stride := if decide (i = 0) then s else 1%Z in
           b ← _InvertedResidual ic oc stride t;
           Ok (fs ++ [b], oc))
        (features st, input_channel st);
      Ok {| features := fs; input_channel := ic; output_channel := Some oc |}
  | _ => Raise ValueError
  end.

Fixpoint stages (a : args) (rows : list (list Z)) (st : stage_state)
  : result stage_state :=
  match rows with
  | [] => Ok st
  | row :: rows' => st' ← stage a st row; stages a rows' st'
  end.

Definition Qmax1 (q : Q) : Q := if Qle_bool q 1 then 1%Q else q.

(** [MobileNetV2.__init__].  No statement of it assigns [self.avgpool] or
    [self.layer_ILR]. *)
Definition init (a : args) : result Net.t :=
  let setting := default default_setting (inverted_residual_setting a) in
  if bool_decide (length setting = 0) ||
     negb (bool_decide (length (default [] (setting !! 0)) = 4))
  then Raise ValueError
  else
    first_channel ← _make_divisible (32 * width_mult a) (round_nearest a) None;
    last_channel ← _make_divisible (1280 * Qmax1 (width_mult a)) (round_nearest a) None;
    st ← stages a setting
           {| features := [ConvBNReLU 3 first_channel 3 1 1];
              input_channel := first_channel;
              output_channel := None |};
    let m : gmap string Layer :=
      <["features" := Sequential (imap (fun i l => (str i, l)) (features st))]> ∅ in
    let m := setattrs
               (per_branch (num_branches a) (fun i =>
                  [("layer4_" +:+ str i,
                    ConvBNReLU (input_channel st) last_channel 1 1 1);
                   ("classifier4_" +:+ str i,
                    classifier (2 # 10) last_channel (num_classes a))])) m in
    m ← (if bool_decide (avg a = false) then
           match output_channel st with
           | None => Raise (UnboundLocalError "output_channel")
           | Some oc =>
               Ok (<["bn_v1" := BatchNorm1d (Z.of_nat (num_branches a))]>
                     (<["control_v1" := Linear oc (Z.of_nat (num_branches a))]> m))
           end
         else Ok m);
    Ok {| Net.num_branches := num_branches a;
          Net.avg := avg a;
          Net.ind := ind a;
          Net.bpscale := bpscale a;
          Net.layer_ILR := false;
          Net.modules := m |}.

Section Forward.
Context `{Torch}.

(** Lines 229-232: branch 0 pools with the functional form. *)
Definition head0 (self : Net.t) (x : Ten4) : result Mat :=
  x_3 ← call4 self "layer4_0" x;
  x_3 ← adaptive_avg_pool2d x_3;
  x_3 ← view_rows (length x_3) x_3;
  call2 self "classifier4_0" x_3.

(** Lines 235-238: every further branch pools with [self.avgpool]. *)
Definition head (self : Net.t) (i : nat) (x : Ten4) : result Mat :=
  temp ← call4 self ("layer4_" +:+ str i) x;
  temp ← call4 self "avgpool" temp;
  temp ← view_rows (length temp) temp;
  call2 self ("classifier4_" +:+ str i) temp.

Definition branches (self : Net.t) (x : Ten4) : result Ten3 :=
  x_3_1 ← head0 self x;
  for_each (range 1 (Net.num_branches self))
    (fun i pro => temp_1 ← head self i x; cat_last pro (unsqueeze_last temp_1))
    (unsqueeze_last x_3_1).

(** [_forward_impl]; with [avg] set the branch is [pass] and the return
    statement reads the unassigned local [x_m]. *)
Definition forward (self : Net.t) (x : Ten4) : result (Ten3 * fused) :=
  x ← call4 self "features" x;
  pro ← branches self x;
  if Net.ind self then Ok (pro, FNone)
  else if Net.avg self then Raise (UnboundLocalError "x_m")
  else
    x_c ← gate self x;
    x_m ← fuse_gated (Net.num_branches self) x_c pro;
    Ok (pro, FMat x_m).

End Forward.

End MobileNetV2.

(** ** [DML.py] *)

Module MutualNet.

(** The model factories imported from sibling modules that are not part of
    these sources ([.resnet], [.mobilenetv2], [.vgg], [.densenet],
    [.shuffle]): parameters of the development, together with the forward
    pass of the students they build. *)
Class Zoo (Student : Type) : Type := {
  resnet18 : Z -> result Student;
  mobilenet_v2 : Z -> result Student;
  vgg16 : Z -> Q -> result Student;
  densenetd40k12 : Z -> result Student;
  densenet121 : Z -> result Student;
  shufflenet_v2_x0_5 : Z -> result Student;
  run_student : Student -> Ten4 -> result Mat
}.

Record t (Student : Type) : Type := {
  num_branches : nat;
  students : gmap string Student
}.

Arguments num_branches {Student} _.
Arguments students {Student} _.

(** The architecture names the constructor compares [model] with. *)
Definition recognized : list string :=
  ["resnet18"; "mobilenet_v2"; "vgg16"; "densenetd40k12"; "densenet121";
   "shufflenet_v2_x0_5"]%string.

Section Init.
Context {Student : Type} `{Zoo Student}.

(** The [if] / [elif] chain of one loop iteration. *)
Definition student (model : string) (num_classes : Z) (dropout : Q) : result Student :=
  if decide (model = "resnet18"%string) then resnet18 num_classes
  else if decide (model = "mobilenet_v2"%string) then mobilenet_v2 num_classes
  else if decide (model = "vgg16"%string) then vgg16 num_classes dropout
  else if decide (model = "densenetd40k12"%string) then densenetd40k12 num_classes
  else if decide (model = "densenet121"%string) then densenet121 num_classes
  else if decide (model = "shufflenet_v2_x0_5"%string) then shufflenet_v2_x0_5 num_classes
  else Raise (NotImplementedError model).

Definition init (model : string) (num_branches : nat) (num_classes : Z) (dropout : Q)
  : result (t Student) :=
  stus ← for_each (range 0 num_branches)
           (fun i stus =>
              s ← student model num_classes dropout;
              Ok (<["stu" +:+ str i := s]> stus))
           (∅ : gmap string Student);
  Ok {| num_branches := num_branches; students := stus |}.

Definition call_student (self : t Student) (name : string) (x : Ten4) : result Mat :=
  match students self !! name with
  | Some s => run_student s x
  | None => Raise (AttributeError name)
  end.

Definition forward (self : t Student) (x : Ten4) : result Ten3 :=
  out ← call_student self "stu0" x;
  for_each (range 1 (num_branches self))
    (fun i out =>
       temp_out ← call_student self ("stu" +:+ str i) x;
       cat_last out (unsqueeze_last temp_out))
    (unsqueeze_last out).

End Init.

End MutualNet.

(** ** The statements of the specification, in its own words *)

(** A 2-D tensor of shape [B, C] and a 3-D tensor of shape [B, C, K]. *)
Definition dims2 (B C : nat) (m : Mat) : Prop :=
  length m = B /\ Forall (fun r => length r = C) m.

Definition dims3 (B C K : nat) (p : Ten3) : Prop :=
  length p = B /\ Forall (dims2 C K) p.

(** Entry [i] of the last axis. *)
Definition entry (i : nat) (v : Vec) : R := nth i v 0%R.

(** Gated fusion: for batch element [b] and class [c], the sum over the
    branches [i] of [weights[b, i] * per_branch_logits[b, c, i]]. *)
Definition weighted_sum (weights : Mat) (per_branch_logits : Ten3) : Mat :=
  zip_with (fun w classes => map (fun l => Rsum (zip_with Rmult w l)) classes)
    weights per_branch_logits.

(** Leave-one-out averaging: slot [i] holds [1/(K-1)] times the sum of the
    logits of all branches but [i]. *)
Definition leave_one_out_slot (K : nat) (l : Vec) (i : nat) : R :=
  (1 / (INR K - 1) * Rsum (delete i l))%R.

Definition leave_one_out (K : nat) (slots : list nat) (per_branch_logits : Ten3)
  : Ten3 :=
  map (map (fun l => map (leave_one_out_slot K l) slots)) per_branch_logits.

(** The value the averaging loops compute for slot [i]: the loop over all
    branch indices skips [i]. *)
Definition others_slot (K : nat) (l : Vec) (i : nat) : R :=
  (1 / (INR K - 1)
   * Rsum (map (fun j => entry j l)
             (List.filter (fun j => bool_decide (j <> i)) (range 0 K))))%R.

(** A probability vector. *)
Definition distribution (v : Vec) : Prop :=
  Forall (fun a => (0 <= a)%R) v /\ Rsum v = 1%R.

(** ** A small instance of the library, for running the model on examples

    Every 4-D layer and the pooling return their input; a linear layer
    registered under a name ending in the digit [d] returns, for each batch
    element, the row [10 d + 1, 10 d + 2, ...]; batch normalisation over
    [n] features checks the row length and returns its input. *)

Fixpoint last_digit (name : string) : Z :=
  match name with
  | EmptyString => 0
  | String c EmptyString => Z.of_N (Ascii.N_of_ascii c) - 48
  | String _ rest => last_digit rest
  end.

Definition toy_linear (name : string) (o : Z) (x : Mat) : Mat :=
  map (fun _ => map (fun c => IZR (10 * last_digit name + Z.of_nat c + 1))
                 (seq 0 (Z.to_nat o))) x.

Definition toy_run2 (name : string) (l : Layer) (x : Mat) : result Mat :=
  match l with
  | Linear _ o => Ok (toy_linear name o x)
  | Sequential [(_, Dropout _); (_, Linear _ o)] => Ok (toy_linear name o x)
  | BatchNorm1d n =>
      if forallb (fun r => Nat.eqb (length r) (Z.to_nat n)) x then Ok x
      else Raise RuntimeError
  | _ => Raise RuntimeError
  end.

Definition toy : Torch := {|
  run4 := fun _ _ x => Ok x;
  run2 := toy_run2;
  adaptive_avg_pool2d := fun x => Ok x
|}.

(** A batch of two one-pixel images. *)
Definition two_images : Ten4 := [[[[1%R]]]; [[[2%R]]]].

(** The object a constructor call returns, for use in examples. *)
Definition built (r : result Net.t) : Net.t :=
  match r with
  | Ok self => self
  | Raise _ =>
      {| Net.num_branches := 0; Net.avg := false; Net.ind := false;
         Net.bpscale := false; Net.layer_ILR := false; Net.modules := ∅ |}
  end.

Definition dense_args (K : nat) (avg ind : bool) : DenseNet.args := {|
  DenseNet.growth_rate := 12;
  DenseNet.block_config := [6; 6; 6]%Z;
  DenseNet.num_branches := K;
  DenseNet.bpscale := true;
  DenseNet.avg := avg;
  DenseNet.compression := 1 # 2;
  DenseNet.num_init_features := 24;
  DenseNet.bn_size := 4;
  DenseNet.drop_rate := 0;
  DenseNet.num_classes := 3;
  DenseNet.small_inputs := true;
  DenseNet.efficient := false;
  DenseNet.ind := ind
|}.

Definition mobile_args (K : nat) (avg ind : bool) : MobileNetV2.args := {|
  MobileNetV2.num_classes := 3;
  MobileNetV2.width_mult := 1;
  MobileNetV2.inverted_residual_setting := None;
  MobileNetV2.round_nearest := 8;
  MobileNetV2.num_branches := K;
  MobileNetV2.bpscale := false;
  MobileNetV2.avg := avg;
  MobileNetV2.ind := ind
|}.

(** The value of a call that returned. *)
Definition value {A : Type} (d : A) (r : result A) : A :=
  match r with
  | Ok a => a
  | Raise _ => d
  end.

(** Example models: three-branch DenseNets in the gated, averaging and
    independent modes, and single-branch MobileNetV2s. *)
Definition dense_gated : Net.t := built (DenseNet.init (dense_args 3 false false)).
Definition dense_avg : Net.t := built (DenseNet.init (dense_args 3 true false)).
Definition dense_ind : Net.t := built (DenseNet.init (dense_args 3 false true)).
Definition mobile_gated : Net.t := built (MobileNetV2.init (mobile_args 1 false false)).

(** An instance of the model zoo in which every factory returns its own
    name. *)
Definition toy_zoo : MutualNet.Zoo string := {|
  MutualNet.resnet18 := fun _ => Ok "resnet18"%string;
  MutualNet.mobilenet_v2 := fun _ => Ok "mobilenet_v2"%string;
  MutualNet.vgg16 := fun _ _ => Ok "vgg16"%string;
  MutualNet.densenetd40k12 := fun _ => Ok "densenetd40k12"%string;
  MutualNet.densenet121 := fun _ => Ok "densenet121"%string;
  MutualNet.shufflenet_v2_x0_5 := fun _ => Ok "shufflenet_v2_x0_5"%string;
  MutualNet.run_student := fun _ x => Ok (map (fun s => concat (concat s)) x)
|}.

(** ** Further definitions for stating properties *)

(** A row [t, c, n, s] of the inverted-residual setting that the
    constructor can process: four entries, and a stride of 1 or 2 whenever
    the row builds at least one block. *)
Definition usable_row (row : list Z) : Prop :=
  exists t c n s : Z, row = [t; c; n; s] /\ ((0 < n)%Z -> s = 1%Z \/ s = 2%Z).

(** The setting a constructor call works with. *)
Definition setting_of (a : MobileNetV2.args) : list (list Z) :=
  default MobileNetV2.default_setting (MobileNetV2.inverted_residual_setting a).

(** [_make_divisible] over Python's own numbers.  [v] is an [int] or a
    [float]; the operations line 20 and line 22 apply to it round, and they
    raise for some operands ([int()] of a NaN or an infinity, a conversion
    of an [int] too large for a [float]): they are an interface, with the
    exact arithmetic on rationals used by [MobileNetV2._make_divisible] as
    one instance. *)
Module PyFloat.

Class ops (F : Type) : Type := {
  int_truediv : Z -> Z -> result F;
  add : F -> F -> result F;
  mul_09 : F -> result F;
  to_int : F -> result Z;
  int_lt : Z -> F -> bool
}.

Definition _make_divisible {F : Type} `{ops F} (v : F) (divisor : Z)
  (min_value : option Z) : result Z :=
  let min_value := default divisor min_value in
  h ← int_truediv divisor 2;
  s ← add v h;
  i ← to_int s;
  q ← py_floordiv i divisor;
  let new_v := Z.max min_value (q * divisor) in
  t ← mul_09 v;
  if int_lt new_v t then Ok (new_v + divisor)%Z else Ok new_v.

(** Exact arithmetic: no rounding, and no operand is refused. *)
Definition exact : ops Q := {|
  int_truediv := fun a b => if decide (b = 0%Z) then Raise ZeroDivisionError
                            else Ok (inject_Z a / inject_Z b)%Q;
  add := fun x y => Ok (x + y)%Q;
  mul_09 := fun x => Ok ((9 # 10) * x)%Q;
  to_int := fun x => Ok (py_int x);
  int_lt := fun i x => negb (Qle_bool x (inject_Z i))
|}.

End PyFloat.

(** The keyword arguments [a] with [bpscale] replaced. *)
Definition with_bpscale (b : bool) (a : DenseNet.args) : DenseNet.args := {|
  DenseNet.growth_rate := DenseNet.growth_rate a;
  DenseNet.block_config := DenseNet.block_config a;
  DenseNet.num_branches := DenseNet.num_branches a;
  DenseNet.bpscale := b;
  DenseNet.avg := DenseNet.avg a;
  DenseNet.compression := DenseNet.compression a;
  DenseNet.num_init_features := DenseNet.num_init_features a;
  DenseNet.bn_size := DenseNet.bn_size a;
  DenseNet.drop_rate := DenseNet.drop_rate a;
  DenseNet.num_classes := DenseNet.num_classes a;
  DenseNet.small_inputs := DenseNet.small_inputs a;
  DenseNet.efficient := DenseNet.efficient a;
  DenseNet.ind := DenseNet.ind a
|}.

(** A second instance of the library, for running dense blocks: a
    convolution with [o] output channels returns [o] one-pixel channels of
    zeros for every batch element, every other 4-D layer returns its input,
    and dropout returns its input. *)
Definition toy_conv : Torch := {|
  run4 := fun _ l x =>
            match l with
            | Conv2d _ o _ _ _ _ => Ok (map (fun _ => replicate (Z.to_nat o) [[0%R]]) x)
            | _ => Ok x
            end;
  run2 := toy_run2;
  adaptive_avg_pool2d := fun x => Ok x
|}.

Definition toy_functional : Functional := {| dropout := fun _ x => Ok x |}.

(** * Theorems *)


(** ** The error monad *)

Lemma bind_Ok_inv {A B : Type} (r : result A) (k : A -> result B) (b : B) :
  r ≫= k = Ok b -> exists a, r = Ok a /\ k a = Ok b.
Proof. destruct r as [a|e]; simpl; [eauto | discriminate]. Qed.

Lemma bind_raises {A B : Type} (r : result A) (k : A -> result B) :
  raises r -> raises (r ≫= k).
Proof. intros [e ->]. exists e. reflexivity. Qed.

Lemma bind_raises_cont {A B : Type} (r : result A) (k : A -> result B) :
  (forall a, r = Ok a -> raises (k a)) -> raises (r ≫= k).
Proof. destruct r as [a|e]; simpl; [auto | intros _; eexists; reflexivity]. Qed.

Lemma raises_not_Ok {A : Type} (r : result A) (a : A) : raises r -> r <> Ok a.
Proof. intros [e ->]. discriminate. Qed.

Ltac inv_bind H :=
  let a := fresh "v" in
  let Ha := fresh "E" in
  apply bind_Ok_inv in H; destruct H as (a & Ha & H).

(** Branch 0 is addressed by literal names in both forward passes; they
    are the names the loops build for [i = 0]. *)
Example branch_zero_names :
  "layer3_" +:+ str 0 = "layer3_0"%string /\
  "norm_final_" +:+ str 0 = "norm_final_0"%string /\
  "relu_final_" +:+ str 0 = "relu_final_0"%string /\
  "classifier3_" +:+ str 0 = "classifier3_0"%string /\
  "layer4_" +:+ str 1 = "layer4_1"%string.
Proof. repeat split. Qed.

(** ** Loops over lists *)

Lemma traverse_map {A B : Type} (f : A -> result B) (g : A -> B) (l : list A) :
  Forall (fun a => f a = Ok (g a)) l -> traverse f l = Ok (map g l).
Proof.
  induction 1 as [|a l Ha _ IH]; simpl; [reflexivity|].
  rewrite Ha; simpl. rewrite IH. reflexivity.
Qed.

Lemma zip_with_strict_zip_with {A B C : Type} (f : A -> B -> result C)
  (g : A -> B -> C) (l : list A) (k : list B) :
  Forall2 (fun a b => f a b = Ok (g a b)) l k ->
  zip_with_strict f l k = Ok (zip_with g l k).
Proof.
  induction 1 as [|a b l k Hab _ IH]; simpl; [reflexivity|].
  rewrite Hab; simpl. rewrite IH. reflexivity.
Qed.

Lemma zip_with_strict_total {A B C : Type} (g : A -> B -> C) (l : list A) (k : list B) :
  length l = length k ->
  zip_with_strict (fun a b => Ok (g a b)) l k = Ok (zip_with g l k).
Proof.
  intros Hlen. apply zip_with_strict_zip_with.
  revert k Hlen. induction l as [|a l IH]; intros [|b k] Hlen; simpl in Hlen;
    try discriminate; constructor; auto.
Qed.

Lemma zip_with_strict_map {X A B C : Type} (f : A -> B -> result C)
  (g : X -> A) (h : X -> B) (k : X -> C) (l : list X) :
  Forall (fun x => f (g x) (h x) = Ok (k x)) l ->
  zip_with_strict f (map g l) (map h l) = Ok (map k l).
Proof.
  induction 1 as [|x l Hx _ IH]; simpl; [reflexivity|].
  rewrite Hx; simpl. rewrite IH. reflexivity.
Qed.

Lemma for_each_app {S : Type} (l1 l2 : list nat) (body : nat -> S -> result S) (s : S) :
  for_each (l1 ++ l2) body s = (s' ← for_each l1 body s; for_each l2 body s').
Proof.
  revert s. induction l1 as [|i l1 IH]; intros s; simpl; [reflexivity|].
  destruct (body i s) as [s'|e]; simpl; [apply IH | reflexivity].
Qed.

Lemma for_each_ext {S : Type} (l : list nat) (f g : nat -> S -> result S) (s : S) :
  (forall i s', In i l -> f i s' = g i s') -> for_each l f s = for_each l g s.
Proof.
  revert s. induction l as [|i l IH]; intros s Hfg; simpl; [reflexivity|].
  rewrite Hfg by (left; reflexivity).
  destruct (g i s) as [s'|e]; simpl; [|reflexivity].
  apply IH. intros j s'' Hj. apply Hfg. right; exact Hj.
Qed.

(** A loop whose body is guarded by a test on the loop variable runs the
    body on the values that pass the test. *)
Lemma for_each_guard {S : Type} (P : nat -> bool) (l : list nat)
  (body : nat -> S -> result S) (s : S) :
  for_each l (fun j s' => if P j then body j s' else Ok s') s
  = for_each (List.filter P l) body s.
Proof.
  revert s. induction l as [|j l IH]; intros s; simpl; [reflexivity|].
  destruct (P j); simpl.
  - destruct (body j s) as [s'|e]; simpl; [apply IH | reflexivity].
  - apply IH.
Qed.

Lemma range_succ (a b : nat) : a <= b -> range a (S b) = range a b ++ [b].
Proof.
  intros Hab. unfold range. replace (S b - a) with (S (b - a)) by lia.
  rewrite seq_S. do 2 f_equal. lia.
Qed.

Lemma range_nil (a b : nat) : b <= a -> range a b = [].
Proof. intros Hab. unfold range. replace (b - a) with 0 by lia. reflexivity. Qed.

Lemma in_range (a b i : nat) : In i (range a b) <-> a <= i < b.
Proof. unfold range. rewrite in_seq. lia. Qed.

(** ** Shapes, slices and concatenation *)

Lemma Forall2_same_length_Forall {A B : Type} (P : A -> Prop) (Q : B -> Prop)
  (R : A -> B -> Prop) (l : list A) (k : list B) :
  length l = length k -> Forall P l -> Forall Q k ->
  (forall a b, P a -> Q b -> R a b) -> Forall2 R l k.
Proof.
  intros Hlen HP HQ HR. revert k Hlen HQ.
  induction HP as [|a l Ha _ IH]; intros [|b k] Hlen HQ; simpl in Hlen;
    try discriminate; constructor.
  - apply HR; [exact Ha | eapply Forall_inv; exact HQ].
  - apply IH; [lia | eapply Forall_inv_tail; exact HQ].
Qed.

Lemma zip_with_strict_map_r {A B B' C : Type} (f : A -> B' -> result C)
  (h : B -> B') (g : A -> B -> C) (l : list A) (k : list B) :
  Forall2 (fun a b => f a (h b) = Ok (g a b)) l k ->
  zip_with_strict f l (map h k) = Ok (zip_with g l k).
Proof.
  induction 1 as [|a b l k Hab _ IH]; simpl; [reflexivity|].
  rewrite Hab; simpl. rewrite IH. reflexivity.
Qed.

Lemma index_entry (v : Vec) (i : nat) : i < length v -> index v i = Ok (entry i v).
Proof.
  intros Hi. unfold index, entry. rewrite nth_lookup.
  destruct (lookup_lt_is_Some_2 v i Hi) as [a ->]. reflexivity.
Qed.

Lemma index_col_dims (B K : nat) (w : Mat) (i : nat) :
  dims2 B K w -> i < K -> index_col w i = Ok (map (entry i) w).
Proof.
  intros [_ Hw] Hi. apply traverse_map.
  eapply Forall_impl; [exact Hw|]. intros v Hv. apply index_entry. simpl in Hv. lia.
Qed.

Lemma index_last3_dims (B C K : nat) (p : Ten3) (i : nat) :
  dims3 B C K p -> i < K -> index_last3 p i = Ok (map (map (entry i)) p).
Proof.
  intros [_ Hp] Hi. apply traverse_map.
  eapply Forall_impl; [exact Hp|]. intros m Hm. simpl in Hm.
  eapply index_col_dims; eauto.
Qed.

Lemma dims2_unique_rows (B C : nat) (m : Mat) :
  dims2 B C m -> Forall (fun r => length r = C) m.
Proof. intros [_ H]. exact H. Qed.

(** Appending one entry to every last-axis vector. *)
Lemma push_dims2 (C n : nat) (m : Mat) (r : Vec) :
  dims2 C n m -> length r = C ->
  dims2 C (S n) (zip_with (fun u a => u ++ [a]) m r).
Proof.
  intros [Hlen Hm] Hr. subst C. split.
  - rewrite length_zip_with. lia.
  - revert r Hr. induction Hm as [|u m Hu _ IH]; intros [|a r] Hr;
      simpl in *; try discriminate; constructor.
    + rewrite length_app. simpl. lia.
    + apply IH. lia.
Qed.

Lemma push_old2 (C n : nat) (m : Mat) (r : Vec) (i : nat) :
  dims2 C n m -> length r = C -> i < n ->
  map (entry i) (zip_with (fun u a => u ++ [a]) m r) = map (entry i) m.
Proof.
  intros [Hlen Hm] Hr Hi. subst C.
  revert r Hr. induction Hm as [|u m Hu _ IH]; intros [|a r] Hr;
    simpl in *; try discriminate; [reflexivity|].
  f_equal; [|apply IH; lia].
  unfold entry. apply app_nth1. lia.
Qed.

Lemma push_new2 (C n : nat) (m : Mat) (r : Vec) :
  dims2 C n m -> length r = C ->
  map (entry n) (zip_with (fun u a => u ++ [a]) m r) = r.
Proof.
  intros [Hlen Hm] Hr. subst C.
  revert r Hr. induction Hm as [|u m Hu _ IH]; intros [|a r] Hr;
    simpl in *; try discriminate; [reflexivity|].
  f_equal; [|apply IH; lia].
  unfold entry. rewrite app_nth2 by lia. replace (n - length u) with 0 by lia.
  reflexivity.
Qed.

Lemma cat_last_unsqueeze (B C n : nat) (p : Ten3) (y : Mat) :
  dims3 B C n p -> dims2 B C y ->
  cat_last p (unsqueeze_last y)
  = Ok (zip_with (zip_with (fun u a => u ++ [a])) p y).
Proof.
  intros [Hlen Hp] [Hleny Hy]. unfold cat_last, unsqueeze_last.
  apply zip_with_strict_map_r.
  eapply Forall2_same_length_Forall; [lia | exact Hp | exact Hy |].
  intros m r [Hm _] Hr. simpl in *.
  apply zip_with_strict_map_r.
  eapply (Forall2_same_length_Forall (fun _ => True) (fun _ => True));
    [lia | apply Forall_forall; auto | apply Forall_forall; auto | reflexivity].
Qed.

Lemma push_dims3 (B C n : nat) (p : Ten3) (y : Mat) :
  dims3 B C n p -> dims2 B C y ->
  dims3 B C (S n) (zip_with (zip_with (fun u a => u ++ [a])) p y).
Proof.
  intros [Hlen Hp] [Hleny Hy]. subst B. split.
  - rewrite length_zip_with. lia.
  - revert y Hleny Hy. induction Hp as [|m p Hm _ IH];
      intros [|r y] Hleny Hy; simpl in *; try discriminate; constructor.
    + apply push_dims2; [exact Hm | exact (Forall_inv Hy)].
    + apply IH; [lia | exact (Forall_inv_tail Hy)].
Qed.

Lemma push_old3 (B C n : nat) (p : Ten3) (y : Mat) (i : nat) :
  dims3 B C n p -> dims2 B C y -> i < n ->
  map (map (entry i)) (zip_with (zip_with (fun u a => u ++ [a])) p y)
  = map (map (entry i)) p.
Proof.
  intros [Hlen Hp] [Hleny Hy] Hi. subst B.
  revert y Hleny Hy. induction Hp as [|m p Hm _ IH];
    intros [|r y] Hleny Hy; simpl in *; try discriminate; [reflexivity|].
  f_equal.
  - eapply push_old2; [exact Hm | exact (Forall_inv Hy) | exact Hi].
  - apply IH; [lia | exact (Forall_inv_tail Hy)].
Qed.

Lemma push_new3 (B C n : nat) (p : Ten3) (y : Mat) :
  dims3 B C n p -> dims2 B C y ->
  map (map (entry n)) (zip_with (zip_with (fun u a => u ++ [a])) p y) = y.
Proof.
  intros [Hlen Hp] [Hleny Hy]. subst B.
  revert y Hleny Hy. induction Hp as [|m p Hm _ IH];
    intros [|r y] Hleny Hy; simpl in *; try discriminate; [reflexivity|].
  f_equal.
  - eapply push_new2; [exact Hm | exact (Forall_inv Hy)].
  - apply IH; [lia | exact (Forall_inv_tail Hy)].
Qed.

Lemma unsqueeze_dims3 (B C : nat) (y : Mat) :
  dims2 B C y -> dims3 B C 1 (unsqueeze_last y).
Proof.
  intros [Hlen Hy]. unfold unsqueeze_last. split.
  - rewrite length_map. exact Hlen.
  - apply Forall_map. eapply Forall_impl; [exact Hy|].
    intros r Hr. simpl in *. split.
    + rewrite length_map. exact Hr.
    + apply Forall_map. apply Forall_forall. reflexivity.
Qed.

Lemma unsqueeze_entry (y : Mat) : map (map (entry 0)) (unsqueeze_last y) = y.
Proof.
  unfold unsqueeze_last. rewrite map_map.
  rewrite <- (map_id y) at 2. apply map_ext. intros r.
  rewrite map_map. rewrite <- (map_id r) at 2. apply map_ext. reflexivity.
Qed.

(** ** The registered sub-modules after [__init__] *)

Lemma setattrs_snoc (l : list (string * Layer)) (k : string) (v : Layer)
  (m : gmap string Layer) :
  setattrs (l ++ [(k, v)]) m = <[k := v]> (setattrs l m).
Proof. unfold setattrs. rewrite foldl_snoc. reflexivity. Qed.

Lemma setattrs_lookup_notin (l : list (string * Layer)) (m : gmap string Layer)
  (k : string) :
  (forall v, ~ In (k, v) l) -> setattrs l m !! k = m !! k.
Proof.
  induction l as [|[k' v'] l IH] using rev_ind; intros Hk; [reflexivity|].
  rewrite setattrs_snoc. rewrite lookup_insert_ne.
  - apply IH. intros v Hv. apply (Hk v). apply in_or_app. left; exact Hv.
  - intros ->. apply (Hk v'). apply in_or_app. right. left. reflexivity.
Qed.

Lemma setattrs_lookup_in (l : list (string * Layer)) (m : gmap string Layer)
  (k : string) (v : Layer) :
  In (k, v) l -> (forall v', In (k, v') l -> v' = v) ->
  setattrs l m !! k = Some v.
Proof.
  induction l as [|[k' v'] l IH] using rev_ind; intros Hin Huniq; [destruct Hin|].
  rewrite setattrs_snoc. destruct (decide (k' = k)) as [->|Hne].
  - rewrite lookup_insert_eq. f_equal. apply Huniq.
    apply in_or_app. right. left. reflexivity.
  - rewrite lookup_insert_ne by exact Hne. apply IH.
    + apply in_app_or in Hin. destruct Hin as [Hin|[Heq|[]]]; [exact Hin|].
      inversion Heq. congruence.
    + intros v0 Hv0. apply Huniq. apply in_or_app. left; exact Hv0.
Qed.

Lemma in_per_branch (n : nat) (body : nat -> list (string * Layer))
  (kv : string * Layer) :
  In kv (per_branch n body) <-> exists i, i < n /\ In kv (body i).
Proof.
  unfold per_branch. rewrite in_flat_map. split; intros (i & Hi & Hkv); exists i.
  - apply in_range in Hi. split; [lia | exact Hkv].
  - split; [apply in_range; lia | exact Hkv].
Qed.

Lemma str_inj (prefix : string) (i j : nat) :
  prefix +:+ str i = prefix +:+ str j -> i = j.
Proof. intros H. apply String.app_inj in H. apply (inj pretty) in H. exact H. Qed.

(** The loop over the block configuration registers only [layer3_i]. *)
Lemma DenseNet_block_step_mods (a : DenseNet.args) (len : nat)
  (st : DenseNet.blocks_state) (i : nat) (nl : Z) (k : string) :
  (forall j, k <> "layer3_" +:+ str j) ->
  DenseNet.mods (DenseNet.block_step a len st i nl) !! k = DenseNet.mods st !! k.
Proof.
  intros Hk. unfold DenseNet.block_step. destruct (decide (i <> len - 1)); simpl;
    [reflexivity|].
  apply setattrs_lookup_notin. intros v Hv. apply in_per_branch in Hv.
  destruct Hv as (j & _ & [Heq|[]]). inversion Heq. eapply Hk; eauto.
Qed.

Lemma DenseNet_blocks_mods (a : DenseNet.args) (k : string) :
  (forall j, k <> "layer3_" +:+ str j) -> DenseNet.mods (DenseNet.blocks a) !! k = None.
Proof.
  intros Hk. unfold DenseNet.blocks.
  generalize (length (DenseNet.block_config a)) as len.
  generalize (imap pair (DenseNet.block_config a)) as l.
  intros l len. induction l as [|[i nl] l IH] using rev_ind.
  - simpl. apply lookup_empty.
  - rewrite foldl_snoc. rewrite DenseNet_block_step_mods by exact Hk. exact IH.
Qed.

(** What a successful [DenseNet.__init__] leaves in the object. *)
Lemma DenseNet_init_inv (a : DenseNet.args) (self : Net.t) :
  DenseNet.init a = Ok self ->
  exists nl, DenseNet.num_layers (DenseNet.blocks a) = Some nl /\
  let st := DenseNet.blocks a in
  let K := DenseNet.num_branches a in
  let nf := (DenseNet.num_features st + nl * DenseNet.growth_rate a)%Z in
  let m := <["features" := Sequential (DenseNet.features st)]> (DenseNet.mods st) in
  let m := if bool_decide (DenseNet.avg a = false)
           then <["bn_v1" := BatchNorm1d (Z.of_nat K)]>
                  (<["control_v1" := Linear (DenseNet.num_features st) (Z.of_nat K)]> m)
           else m in
  self = {| Net.num_branches := K;
            Net.avg := DenseNet.avg a;
            Net.ind := DenseNet.ind a;
            Net.bpscale := DenseNet.bpscale a;
            Net.layer_ILR := DenseNet.bpscale a;
            Net.modules :=
              <["avgpool" := AdaptiveAvgPool2d]>
                (setattrs
                   (per_branch K (fun i =>
                      [("classifier3_" +:+ str i, Linear nf (DenseNet.num_classes a))]))
                   (setattrs
                      (per_branch K (fun i =>
                         [("norm_final_" +:+ str i, BatchNorm2d nf);
                          ("relu_final_" +:+ str i, ReLU)])) m)) |}.
Proof.
  unfold DenseNet.init. intros Hinit.
  destruct (negb _); [discriminate|].
  destruct (DenseNet.num_layers (DenseNet.blocks a)) as [nl|]; [|discriminate].
  exists nl. split; [reflexivity|]. simpl. congruence.
Qed.

Lemma DenseNet_init_fields (a : DenseNet.args) (self : Net.t) :
  DenseNet.init a = Ok self ->
  Net.num_branches self = DenseNet.num_branches a /\
  Net.avg self = DenseNet.avg a /\
  Net.ind self = DenseNet.ind a /\
  Net.bpscale self = DenseNet.bpscale a /\
  Net.layer_ILR self = DenseNet.bpscale a.
Proof.
  intros Hinit. apply DenseNet_init_inv in Hinit. destruct Hinit as (nl & _ & ->).
  simpl. auto.
Qed.

Lemma DenseNet_init_classifier (a : DenseNet.args) (self : Net.t) (i : nat) :
  DenseNet.init a = Ok self -> i < DenseNet.num_branches a ->
  exists nf, Net.modules self !! ("classifier3_" +:+ str i)
             = Some (Linear nf (DenseNet.num_classes a)).
Proof.
  intros Hinit Hi. apply DenseNet_init_inv in Hinit. destruct Hinit as (nl & _ & ->).
  eexists. simpl. rewrite lookup_insert_ne by discriminate.
  apply setattrs_lookup_in.
  - apply in_per_branch. exists i. split; [exact Hi | left; reflexivity].
  - intros v' Hv'. apply in_per_branch in Hv'. destruct Hv' as (j & _ & [Heq|[]]).
    inversion Heq. reflexivity.
Qed.

Lemma DenseNet_init_gate_lookup (a : DenseNet.args) (self : Net.t) :
  DenseNet.init a = Ok self ->
  if DenseNet.avg a then
    Net.modules self !! "control_v1" = None /\ Net.modules self !! "bn_v1" = None
  else
    (exists nf, Net.modules self !! "control_v1"
                = Some (Linear nf (Z.of_nat (DenseNet.num_branches a)))) /\
    Net.modules self !! "bn_v1" = Some (BatchNorm1d (Z.of_nat (DenseNet.num_branches a))).
Proof.
  intros Hinit. apply DenseNet_init_inv in Hinit. destruct Hinit as (nl & _ & ->).
  simpl.
  assert (Hskip : forall (k : string) (m : gmap string Layer),
    k = "control_v1"%string \/ k = "bn_v1"%string ->
    (<["avgpool" := AdaptiveAvgPool2d]>
       (setattrs
          (per_branch (DenseNet.num_branches a) (fun i =>
             [("classifier3_" +:+ str i,
               Linear (DenseNet.num_features (DenseNet.blocks a) + nl * DenseNet.growth_rate a)
                 (DenseNet.num_classes a))]))
          (setattrs
             (per_branch (DenseNet.num_branches a) (fun i =>
                [("norm_final_" +:+ str i,
                  BatchNorm2d (DenseNet.num_features (DenseNet.blocks a)
                               + nl * DenseNet.growth_rate a));
                 ("relu_final_" +:+ str i, ReLU)])) m))) !! k = m !! k).
  { intros k m Hk. rewrite lookup_insert_ne by (destruct Hk as [-> | ->]; discriminate).
    rewrite !setattrs_lookup_notin; [reflexivity | |].
    - intros v Hv. apply in_per_branch in Hv.
      destruct Hv as (j & _ & [Heq|[Heq|[]]]); inversion Heq as [[Hn Hl]];
        destruct Hk as [-> | ->]; discriminate Hn.
    - intros v Hv. apply in_per_branch in Hv.
      destruct Hv as (j & _ & [Heq|[]]); inversion Heq as [[Hn Hl]];
        destruct Hk as [-> | ->]; discriminate Hn. }
  rewrite !Hskip by auto.
  destruct (DenseNet.avg a); simpl.
  - rewrite !lookup_insert_ne by discriminate.
    rewrite !DenseNet_blocks_mods; [auto | |]; intros j; discriminate.
  - split.
    + eexists. rewrite lookup_insert_ne by discriminate. apply lookup_insert_eq.
    + apply lookup_insert_eq.
Qed.

Lemma DenseNet_init_avgpool (a : DenseNet.args) (self : Net.t) :
  DenseNet.init a = Ok self -> Net.modules self !! "avgpool" = Some AdaptiveAvgPool2d.
Proof.
  intros Hinit. apply DenseNet_init_inv in Hinit. destruct Hinit as (nl & _ & ->).
  simpl. apply lookup_insert_eq.
Qed.

(** ** Stacking the per-branch logits *)

Lemma for_each_Ok_body {S : Type} (l : list nat) (body : nat -> S -> result S)
  (s s' : S) :
  for_each l body s = Ok s' ->
  forall i, In i l -> exists s1 s2, body i s1 = Ok s2.
Proof.
  revert s. induction l as [|j l IH]; intros s Hrun i Hi; [destruct Hi|].
  simpl in Hrun. inv_bind Hrun. destruct Hi as [->|Hi]; eauto.
Qed.

(** The loop [for i in range(1, n): pro = cat([pro, h(i).unsqueeze(-1)], -1)]
    started from [y0.unsqueeze(-1)]: entry [i] of the last axis is the
    output of branch [i]. *)
Lemma stack_loop (h : nat -> result Mat) (B C : nat) (y0 : Mat) (n : nat) :
  dims2 B C y0 ->
  (forall i, 1 <= i < n -> exists y, h i = Ok y /\ dims2 B C y) ->
  1 <= n ->
  exists pro,
    for_each (range 1 n)
      (fun i pro => y ← h i; cat_last pro (unsqueeze_last y))
      (unsqueeze_last y0) = Ok pro /\
    dims3 B C n pro /\
    map (map (entry 0)) pro = y0 /\
    forall i, 1 <= i < n -> h i = Ok (map (map (entry i)) pro).
Proof.
  intros Hy0 Hh Hn. induction n as [|n IH]; [lia|].
  destruct (decide (n = 0)) as [->|Hn0].
  - exists (unsqueeze_last y0). simpl. split; [reflexivity|].
    split; [apply unsqueeze_dims3; exact Hy0|].
    split; [apply unsqueeze_entry|]. intros i Hi. lia.
  - destruct IH as (pro & Hrun & Hdims & H0 & Hslices); [intros i Hi; apply Hh; lia | lia |].
    destruct (Hh n) as (y & Hy & Hdy); [lia|].
    exists (zip_with (zip_with (fun u a => u ++ [a])) pro y).
    rewrite range_succ by lia. rewrite for_each_app. rewrite Hrun. simpl.
    rewrite Hy. simpl.
    rewrite (cat_last_unsqueeze B C n) by assumption. simpl.
    split; [reflexivity|].
    split; [apply push_dims3; assumption|].
    split.
    + rewrite (push_old3 B C n) by (try assumption; lia). exact H0.
    + intros i Hi. destruct (decide (i = n)) as [->|Hne].
      * rewrite (push_new3 B C n) by assumption. exact Hy.
      * rewrite (push_old3 B C n) by (try assumption; lia). apply Hslices. lia.
Qed.

Lemma stack_loop_inv (h : nat -> result Mat) (s pro : Ten3) (n : nat) :
  for_each (range 1 n)
    (fun i pro => y ← h i; cat_last pro (unsqueeze_last y)) s = Ok pro ->
  forall i, 1 <= i < n -> exists y, h i = Ok y.
Proof.
  intros Hrun i Hi.
  destruct (for_each_Ok_body _ _ _ _ Hrun i) as (s1 & s2 & Hbody).
  - apply in_range. lia.
  - inv_bind Hbody. eauto.
Qed.

(** ** Shapes of the head outputs under the library contract *)

Section Shapes.
Context {T : Torch} {C : TorchContract T}.

Lemma call4_batch (self : Net.t) (name : string) (x y : Ten4) :
  call4 self name x = Ok y -> length y = length x.
Proof.
  unfold call4. intros Hc. inv_bind Hc. eapply run4_batch; eauto.
Qed.

Lemma view_rows_Ok (n : nat) (t : Ten4) (m : Mat) :
  view_rows n t = Ok m -> length m = length t /\ n = length t /\ n <> 0.
Proof.
  unfold view_rows. destruct (decide (n = 0)); [discriminate|].
  destruct (decide (n = length t)); [|discriminate].
  intros [= <-]. rewrite length_map. auto.
Qed.

Lemma call2_linear (self : Net.t) (name : string) (i o : Z) (x y : Mat) :
  Net.modules self !! name = Some (Linear i o) ->
  call2 self name x = Ok y -> dims2 (length x) (Z.to_nat o) y.
Proof.
  unfold call2, getattr. intros ->. simpl. intros Hrun.
  apply linear_shape in Hrun. exact Hrun.
Qed.

Lemma call2_classifier (self : Net.t) (name : string) (p : Q) (i o : Z) (x y : Mat) :
  Net.modules self !! name = Some (classifier p i o) ->
  call2 self name x = Ok y -> dims2 (length x) (Z.to_nat o) y.
Proof.
  unfold call2, getattr. intros ->. simpl. intros Hrun.
  apply classifier_shape in Hrun. exact Hrun.
Qed.

Lemma call2_bn1d (self : Net.t) (name : string) (n : Z) (x y : Mat) :
  Net.modules self !! name = Some (BatchNorm1d n) ->
  call2 self name x = Ok y -> dims2 (length x) (Z.to_nat n) y.
Proof.
  unfold call2, getattr. intros ->. simpl. intros Hrun.
  apply bn1d_shape in Hrun. exact Hrun.
Qed.

Lemma DenseNet_head_dims (a : DenseNet.args) (self : Net.t) (i : nat) (x : Ten4)
  (y : Mat) :
  DenseNet.init a = Ok self -> i < DenseNet.num_branches a ->
  DenseNet.head self i x = Ok y ->
  dims2 (length x) (Z.to_nat (DenseNet.num_classes a)) y.
Proof.
  intros Hinit Hi Hhead. unfold DenseNet.head in Hhead.
  inv_bind Hhead. inv_bind Hhead. inv_bind Hhead. inv_bind Hhead. inv_bind Hhead.
  repeat match goal with
         | E : call4 _ _ _ = Ok _ |- _ => apply call4_batch in E
         end.
  apply view_rows_Ok in E3. destruct E3 as (Hlen & _ & _).
  destruct (DenseNet_init_classifier a self i Hinit Hi) as (nf & Hcls).
  pose proof (call2_linear _ _ _ _ _ _ Hcls Hhead) as Hd.
  replace (length x) with (length v3) by congruence. exact Hd.
Qed.

(** If every head returns, the per-branch logits are the heads' outputs
    stacked along the last axis in ascending branch order. *)
Lemma DenseNet_branches_layout (a : DenseNet.args) (self : Net.t) (x : Ten4) :
  DenseNet.init a = Ok self -> 1 <= DenseNet.num_branches a ->
  (forall i, i < DenseNet.num_branches a -> exists y, DenseNet.head self i x = Ok y) ->
  exists pro,
    DenseNet.branches self x = Ok pro /\
    dims3 (length x) (Z.to_nat (DenseNet.num_classes a)) (DenseNet.num_branches a) pro /\
    forall i, i < DenseNet.num_branches a ->
      DenseNet.head self i x = index_last3 pro i.
Proof.
  intros Hinit HK Hheads.
  destruct (DenseNet_init_fields a self Hinit) as (HKs & _).
  destruct (Hheads 0) as (y0 & Hy0); [lia|].
  destruct (stack_loop (fun i => DenseNet.head self i x) (length x)
              (Z.to_nat (DenseNet.num_classes a)) y0 (DenseNet.num_branches a))
    as (pro & Hrun & Hdims & H0 & Hslices).
  - apply (DenseNet_head_dims a self 0 x y0 Hinit); [lia | exact Hy0].
  - intros i Hi. destruct (Hheads i) as (y & Hy); [lia|]. exists y. split; [exact Hy|].
    apply (DenseNet_head_dims a self i x y Hinit); [lia | exact Hy].
  - exact HK.
  - exists pro. unfold DenseNet.branches. rewrite Hy0. simpl. rewrite HKs.
    split; [exact Hrun|]. split; [exact Hdims|].
    intros i Hi. rewrite (index_last3_dims _ _ _ _ _ Hdims Hi).
    destruct (decide (i = 0)) as [->|Hne].
    + rewrite H0. exact Hy0.
    + apply Hslices. lia.
Qed.

Lemma DenseNet_branches_inv (self : Net.t) (x : Ten4) (pro : Ten3) :
  DenseNet.branches self x = Ok pro ->
  forall i, i < Net.num_branches self \/ i = 0 -> exists y, DenseNet.head self i x = Ok y.
Proof.
  unfold DenseNet.branches. intros Hrun i Hi. inv_bind Hrun.
  destruct (decide (i = 0)) as [->|Hne]; [eauto|].
  eapply (stack_loop_inv (fun i => DenseNet.head self i x)); [exact Hrun | lia].
Qed.

Lemma DenseNet_branches_dims (a : DenseNet.args) (self : Net.t) (x : Ten4) (pro : Ten3) :
  DenseNet.init a = Ok self -> 1 <= DenseNet.num_branches a ->
  DenseNet.branches self x = Ok pro ->
  dims3 (length x) (Z.to_nat (DenseNet.num_classes a)) (DenseNet.num_branches a) pro.
Proof.
  intros Hinit HK Hrun.
  destruct (DenseNet_init_fields a self Hinit) as (HKs & _).
  destruct (DenseNet_branches_layout a self x Hinit HK) as (pro' & Hrun' & Hdims & _).
  - intros i Hi. eapply DenseNet_branches_inv; [exact Hrun | lia].
  - congruence.
Qed.

End Shapes.

(** ** Sums *)

Lemma fold_left_Rsum (f : nat -> R) (js : list nat) (a : R) :
  fold_left (fun acc j => (acc + f j)%R) js a = (a + Rsum (map f js))%R.
Proof.
  revert a. induction js as [|j js IH]; intros a; simpl; [lra|].
  rewrite IH. lra.
Qed.

Lemma Rsum_entries (l : Vec) : Rsum (map (fun j => entry j l) (seq 0 (length l))) = Rsum l.
Proof.
  induction l as [|a l IH]; simpl; [reflexivity|].
  rewrite <- seq_shift, map_map. unfold entry at 1. simpl.
  f_equal. exact IH.
Qed.

Lemma Rsum_zip_entries (w l : Vec) (K : nat) :
  length w = K -> length l = K ->
  Rsum (zip_with Rmult w l)
  = Rsum (map (fun j => (entry j w * entry j l)%R) (seq 0 K)).
Proof.
  revert l K. induction w as [|a w IH]; intros [|b l] K Hw Hl; simpl in *; subst K;
    try discriminate; [reflexivity|].
  simpl. rewrite <- seq_shift, map_map. unfold entry at 1 2. simpl.
  f_equal. apply IH; [reflexivity | lia].
Qed.

Lemma Rsum_scale (c : R) (f : nat -> R) (js : list nat) :
  Rsum (map (fun j => (c * f j)%R) js) = (c * Rsum (map f js))%R.
Proof. induction js as [|j js IH]; simpl; [lra | rewrite IH; lra]. Qed.

Lemma filter_map_S (P : nat -> bool) (l : list nat) :
  List.filter P (map S l) = map S (List.filter (fun j => P (S j)) l).
Proof.
  induction l as [|j l IH]; simpl; [reflexivity|].
  destruct (P (S j)); simpl; rewrite IH; reflexivity.
Qed.

Lemma filter_true {A : Type} (P : A -> bool) (l : list A) :
  (forall a, In a l -> P a = true) -> List.filter P l = l.
Proof.
  induction l as [|a l IH]; intros HP; simpl; [reflexivity|].
  rewrite HP by (left; reflexivity). f_equal. apply IH. intros b Hb. apply HP.
  right; exact Hb.
Qed.

(** The sum over all indices but [i] is the sum of the list without its
    [i]-th element. *)
Lemma Rsum_others (l : Vec) (i : nat) :
  Rsum (map (fun j => entry j l)
          (List.filter (fun j => bool_decide (j <> i)) (seq 0 (length l))))
  = Rsum (delete i l).
Proof.
  revert i. induction l as [|a l IH]; intros i; [destruct i; reflexivity|].
  simpl length. rewrite <- cons_seq, <- seq_shift.
  destruct i as [|i]; simpl.
  - rewrite filter_map_S. rewrite filter_true by (intros; reflexivity).
    rewrite map_map. apply (Rsum_entries l).
  - rewrite filter_map_S. rewrite map_map. unfold entry at 1. simpl. f_equal.
    rewrite <- (IH i). f_equal. f_equal. apply List.filter_ext. intros j.
    apply bool_decide_ext. lia.
Qed.

(** ** Gated fusion computes the weighted sum *)

Lemma zip_with_strict_map_both {A A' B B' C : Type} (f : A' -> B' -> result C)
  (g : A -> A') (h : B -> B') (k : A -> B -> C) (l : list A) (m : list B) :
  Forall2 (fun a b => f (g a) (h b) = Ok (k a b)) l m ->
  zip_with_strict f (map g l) (map h m) = Ok (zip_with k l m).
Proof.
  induction 1 as [|a b l m Hab _ IH]; simpl; [reflexivity|].
  rewrite Hab; simpl. rewrite IH. reflexivity.
Qed.

Lemma zip_with_ext_Forall2 {A B C : Type} (f g : A -> B -> C) (l : list A) (k : list B) :
  Forall2 (fun a b => f a b = g a b) l k -> zip_with f l k = zip_with g l k.
Proof. induction 1 as [|a b l k Hab _ IH]; simpl; [reflexivity|]. rewrite Hab, IH. reflexivity. Qed.

Lemma mul_row_broadcast (a : R) (r : Vec) :
  zip_with_strict (fun u v => Ok (u * v)%R) (concat (replicate (length r) [a])) r
  = Ok (map (fun v => (a * v)%R) r).
Proof.
  induction r as [|b r IH]; simpl; [reflexivity|].
  rewrite IH. reflexivity.
Qed.

Lemma dims_Forall2 (B C K : nat) (w : Mat) (pro : Ten3) :
  dims2 B K w -> dims3 B C K pro ->
  Forall2 (fun wb pb => length wb = K /\ dims2 C K pb) w pro.
Proof.
  intros [Hlw Hw] [Hlp Hp].
  eapply Forall2_same_length_Forall; [lia | exact Hw | exact Hp | auto].
Qed.

Lemma size1_slice (B C K : nat) (pro : Ten3) (i : nat) (pb : list (list R)) :
  dims3 B C K pro -> In pb pro -> size1 (map (map (entry i)) pro) = C.
Proof.
  intros [_ Hp] Hin. destruct pro as [|m pro]; [destruct Hin|].
  simpl. rewrite length_map. apply Forall_inv in Hp. apply Hp.
Qed.

Lemma gated_term_dims (B C K : nat) (w : Mat) (pro : Ten3) (i : nat) :
  dims2 B K w -> dims3 B C K pro -> i < K ->
  gated_term w pro i
  = Ok (zip_with (fun wb pb => map (fun l => (entry i wb * entry i l)%R) pb) w pro).
Proof.
  intros Hw Hp Hi. unfold gated_term.
  rewrite (index_col_dims B K) by assumption. simpl.
  rewrite (index_last3_dims B C K) by assumption. simpl.
  unfold mul_ew, repeat_cols, view_col. rewrite !map_map.
  pose proof (dims_Forall2 B C K w pro Hw Hp) as Hall.
  assert (Hsize : forall pb, In pb pro -> size1 (map (map (entry i)) pro) = C)
    by (intros pb; apply (size1_slice B C K); exact Hp).
  revert Hsize. generalize (size1 (map (map (entry i)) pro)) as n. intros n Hsize.
  apply (zip_with_strict_map_both
           (zip_with_strict (fun u v : R => Ok (u * v)%R))
           (fun wb : Vec => concat (replicate n [entry i wb]))
           (map (entry i))
           (fun (wb : Vec) (pb : Mat) => map (fun l => (entry i wb * entry i l)%R) pb)).
  clear Hw Hp. induction Hall as [|wb pb w pro [_ [Hlen _]] _ IH]; constructor.
  - rewrite (Hsize pb) by (left; reflexivity).
    rewrite <- Hlen. rewrite <- (length_map (entry i) pb).
    rewrite mul_row_broadcast. rewrite map_map. reflexivity.
  - apply IH. intros pb' Hin. apply (Hsize pb'). right; exact Hin.
Qed.

Lemma add_ew_zip_with (g h : Vec -> Vec -> R) (w : Mat) (pro : Ten3) :
  add_ew (zip_with (fun wb pb => map (g wb) pb) w pro)
         (zip_with (fun wb pb => map (h wb) pb) w pro)
  = Ok (zip_with (fun wb pb => map (fun l => (g wb l + h wb l)%R) pb) w pro).
Proof.
  unfold add_ew. revert pro. induction w as [|wb w IH]; intros [|pb pro]; simpl;
    try reflexivity.
  rewrite (zip_with_strict_map (fun u v : R => Ok (u + v)%R) (g wb) (h wb)
             (fun l => (g wb l + h wb l)%R))
    by (apply Forall_forall; reflexivity).
  simpl. rewrite IH. reflexivity.
Qed.

Lemma gated_loop (B C K : nat) (w : Mat) (pro : Ten3) (js : list nat)
  (g0 : Vec -> Vec -> R) :
  dims2 B K w -> dims3 B C K pro -> Forall (fun j => j < K) js ->
  for_each js (fun i x_m => t ← gated_term w pro i; add_ew x_m t)
    (zip_with (fun wb pb => map (g0 wb) pb) w pro)
  = Ok (zip_with
          (fun wb pb =>
             map (fun l => fold_left (fun acc j => (acc + entry j wb * entry j l)%R)
                             js (g0 wb l)) pb)
          w pro).
Proof.
  intros Hw Hp Hjs. revert g0. induction Hjs as [|j js Hj _ IH]; intros g0; simpl;
    [reflexivity|].
  rewrite (gated_term_dims B C K) by assumption. simpl.
  rewrite add_ew_zip_with. simpl. apply IH.
Qed.

(** The fused logits of the gated mode, as a function of the gate weights
    and the per-branch logits. *)
Lemma fuse_gated_weighted_sum (B C K : nat) (w : Mat) (pro : Ten3) :
  1 <= K -> dims2 B K w -> dims3 B C K pro ->
  fuse_gated K w pro = Ok (weighted_sum w pro).
Proof.
  intros HK Hw Hp. unfold fuse_gated.
  rewrite (gated_term_dims B C K) by (try assumption; lia). simpl.
  rewrite (gated_loop B C K) by (try assumption; apply Forall_forall; intros j Hj;
                                  apply list_elem_of_In, in_range in Hj; lia).
  f_equal. unfold weighted_sum. apply zip_with_ext_Forall2.
  eapply Forall2_impl; [apply (dims_Forall2 B C K); eassumption|].
  intros wb pb [Hlw [_ Hpb]]. simpl. apply map_ext_Forall.
  eapply Forall_impl; [exact Hpb|]. intros l Hl. simpl in Hl.
  rewrite (Rsum_zip_entries wb l K) by assumption.
  rewrite (fold_left_Rsum (fun j => (entry j wb * entry j l)%R)).
  unfold range. destruct K as [|K']; [lia|].
  replace (S K' - 1) with K' by lia. reflexivity.
Qed.

(** Two branches with gate weights 0.3 and 0.7. *)
Example gated_fusion_two_branches :
  fuse_gated 2 [[0.3; 0.7]]%R [[[1; 2]; [3; 4]]]%R
  = Ok [[0.3 * 1 + 0.7 * 2; 0.3 * 3 + 0.7 * 4]]%R.
Proof. reflexivity. Qed.

(** ** Leave-one-out averaging *)

Lemma reciprocal_of_others (K : nat) :
  2 <= K -> py_truediv 1 (Z.of_nat K - 1) = Ok (1 / (INR K - 1))%R.
Proof.
  intros HK. unfold py_truediv. destruct (decide (Z.of_nat K - 1 = 0)%Z); [lia|].
  rewrite minus_IZR, <- INR_IZR_INZ. reflexivity.
Qed.

Lemma avg_term_dims (B C K : nat) (pro : Ten3) (j : nat) :
  2 <= K -> dims3 B C K pro -> j < K ->
  DenseNet.avg_term K pro j
  = Ok (map (map (fun l => (1 / (INR K - 1) * entry j l)%R)) pro).
Proof.
  intros HK Hp Hj. unfold DenseNet.avg_term.
  rewrite reciprocal_of_others by exact HK. simpl.
  rewrite (index_last3_dims B C K) by assumption. simpl.
  unfold scale. rewrite map_map. f_equal. apply map_ext. intros m.
  rewrite map_map. reflexivity.
Qed.

Lemma add_ew_map (g h : Vec -> R) (pro : Ten3) :
  add_ew (map (map g) pro) (map (map h) pro)
  = Ok (map (map (fun l => (g l + h l)%R)) pro).
Proof.
  unfold add_ew.
  apply (zip_with_strict_map _ (map g) (map h) (map (fun l => (g l + h l)%R))).
  apply Forall_forall. intros m _.
  apply (zip_with_strict_map _ g h). apply Forall_forall. reflexivity.
Qed.

Lemma avg_loop_tensor (B C K : nat) (pro : Ten3) (js : list nat) (g0 : Vec -> R) :
  2 <= K -> dims3 B C K pro -> Forall (fun j => j < K) js ->
  for_each js (fun j acc => t ← DenseNet.avg_term K pro j; py_iadd acc t)
    (PyTensor (map (map g0) pro))
  = Ok (PyTensor
          (map (map (fun l =>
                       fold_left (fun acc j => (acc + 1 / (INR K - 1) * entry j l)%R)
                         js (g0 l))) pro)).
Proof.
  intros HK Hp Hjs. revert g0. induction Hjs as [|j js Hj _ IH]; intros g0; simpl;
    [reflexivity|].
  rewrite (avg_term_dims B C K) by assumption. simpl.
  rewrite add_ew_map. simpl. apply IH.
Qed.

(** A non-empty run of [acc += 1/(K-1) * pro[:, :, j]] started from the
    integer 0 leaves [1/(K-1)] times the sum of the visited slices. *)
Lemma avg_loop (B C K : nat) (pro : Ten3) (js : list nat) :
  2 <= K -> dims3 B C K pro -> Forall (fun j => j < K) js -> js <> [] ->
  for_each js (fun j acc => t ← DenseNet.avg_term K pro j; py_iadd acc t) (PyInt 0)
  = Ok (PyTensor
          (map (map (fun l => (1 / (INR K - 1)
                               * Rsum (map (fun j => entry j l) js))%R)) pro)).
Proof.
  intros HK Hp Hjs Hne. destruct js as [|j0 js]; [congruence|].
  apply Forall_cons_1 in Hjs. destruct Hjs as [Hj0 Hjs]. simpl.
  rewrite (avg_term_dims B C K) by assumption. simpl. rewrite map_map.
  erewrite (map_ext (fun m => map _ (map _ m))) by (intros m; apply map_map).
  rewrite (avg_loop_tensor B C K) by assumption.
  do 2 f_equal. apply map_ext. intros m. apply map_ext. intros l.
  rewrite (fold_left_Rsum (fun j => (1 / (INR K - 1) * entry j l)%R)).
  rewrite Rsum_scale. lra.
Qed.

Lemma others_nonempty (K i : nat) :
  2 <= K -> List.filter (fun j => bool_decide (j <> i)) (range 0 K) <> [].
Proof.
  intros HK Hnil.
  assert (Hin : In (if decide (i = 0) then 1 else 0)
                  (List.filter (fun j => bool_decide (j <> i)) (range 0 K))).
  { apply filter_In. split.
    - apply in_range. destruct (decide (i = 0)); lia.
    - apply bool_decide_eq_true_2. destruct (decide (i = 0)); lia. }
  rewrite Hnil in Hin. destruct Hin.
Qed.

Lemma others_of_zero (K : nat) :
  List.filter (fun j => bool_decide (j <> 0)) (range 0 K) = range 1 K.
Proof.
  unfold range. destruct K as [|K]; [reflexivity|].
  replace (S K - 0) with (S K) by lia. replace (S K - 1) with K by lia.
  rewrite <- cons_seq. simpl. apply filter_true.
  intros j Hj. apply in_seq in Hj. apply bool_decide_eq_true_2. lia.
Qed.

(** The tensor the averaging loops build for slot [i]. *)
Lemma avg_slot (B C K : nat) (pro : Ten3) (i : nat) :
  2 <= K -> dims3 B C K pro ->
  for_each (range 0 K)
    (fun j temp =>
       if decide (j <> i) then t ← DenseNet.avg_term K pro j; py_iadd temp t
       else Ok temp)
    (PyInt 0)
  = Ok (PyTensor
          (map (map (fun l =>
             (1 / (INR K - 1)
              * Rsum (map (fun j => entry j l)
                        (List.filter (fun j => bool_decide (j <> i)) (range 0 K))))%R))
             pro)).
Proof.
  intros HK Hp.
  rewrite (for_each_ext _ _
             (fun j temp =>
                if bool_decide (j <> i)
                then t ← DenseNet.avg_term K pro j; py_iadd temp t
                else Ok temp)).
  - rewrite (for_each_guard (fun j => bool_decide (j <> i))).
    apply (avg_loop B C K); try assumption.
    + apply Forall_forall. intros j Hj. apply list_elem_of_In, filter_In in Hj.
      destruct Hj as [Hj _]. apply in_range in Hj. lia.
    + apply others_nonempty. exact HK.
  - intros j s _. destruct (decide (j <> i)).
    + rewrite bool_decide_eq_true_2 by assumption. reflexivity.
    + rewrite bool_decide_eq_false_2 by assumption. reflexivity.
Qed.

Lemma cat_last_map (F : Vec -> Vec) (g : Vec -> R) (pro : Ten3) :
  cat_last (map (map F) pro) (unsqueeze_last (map (map g) pro))
  = Ok (map (map (fun l => F l ++ [g l])) pro).
Proof.
  unfold cat_last, unsqueeze_last. rewrite map_map.
  apply (zip_with_strict_map _ (map F) (fun m => map (fun v => [v]) (map g m))
           (map (fun l => F l ++ [g l]))).
  apply Forall_forall. intros m _. rewrite map_map.
  apply (zip_with_strict_map _ F (fun l => [g l])). apply Forall_forall. reflexivity.
Qed.

Lemma unsqueeze_map (g : Vec -> R) (pro : Ten3) :
  unsqueeze_last (map (map g) pro) = map (map (fun l => [g l])) pro.
Proof.
  unfold unsqueeze_last. rewrite map_map. apply map_ext. intros m. apply map_map.
Qed.

Lemma others_slot_leave_one_out (K : nat) (l : Vec) (i : nat) :
  length l = K -> others_slot K l i = leave_one_out_slot K l i.
Proof.
  intros Hl. unfold others_slot, leave_one_out_slot. f_equal.
  unfold range. replace (K - 0) with (length l) by lia. apply Rsum_others.
Qed.

(** The second loop of the averaging mode appends one slot per branch
    index from 1 on to the tensor holding slot 0. *)
Lemma avg_cat_loop (B C K : nat) (pro : Ten3) (s0 : Vec -> R) (n : nat) :
  2 <= K -> dims3 B C K pro -> 1 <= n ->
  for_each (range 1 n)
    (fun i x_m =>
       temp ← for_each (range 0 K)
                (fun j temp =>
                   if decide (j <> i)
                   then t ← DenseNet.avg_term K pro j; py_iadd temp t
                   else Ok temp) (PyInt 0);
       temp ← py_unsqueeze temp; cat_last x_m temp)
    (map (map (fun l => [s0 l])) pro)
  = Ok (map (map (fun l => s0 l :: map (others_slot K l) (range 1 n))) pro).
Proof.
  intros HK Hp Hn. induction n as [|n IH]; [lia|].
  destruct (decide (n = 0)) as [->|Hn0]; [reflexivity|].
  rewrite !range_succ by lia. rewrite for_each_app. rewrite IH by lia.
  cbn [for_each mbind result_bind].
  rewrite (avg_slot B C K) by assumption.
  cbn [mbind result_bind py_unsqueeze].
  rewrite (cat_last_map (fun l => s0 l :: map (others_slot K l) (range 1 n))
             (fun l => others_slot K l n)).
  cbn [mbind result_bind]. f_equal.
  apply map_ext. intros m. apply map_ext. intros l.
  rewrite map_app. reflexivity.
Qed.

(** The fused tensor of the averaging mode has one slot for every branch
    index from 0 to [K - 1]. *)
Lemma fuse_avg_slots (B C K : nat) (pro : Ten3) :
  2 <= K -> dims3 B C K pro ->
  DenseNet.fuse_avg K pro = Ok (leave_one_out K (range 0 K) pro).
Proof.
  intros HK Hp. unfold DenseNet.fuse_avg.
  assert (Hlt : Forall (fun j => j < K) (range 1 K))
    by (apply Forall_forall; intros j Hj; apply list_elem_of_In, in_range in Hj; lia).
  assert (Hne : range 1 K <> [])
    by (rewrite <- others_of_zero; apply others_nonempty; exact HK).
  rewrite (avg_loop B C K pro (range 1 K) HK Hp Hlt Hne).
  cbn [mbind result_bind py_unsqueeze].
  transitivity
    (Ok (map (map (fun l =>
           (1 / (INR K - 1) * Rsum (map (fun j => entry j l) (range 1 K)))%R
           :: map (others_slot K l) (range 1 K))) pro)).
  - rewrite unsqueeze_map.
    exact (avg_cat_loop B C K pro
             (fun l => (1 / (INR K - 1) * Rsum (map (fun j => entry j l) (range 1 K)))%R)
             K HK Hp ltac:(lia)).
  - f_equal. unfold leave_one_out.
    apply map_ext_Forall. destruct Hp as [_ Hp].
    eapply Forall_impl; [exact Hp|]. intros m [_ Hm]. apply map_ext_Forall.
    eapply Forall_impl; [exact Hm|]. intros l Hl. simpl in Hl.
    replace (range 0 K) with (0 :: range 1 K)
      by (unfold range; destruct K; [lia|];
          replace (S K - 0) with (S K) by lia; replace (S K - 1) with K by lia;
          reflexivity).
    cbn [map]. f_equal.
    + rewrite <- (others_slot_leave_one_out K l 0 Hl). unfold others_slot.
      rewrite others_of_zero. reflexivity.
    + apply map_ext. intros i. apply others_slot_leave_one_out. exact Hl.
Qed.

(** ** Softmax *)

Lemma Rsum_exp_pos (v : Vec) : v <> [] -> (0 < Rsum (map exp v))%R.
Proof.
  intros Hv. destruct v as [|a v]; [congruence|]. clear Hv. simpl.
  assert (H0 : (0 <= Rsum (map exp v))%R).
  { induction v as [|b v IH]; simpl; [lra|]. pose proof (exp_pos b). lra. }
  pose proof (exp_pos a). lra.
Qed.

Lemma Rsum_div (s : R) (e : Vec) :
  Rsum (map (fun a => (a / s)%R) e) = (Rsum e / s)%R.
Proof. induction e as [|a e IH]; simpl; [lra | rewrite IH; lra]. Qed.

Lemma softmax_row_length (v : Vec) : length (softmax_row v) = length v.
Proof. unfold softmax_row. rewrite !length_map. reflexivity. Qed.

Lemma softmax_row_distribution (v : Vec) : v <> [] -> distribution (softmax_row v).
Proof.
  intros Hv. pose proof (Rsum_exp_pos v Hv) as Hpos. unfold softmax_row. split.
  - apply Forall_map. apply Forall_map. apply Forall_forall. intros a _. simpl.
    apply Rlt_le. apply Rdiv_lt_0_compat; [apply exp_pos | exact Hpos].
  - rewrite Rsum_div. field. lra.
Qed.

Lemma softmax_relu_dims (B K : nat) (m : Mat) :
  dims2 B K m -> dims2 B K (softmax (relu m)).
Proof.
  intros [Hlen Hm]. unfold softmax, relu. split.
  - rewrite !length_map. exact Hlen.
  - apply Forall_map. apply Forall_map. eapply Forall_impl; [exact Hm|].
    intros r Hr. simpl in *. rewrite softmax_row_length, length_map. exact Hr.
Qed.

Lemma softmax_relu_distribution (B K : nat) (m : Mat) :
  1 <= K -> dims2 B K m -> Forall distribution (softmax (relu m)).
Proof.
  intros HK [_ Hm]. unfold softmax, relu.
  apply Forall_map. apply Forall_map. eapply Forall_impl; [exact Hm|].
  intros r Hr. simpl in *. apply softmax_row_distribution.
  intros Hnil. apply (f_equal length) in Hnil. rewrite length_map in Hnil.
  simpl in Hnil. lia.
Qed.

(** ** The gate *)

Lemma gate_inv `{Torch} (self : Net.t) (x : Ten4) (w : Mat) :
  gate self x = Ok w ->
  exists pooled flat lin bn,
    adaptive_avg_pool2d x = Ok pooled /\
    view_rows (length pooled) pooled = Ok flat /\
    call2 self "control_v1" flat = Ok lin /\
    call2 self "bn_v1" lin = Ok bn /\
    w = softmax (relu bn).
Proof.
  unfold gate. intros Hg. inv_bind Hg. inv_bind Hg. inv_bind Hg. inv_bind Hg.
  injection Hg as <-. eauto 10.
Qed.

Lemma gate_dims {T : Torch} {C : TorchContract T} (self : Net.t) (x : Ten4)
  (w : Mat) (nf : Z) (K : nat) :
  Net.modules self !! "control_v1" = Some (Linear nf (Z.of_nat K)) ->
  Net.modules self !! "bn_v1" = Some (BatchNorm1d (Z.of_nat K)) ->
  gate self x = Ok w ->
  dims2 (length x) K w.
Proof.
  intros Hlin Hbn Hg. apply gate_inv in Hg.
  destruct Hg as (pooled & flat & lin & bn & Hpool & Hview & Hl & Hb & ->).
  apply pool_batch in Hpool. apply view_rows_Ok in Hview. destruct Hview as (Hf & _ & _).
  pose proof (call2_linear _ _ _ _ _ _ Hlin Hl) as [Hll _].
  pose proof (call2_bn1d _ _ _ _ _ Hbn Hb) as Hd. rewrite Nat2Z.id in Hd.
  apply softmax_relu_dims. replace (length x) with (length lin) by congruence.
  exact Hd.
Qed.

Lemma gate_distribution {T : Torch} {C : TorchContract T} (self : Net.t) (x : Ten4)
  (w : Mat) (K : nat) :
  1 <= K ->
  Net.modules self !! "bn_v1" = Some (BatchNorm1d (Z.of_nat K)) ->
  gate self x = Ok w ->
  Forall distribution w.
Proof.
  intros HK Hbn Hg. apply gate_inv in Hg.
  destruct Hg as (pooled & flat & lin & bn & _ & _ & _ & Hb & ->).
  pose proof (call2_bn1d _ _ _ _ _ Hbn Hb) as Hd. rewrite Nat2Z.id in Hd.
  eapply softmax_relu_distribution; eauto.
Qed.

(** ** The registered sub-modules after [MobileNetV2.__init__] *)

Lemma MobileNetV2_init_inv (a : MobileNetV2.args) (self : Net.t) :
  MobileNetV2.init a = Ok self ->
  exists (lc ic : Z) (oc : option Z) (fs : list (string * Layer)),
  let K := MobileNetV2.num_branches a in
  let m := setattrs
             (per_branch K (fun i =>
                [("layer4_" +:+ str i, MobileNetV2.ConvBNReLU ic lc 1 1 1);
                 ("classifier4_" +:+ str i,
                  classifier (2 # 10) lc (MobileNetV2.num_classes a))]))
             (<["features" := Sequential fs]> ∅) in
  (MobileNetV2.avg a = false -> exists c, oc = Some c) /\
  self = {| Net.num_branches := K;
            Net.avg := MobileNetV2.avg a;
            Net.ind := MobileNetV2.ind a;
            Net.bpscale := MobileNetV2.bpscale a;
            Net.layer_ILR := false;
            Net.modules :=
              if MobileNetV2.avg a then m
              else <["bn_v1" := BatchNorm1d (Z.of_nat K)]>
                     (<["control_v1" := Linear (default 0%Z oc) (Z.of_nat K)]> m) |}.
Proof.
  unfold MobileNetV2.init. intros Hinit.
  destruct (_ || _); [discriminate|].
  inv_bind Hinit. inv_bind Hinit. inv_bind Hinit. inv_bind Hinit.
  injection Hinit as <-.
  exists v0, (MobileNetV2.input_channel v1), (MobileNetV2.output_channel v1).
  eexists. destruct (MobileNetV2.avg a); simpl in *.
  - injection E2 as <-. split; [discriminate | reflexivity].
  - destruct (MobileNetV2.output_channel v1) as [c|]; [|discriminate].
    injection E2 as <-. split; [eauto | reflexivity].
Qed.

Lemma MobileNetV2_init_fields (a : MobileNetV2.args) (self : Net.t) :
  MobileNetV2.init a = Ok self ->
  Net.num_branches self = MobileNetV2.num_branches a /\
  Net.avg self = MobileNetV2.avg a /\
  Net.ind self = MobileNetV2.ind a.
Proof.
  intros Hinit. apply MobileNetV2_init_inv in Hinit.
  destruct Hinit as (lc & ic & oc & fs & _ & ->). simpl. auto.
Qed.

Lemma MobileNetV2_heads_lookup (K : nat) (ic lc nc : Z) (m : gmap string Layer)
  (k : string) :
  (forall j, k <> "layer4_" +:+ str j) -> (forall j, k <> "classifier4_" +:+ str j) ->
  setattrs
    (per_branch K (fun i =>
       [("layer4_" +:+ str i, MobileNetV2.ConvBNReLU ic lc 1 1 1);
        ("classifier4_" +:+ str i, classifier (2 # 10) lc nc)])) m !! k = m !! k.
Proof.
  intros Hl Hc. apply setattrs_lookup_notin. intros v Hv. apply in_per_branch in Hv.
  destruct Hv as (j & _ & [Heq|[Heq|[]]]); inversion Heq; [eapply Hl | eapply Hc]; eauto.
Qed.

(** No statement of the constructor registers [avgpool]. *)
Lemma MobileNetV2_init_no_avgpool (a : MobileNetV2.args) (self : Net.t) :
  MobileNetV2.init a = Ok self -> Net.modules self !! "avgpool" = None.
Proof.
  intros Hinit. apply MobileNetV2_init_inv in Hinit.
  destruct Hinit as (lc & ic & oc & fs & _ & ->). simpl.
  destruct (MobileNetV2.avg a).
  - rewrite MobileNetV2_heads_lookup by (intros j; discriminate).
    rewrite lookup_insert_ne by discriminate. apply lookup_empty.
  - rewrite !lookup_insert_ne by discriminate.
    rewrite MobileNetV2_heads_lookup by (intros j; discriminate).
    rewrite lookup_insert_ne by discriminate. apply lookup_empty.
Qed.

Lemma MobileNetV2_init_gate_lookup (a : MobileNetV2.args) (self : Net.t) :
  MobileNetV2.init a = Ok self ->
  if MobileNetV2.avg a then
    Net.modules self !! "control_v1" = None /\ Net.modules self !! "bn_v1" = None
  else
    (exists nf, Net.modules self !! "control_v1"
                = Some (Linear nf (Z.of_nat (MobileNetV2.num_branches a)))) /\
    Net.modules self !! "bn_v1"
    = Some (BatchNorm1d (Z.of_nat (MobileNetV2.num_branches a))).
Proof.
  intros Hinit. apply MobileNetV2_init_inv in Hinit.
  destruct Hinit as (lc & ic & oc & fs & _ & ->). simpl.
  destruct (MobileNetV2.avg a).
  - rewrite !MobileNetV2_heads_lookup by (intros j; discriminate).
    rewrite !lookup_insert_ne by discriminate. rewrite lookup_empty. auto.
  - split.
    + eexists. rewrite lookup_insert_ne by discriminate. apply lookup_insert_eq.
    + apply lookup_insert_eq.
Qed.

Lemma MobileNetV2_init_classifier (a : MobileNetV2.args) (self : Net.t) (i : nat) :
  MobileNetV2.init a = Ok self -> i < MobileNetV2.num_branches a ->
  exists lc, Net.modules self !! ("classifier4_" +:+ str i)
             = Some (classifier (2 # 10) lc (MobileNetV2.num_classes a)).
Proof.
  intros Hinit Hi. apply MobileNetV2_init_inv in Hinit.
  destruct Hinit as (lc & ic & oc & fs & _ & ->). exists lc. simpl.
  assert (Hhit : forall m : gmap string Layer,
    setattrs
      (per_branch (MobileNetV2.num_branches a) (fun i =>
         [("layer4_" +:+ str i, MobileNetV2.ConvBNReLU ic lc 1 1 1);
          ("classifier4_" +:+ str i,
           classifier (2 # 10) lc (MobileNetV2.num_classes a))])) m
      !! ("classifier4_" +:+ str i)
    = Some (classifier (2 # 10) lc (MobileNetV2.num_classes a))).
  { intros m. apply setattrs_lookup_in.
    - apply in_per_branch. exists i. split; [exact Hi | right; left; reflexivity].
    - intros v' Hv'. apply in_per_branch in Hv'.
      destruct Hv' as (j & _ & [Heq|[Heq|[]]]); inversion Heq; reflexivity. }
  destruct (MobileNetV2.avg a); [apply Hhit|].
  rewrite !lookup_insert_ne by discriminate. apply Hhit.
Qed.

(** ** [MobileNetV2._forward_impl] beyond the first branch *)

Lemma getattr_missing (self : Net.t) (name : string) :
  Net.modules self !! name = None -> getattr self name = Raise (AttributeError name).
Proof. unfold getattr. intros ->. reflexivity. Qed.

Lemma MobileNetV2_head_raises `{Torch} (self : Net.t) (i : nat) (x : Ten4) :
  Net.modules self !! "avgpool" = None -> raises (MobileNetV2.head self i x).
Proof.
  intros Hno. unfold MobileNetV2.head. apply bind_raises_cont. intros t _.
  apply bind_raises. unfold call4. rewrite getattr_missing by exact Hno.
  eexists. reflexivity.
Qed.

Lemma MobileNetV2_head_avgpool `{Torch} (self : Net.t) (i : nat) (x t : Ten4) :
  Net.modules self !! "avgpool" = None ->
  call4 self ("layer4_" +:+ str i) x = Ok t ->
  MobileNetV2.head self i x = Raise (AttributeError "avgpool").
Proof.
  intros Hno Hl. unfold MobileNetV2.head. rewrite Hl. simpl.
  unfold call4. rewrite getattr_missing by exact Hno. reflexivity.
Qed.

Lemma range_from_one (K : nat) : 2 <= K -> range 1 K = 1 :: range 2 K.
Proof.
  intros HK. unfold range. destruct K as [|[|K]]; try lia.
  replace (S (S K) - 1) with (S K) by lia. replace (S (S K) - 2) with K by lia.
  reflexivity.
Qed.

Lemma MobileNetV2_branches_raise `{Torch} (self : Net.t) (x : Ten4) :
  Net.modules self !! "avgpool" = None -> 2 <= Net.num_branches self ->
  raises (MobileNetV2.branches self x).
Proof.
  intros Hno HK. unfold MobileNetV2.branches. apply bind_raises_cont. intros y0 _.
  rewrite range_from_one by exact HK. simpl. apply bind_raises. apply bind_raises.
  apply MobileNetV2_head_raises. exact Hno.
Qed.

Lemma MobileNetV2_branches_avgpool `{Torch} (self : Net.t) (x t : Ten4) (y0 : Mat) :
  Net.modules self !! "avgpool" = None -> 2 <= Net.num_branches self ->
  MobileNetV2.head0 self x = Ok y0 ->
  call4 self "layer4_1" x = Ok t ->
  MobileNetV2.branches self x = Raise (AttributeError "avgpool").
Proof.
  intros Hno HK Hy0 Hl. unfold MobileNetV2.branches. rewrite Hy0. simpl.
  rewrite range_from_one by exact HK. simpl.
  rewrite (MobileNetV2_head_avgpool self 1 x t Hno Hl). reflexivity.
Qed.

(** Without any branch there is no [layer4_0] either. *)
Lemma MobileNetV2_init_no_branch (a : MobileNetV2.args) (self : Net.t) :
  MobileNetV2.init a = Ok self -> MobileNetV2.num_branches a = 0 ->
  Net.modules self !! "layer4_0" = None.
Proof.
  intros Hinit HK. apply MobileNetV2_init_inv in Hinit.
  destruct Hinit as (lc & ic & oc & fs & _ & ->). simpl. rewrite HK.
  unfold per_branch, range. simpl. unfold setattrs. simpl.
  destruct (MobileNetV2.avg a); rewrite ?lookup_insert_ne by discriminate;
    apply lookup_empty.
Qed.

Lemma MobileNetV2_forward_raises `{Torch} (a : MobileNetV2.args) (self : Net.t)
  (x : Ten4) :
  MobileNetV2.init a = Ok self -> MobileNetV2.num_branches a <> 1 ->
  raises (MobileNetV2.forward self x).
Proof.
  intros Hinit HK.
  destruct (MobileNetV2_init_fields a self Hinit) as (HKs & _).
  unfold MobileNetV2.forward. apply bind_raises_cont. intros x' _. apply bind_raises.
  destruct (decide (MobileNetV2.num_branches a = 0)) as [H0|H0].
  - unfold MobileNetV2.branches, MobileNetV2.head0. apply bind_raises. apply bind_raises.
    unfold call4. rewrite getattr_missing
      by (eapply MobileNetV2_init_no_branch; eauto).
    eexists. reflexivity.
  - apply MobileNetV2_branches_raise; [eapply MobileNetV2_init_no_avgpool; eauto | lia].
Qed.

Lemma MobileNetV2_forward_avgpool `{Torch} (a : MobileNetV2.args) (self : Net.t)
  (x x' t : Ten4) (y0 : Mat) :
  MobileNetV2.init a = Ok self -> 2 <= MobileNetV2.num_branches a ->
  call4 self "features" x = Ok x' ->
  MobileNetV2.head0 self x' = Ok y0 ->
  call4 self "layer4_1" x' = Ok t ->
  MobileNetV2.forward self x = Raise (AttributeError "avgpool").
Proof.
  intros Hinit HK Hf Hy0 Hl.
  destruct (MobileNetV2_init_fields a self Hinit) as (HKs & _).
  unfold MobileNetV2.forward. rewrite Hf. simpl.
  rewrite (MobileNetV2_branches_avgpool self x' t y0); try assumption.
  - reflexivity.
  - eapply MobileNetV2_init_no_avgpool; eauto.
  - lia.
Qed.

Section MobileShapes.
Context {T : Torch} {C : TorchContract T}.

Lemma MobileNetV2_head0_dims (a : MobileNetV2.args) (self : Net.t) (x : Ten4) (y : Mat) :
  MobileNetV2.init a = Ok self -> 1 <= MobileNetV2.num_branches a ->
  MobileNetV2.head0 self x = Ok y ->
  dims2 (length x) (Z.to_nat (MobileNetV2.num_classes a)) y.
Proof.
  intros Hinit HK Hhead. unfold MobileNetV2.head0 in Hhead.
  inv_bind Hhead. inv_bind Hhead. inv_bind Hhead.
  apply call4_batch in E. apply pool_batch in E0. apply view_rows_Ok in E1.
  destruct E1 as (Hlen & _ & _).
  destruct (MobileNetV2_init_classifier a self 0 Hinit) as (lc & Hcls); [lia|].
  pose proof (call2_classifier _ _ _ _ _ _ _ Hcls Hhead) as Hd.
  replace (length x) with (length v1) by congruence. exact Hd.
Qed.

(** The per-branch loop of MobileNetV2 returns only for a single branch. *)
Lemma MobileNetV2_branches_dims (a : MobileNetV2.args) (self : Net.t) (x : Ten4)
  (pro : Ten3) :
  MobileNetV2.init a = Ok self ->
  MobileNetV2.branches self x = Ok pro ->
  MobileNetV2.num_branches a = 1 /\
  dims3 (length x) (Z.to_nat (MobileNetV2.num_classes a)) 1 pro /\
  exists y0, MobileNetV2.head0 self x = Ok y0 /\ index_last3 pro 0 = Ok y0.
Proof.
  intros Hinit Hrun.
  destruct (MobileNetV2_init_fields a self Hinit) as (HKs & _).
  assert (HK : MobileNetV2.num_branches a = 1).
  { destruct (decide (MobileNetV2.num_branches a = 1)) as [|Hne]; [assumption|].
    exfalso. destruct (decide (MobileNetV2.num_branches a = 0)) as [H0|H0].
    - unfold MobileNetV2.branches, MobileNetV2.head0, call4 in Hrun.
      rewrite getattr_missing in Hrun by (eapply MobileNetV2_init_no_branch; eauto).
      discriminate.
    - eapply raises_not_Ok; [|exact Hrun]. apply MobileNetV2_branches_raise.
      + eapply MobileNetV2_init_no_avgpool; eauto.
      + lia. }
  split; [exact HK|].
  unfold MobileNetV2.branches in Hrun. inv_bind Hrun. rewrite HKs, HK in Hrun.
  simpl in Hrun. injection Hrun as <-.
  pose proof (MobileNetV2_head0_dims a self x v Hinit ltac:(lia) E) as Hd.
  split; [apply unsqueeze_dims3; exact Hd|].
  exists v. split; [exact E|].
  rewrite (index_last3_dims _ _ 1 _ 0 (unsqueeze_dims3 _ _ _ Hd)) by lia.
  rewrite unsqueeze_entry. reflexivity.
Qed.

End MobileShapes.

(** ** The forward passes in the two fusion modes *)

Lemma DenseNet_trunk_batch {T : Torch} {C : TorchContract T} (self : Net.t)
  (x x' : Ten4) :
  DenseNet.trunk self x = Ok x' -> length x' = length x.
Proof.
  unfold DenseNet.trunk. intros Ht. inv_bind Ht. apply call4_batch in E.
  destruct (Net.bpscale self); [destruct (Net.layer_ILR self); [|discriminate]|];
    injection Ht as <-; exact E.
Qed.

Lemma DenseNet_forward_gated {T : Torch} {C : TorchContract T} (a : DenseNet.args)
  (self : Net.t) (x x' : Ten4) (pro : Ten3) (w : Mat) :
  DenseNet.init a = Ok self ->
  Net.avg self = false -> Net.ind self = false -> 1 <= Net.num_branches self ->
  DenseNet.trunk self x = Ok x' ->
  DenseNet.branches self x' = Ok pro ->
  gate self x' = Ok w ->
  DenseNet.forward self x = Ok (pro, FMat (weighted_sum w pro)).
Proof.
  intros Hinit Havg Hind HK Ht Hb Hg.
  destruct (DenseNet_init_fields a self Hinit) as (HKs & Havgs & _).
  pose proof (DenseNet_init_gate_lookup a self Hinit) as Hgate.
  rewrite <- Havgs, Havg in Hgate. destruct Hgate as [[nf Hlin] Hbn].
  rewrite <- HKs in Hlin, Hbn.
  pose proof (gate_dims self x' w nf _ Hlin Hbn Hg) as Hw.
  assert (HKa : 1 <= DenseNet.num_branches a) by (rewrite <- HKs; exact HK).
  pose proof (DenseNet_branches_dims a self x' pro Hinit HKa Hb) as Hp.
  rewrite <- HKs in Hp.
  unfold DenseNet.forward. rewrite Ht. simpl. rewrite Hb. simpl.
  rewrite Hind, Havg. rewrite Hg. simpl.
  rewrite (fuse_gated_weighted_sum _ _ _ w pro HK Hw Hp). reflexivity.
Qed.

Lemma MobileNetV2_forward_gated {T : Torch} {C : TorchContract T}
  (a : MobileNetV2.args) (self : Net.t) (x x' : Ten4) (pro : Ten3) (w : Mat) :
  MobileNetV2.init a = Ok self ->
  Net.avg self = false -> Net.ind self = false ->
  call4 self "features" x = Ok x' ->
  MobileNetV2.branches self x' = Ok pro ->
  gate self x' = Ok w ->
  MobileNetV2.forward self x = Ok (pro, FMat (weighted_sum w pro)).
Proof.
  intros Hinit Havg Hind Ht Hb Hg.
  destruct (MobileNetV2_init_fields a self Hinit) as (HKs & Havgs & _).
  pose proof (MobileNetV2_init_gate_lookup a self Hinit) as Hgate.
  rewrite <- Havgs, Havg in Hgate. destruct Hgate as [[nf Hlin] Hbn].
  rewrite <- HKs in Hlin, Hbn.
  pose proof (gate_dims self x' w nf _ Hlin Hbn Hg) as Hw.
  destruct (MobileNetV2_branches_dims a self x' pro Hinit Hb) as (HK1 & Hp & _).
  rewrite <- HKs in HK1. rewrite HK1 in Hw.
  unfold MobileNetV2.forward. rewrite Ht. simpl. rewrite Hb. simpl.
  rewrite Hind, Havg. rewrite Hg. simpl. rewrite HK1.
  rewrite (fuse_gated_weighted_sum _ _ 1 w pro (le_n 1) Hw Hp). reflexivity.
Qed.

Lemma DenseNet_forward_avg {T : Torch} {C : TorchContract T} (a : DenseNet.args)
  (self : Net.t) (x x' : Ten4) (pro : Ten3) :
  DenseNet.init a = Ok self ->
  Net.avg self = true -> Net.ind self = false -> 2 <= Net.num_branches self ->
  DenseNet.trunk self x = Ok x' ->
  DenseNet.branches self x' = Ok pro ->
  DenseNet.forward self x
  = Ok (pro, FTen (leave_one_out (Net.num_branches self)
                     (range 0 (Net.num_branches self)) pro)) /\
  dims3 (length x) (Z.to_nat (DenseNet.num_classes a)) (Net.num_branches self) pro.
Proof.
  intros Hinit Havg Hind HK Ht Hb.
  destruct (DenseNet_init_fields a self Hinit) as (HKs & _).
  assert (HKa : 1 <= DenseNet.num_branches a) by (rewrite <- HKs; lia).
  pose proof (DenseNet_branches_dims a self x' pro Hinit HKa Hb) as Hp.
  rewrite <- HKs in Hp. rewrite (DenseNet_trunk_batch self x x' Ht) in Hp.
  split; [|exact Hp].
  unfold DenseNet.forward. rewrite Ht. simpl. rewrite Hb. simpl.
  rewrite Hind, Havg. rewrite (fuse_avg_slots _ _ _ pro HK Hp). reflexivity.
Qed.

Lemma leave_one_out_dims (B C K : nat) (slots : list nat) (pro : Ten3) :
  dims3 B C K pro -> dims3 B C (length slots) (leave_one_out K slots pro).
Proof.
  intros [Hlen Hp]. unfold leave_one_out. split.
  - rewrite length_map. exact Hlen.
  - apply Forall_map. eapply Forall_impl; [exact Hp|]. intros m [Hm _]. split.
    + rewrite length_map. exact Hm.
    + apply Forall_map. apply Forall_forall. intros l _. simpl.
      rewrite length_map. reflexivity.
Qed.

(** With a single branch the averaging code leaves the integer 0 in [x_m]. *)
Lemma fuse_avg_single (pro : Ten3) :
  DenseNet.fuse_avg 1 pro = Raise (AttributeError "unsqueeze").
Proof. reflexivity. Qed.

Lemma DenseNet_blocks_num_layers (a : DenseNet.args) :
  DenseNet.block_config a <> [] ->
  exists nl, DenseNet.num_layers (DenseNet.blocks a) = Some nl.
Proof.
  intros Hne. unfold DenseNet.blocks.
  generalize (length (DenseNet.block_config a)) as len. intros len.
  destruct (DenseNet.block_config a) as [|z l] using rev_ind; [congruence|].
  rewrite imap_app. simpl. rewrite foldl_snoc.
  unfold DenseNet.block_step. destruct (decide _); simpl; eauto.
Qed.

(** ** The example library keeps the shape contract *)

Lemma toy_linear_shape (name : string) (o : Z) (x : Mat) :
  length (toy_linear name o x) = length x /\
  Forall (fun r => length r = Z.to_nat o) (toy_linear name o x).
Proof.
  unfold toy_linear. split; [apply length_map|].
  apply Forall_map. apply Forall_forall. intros r _. simpl.
  rewrite length_map, length_seq. reflexivity.
Qed.

Lemma toy_contract : TorchContract toy.
Proof.
  split.
  - intros name l x y [= <-]. reflexivity.
  - intros x y [= <-]. reflexivity.
  - intros name i o x y [= <-]. apply toy_linear_shape.
  - intros name p i o x y [= <-]. apply toy_linear_shape.
  - intros name n x y Hrun. simpl in Hrun.
    destruct (forallb _ x) eqn:Hall; [|discriminate]. injection Hrun as <-.
    split; [reflexivity|]. apply Forall_forall. intros r Hr.
    rewrite forallb_forall in Hall. apply Nat.eqb_eq. apply Hall.
    apply list_elem_of_In. exact Hr.
Qed.

(** * The claims *)

(** C7.  In independent mode ([ind = True]) the second component of what
    [forward] returns is [None], for every input and whatever the other
    flags are: both forward passes are the trunk followed by the
    per-branch heads, paired with [None]. *)
Theorem independent_mode_returns_no_fused_output {T : Torch} (self : Net.t)
  (x : Ten4) :
  Net.ind self = true ->
  DenseNet.forward self x
  = (x' ← DenseNet.trunk self x; pro ← DenseNet.branches self x'; Ok (pro, FNone)) /\
  MobileNetV2.forward self x
  = (x' ← call4 self "features" x; pro ← MobileNetV2.branches self x';
     Ok (pro, FNone)) /\
  (forall pro f,
     DenseNet.forward self x = Ok (pro, f) \/ MobileNetV2.forward self x = Ok (pro, f) ->
     f = FNone).
Proof.
  intros Hind.
  assert (Hd : DenseNet.forward self x
               = (x' ← DenseNet.trunk self x; pro ← DenseNet.branches self x';
                  Ok (pro, FNone))).
  { unfold DenseNet.forward. rewrite Hind. reflexivity. }
  assert (Hm : MobileNetV2.forward self x
               = (x' ← call4 self "features" x; pro ← MobileNetV2.branches self x';
                  Ok (pro, FNone))).
  { unfold MobileNetV2.forward. rewrite Hind. reflexivity. }
  split; [exact Hd|]. split; [exact Hm|].
  intros pro f [Hf|Hf]; [rewrite Hd in Hf | rewrite Hm in Hf];
    inv_bind Hf; inv_bind Hf; congruence.
Qed.

Lemma independent_mode_returns_no_fused_output_witness :
  Net.ind dense_ind = true /\
  exists pro, @DenseNet.forward toy dense_ind two_images = Ok (pro, FNone).
Proof.
  split; [reflexivity|].
  destruct (@independent_mode_returns_no_fused_output toy dense_ind two_images eq_refl)
    as (Hd & _ & _).
  rewrite Hd. eexists. vm_compute. reflexivity.
Defined.

(** C2.  In gated fusion mode ([ind = False], [avg = False]) the fused
    logits are, for every batch element and class, the sum over the branch
    indices 0 .. K-1 of the gate weight of the branch times the branch's
    logit; the gate and the heads read the same trunk output. *)
Theorem gated_fusion_is_weighted_sum {T : Torch} {C : TorchContract T}
  (self : Net.t) (x : Ten4) :
  Net.ind self = false -> Net.avg self = false -> 1 <= Net.num_branches self ->
  (forall a x' pro w,
     DenseNet.init a = Ok self ->
     DenseNet.trunk self x = Ok x' ->
     DenseNet.branches self x' = Ok pro ->
     gate self x' = Ok w ->
     DenseNet.forward self x = Ok (pro, FMat (weighted_sum w pro))) /\
  (forall a x' pro w,
     MobileNetV2.init a = Ok self ->
     call4 self "features" x = Ok x' ->
     MobileNetV2.branches self x' = Ok pro ->
     gate self x' = Ok w ->
     MobileNetV2.forward self x = Ok (pro, FMat (weighted_sum w pro))).
Proof.
  intros Hind Havg HK. split.
  - intros a x' pro w Hinit Ht Hb Hg. eapply DenseNet_forward_gated; eauto.
  - intros a x' pro w Hinit Ht Hb Hg. eapply MobileNetV2_forward_gated; eauto.
Qed.

Lemma gated_fusion_is_weighted_sum_witness :
  Net.ind dense_gated = false /\ Net.avg dense_gated = false /\
  1 <= Net.num_branches dense_gated /\
  @DenseNet.forward toy dense_gated two_images
  = Ok (value [] (@DenseNet.branches toy dense_gated two_images),
        FMat (weighted_sum (value [] (@gate toy dense_gated two_images))
                (value [] (@DenseNet.branches toy dense_gated two_images)))).
Proof.
  split; [reflexivity|]. split; [reflexivity|]. split; [vm_compute; lia|].
  refine (proj1 (@gated_fusion_is_weighted_sum toy toy_contract dense_gated two_images
                   eq_refl eq_refl _)
            (dense_args 3 false false) two_images _ _ _ _ _ _).
  - vm_compute. lia.
  - vm_compute. reflexivity.
  - vm_compute. reflexivity.
  - vm_compute. reflexivity.
  - vm_compute. reflexivity.
Defined.

(** C6.  In gated mode the gate weights are the softmax of the rectified,
    batch-normalised linear projection (to K outputs) of the globally
    average-pooled trunk features; hence every batch element has K weights
    that are non-negative and sum to 1 (in exact arithmetic). *)
Theorem gate_weights_form_a_distribution {T : Torch} {C : TorchContract T}
  (self : Net.t) (x : Ten4) (w : Mat) :
  Net.avg self = false -> 1 <= Net.num_branches self ->
  (exists a, DenseNet.init a = Ok self) \/ (exists a, MobileNetV2.init a = Ok self) ->
  gate self x = Ok w ->
  (exists pooled flat lin bn nf,
     adaptive_avg_pool2d x = Ok pooled /\
     view_rows (length pooled) pooled = Ok flat /\
     Net.modules self !! "control_v1"
     = Some (Linear nf (Z.of_nat (Net.num_branches self))) /\
     run2 "control_v1" (Linear nf (Z.of_nat (Net.num_branches self))) flat = Ok lin /\
     Net.modules self !! "bn_v1"
     = Some (BatchNorm1d (Z.of_nat (Net.num_branches self))) /\
     run2 "bn_v1" (BatchNorm1d (Z.of_nat (Net.num_branches self))) lin = Ok bn /\
     w = softmax (relu bn)) /\
  dims2 (length x) (Net.num_branches self) w /\
  Forall distribution w.
Proof.
  intros Havg HK Hbuilt Hg.
  assert (Hlook : (exists nf, Net.modules self !! "control_v1"
                     = Some (Linear nf (Z.of_nat (Net.num_branches self)))) /\
                  Net.modules self !! "bn_v1"
                  = Some (BatchNorm1d (Z.of_nat (Net.num_branches self)))).
  { destruct Hbuilt as [[a Hinit]|[a Hinit]].
    - destruct (DenseNet_init_fields a self Hinit) as (HKs & Havgs & _).
      pose proof (DenseNet_init_gate_lookup a self Hinit) as Hgate.
      rewrite <- Havgs, Havg, <- HKs in Hgate. exact Hgate.
    - destruct (MobileNetV2_init_fields a self Hinit) as (HKs & Havgs & _).
      pose proof (MobileNetV2_init_gate_lookup a self Hinit) as Hgate.
      rewrite <- Havgs, Havg, <- HKs in Hgate. exact Hgate. }
  destruct Hlook as [[nf Hlin] Hbn].
  pose proof (gate_dims self x w nf _ Hlin Hbn Hg) as Hw.
  destruct (gate_inv self x w Hg) as (pooled & flat & lin & bn & Hp & Hv & Hl & Hb & ->).
  split; [|split; [exact Hw|]].
  - exists pooled, flat, lin, bn, nf. unfold call2, getattr in Hl, Hb.
    rewrite Hlin in Hl. rewrite Hbn in Hb. simpl in Hl, Hb. auto 10.
  - eapply (gate_distribution self x); eauto.
Qed.

Lemma gate_weights_form_a_distribution_witness :
  Net.avg dense_gated = false /\ 1 <= Net.num_branches dense_gated /\
  dims2 2 3 (value [] (@gate toy dense_gated two_images)) /\
  Forall distribution (value [] (@gate toy dense_gated two_images)).
Proof.
  split; [reflexivity|]. split; [vm_compute; lia|].
  refine (proj2 (@gate_weights_form_a_distribution toy toy_contract dense_gated
                   two_images (value [] (@gate toy dense_gated two_images))
                   eq_refl _ _ _)).
  - vm_compute. lia.
  - left. exists (dense_args 3 false false). vm_compute. reflexivity.
  - vm_compute. reflexivity.
Defined.

(** C3 (amended).  In the averaging mode of DenseNet ([avg = True],
    [ind = False], K >= 2) the fused output has a branch axis of size K:
    for every branch index i from 0 to K-1, index 0 included, slot i
    holds 1/(K-1) times the sum of the logits of the branches j <> i. *)
Theorem densenet_average_has_a_slot_per_branch {T : Torch} {C : TorchContract T}
  (a : DenseNet.args) (self : Net.t) (x x' : Ten4) (pro : Ten3) :
  DenseNet.init a = Ok self ->
  Net.avg self = true -> Net.ind self = false -> 2 <= Net.num_branches self ->
  DenseNet.trunk self x = Ok x' ->
  DenseNet.branches self x' = Ok pro ->
  let K := Net.num_branches self in
  let fused := leave_one_out K (range 0 K) pro in
  DenseNet.forward self x = Ok (pro, FTen fused) /\
  dims3 (length x) (Z.to_nat (DenseNet.num_classes a)) K fused /\
  forall i, i < K ->
    index_last3 fused i
    = Ok (map (map (fun l => (1 / (INR K - 1) * Rsum (delete i l))%R)) pro).
Proof.
  intros Hinit Havg Hind HK Ht Hb K fused.
  destruct (DenseNet_forward_avg a self x x' pro Hinit Havg Hind HK Ht Hb) as [Hf Hp].
  split; [exact Hf|].
  assert (Hd : dims3 (length x) (Z.to_nat (DenseNet.num_classes a)) K fused).
  { pose proof (leave_one_out_dims _ _ _ (range 0 K) pro Hp) as Hd.
    unfold range in Hd at 1. rewrite length_seq in Hd.
    replace (K - 0) with K in Hd by lia. exact Hd. }
  split; [exact Hd|]. intros i Hi.
  rewrite (index_last3_dims _ _ _ _ _ Hd Hi). f_equal.
  unfold fused, leave_one_out. rewrite map_map. apply map_ext. intros m.
  rewrite map_map. apply map_ext. intros l. unfold entry.
  rewrite (nth_indep _ 0%R (leave_one_out_slot K l 0))
    by (rewrite length_map; unfold range; rewrite length_seq; lia).
  rewrite map_nth. unfold range. rewrite seq_nth by lia. reflexivity.
Qed.

Lemma densenet_average_has_a_slot_per_branch_witness :
  Net.avg dense_avg = true /\ Net.ind dense_avg = false /\
  2 <= Net.num_branches dense_avg /\
  exists pro, @DenseNet.forward toy dense_avg two_images
              = Ok (pro, FTen (leave_one_out 3 [0; 1; 2] pro)).
Proof.
  split; [reflexivity|]. split; [reflexivity|]. split; [vm_compute; lia|].
  exists (value [] (@DenseNet.branches toy dense_avg two_images)).
  refine (proj1 (@densenet_average_has_a_slot_per_branch toy toy_contract
                   (dense_args 3 true false) dense_avg two_images two_images _
                   _ eq_refl eq_refl _ _ _)).
  - vm_compute. reflexivity.
  - vm_compute. lia.
  - vm_compute. reflexivity.
  - vm_compute. reflexivity.
Defined.

Lemma toy_average_logits :
  @DenseNet.branches toy dense_avg two_images
  = Ok [[[1; 11; 21]; [2; 12; 22]; [3; 13; 23]];
        [[1; 11; 21]; [2; 12; 22]; [3; 13; 23]]]%R.
Proof. vm_compute. reflexivity. Qed.

(** The claim as stated promises a fused axis of size K-1 whose index 0 is
    never populated.  For three branches with class-0 logits 1, 11 and 21
    the fused axis has three entries, and entry 0 is (11 + 21) / 2. *)
Lemma leave_one_out_axis_counterexample :
  exists pro fused,
    @DenseNet.forward toy dense_avg two_images = Ok (pro, FTen fused) /\
    Net.num_branches dense_avg = 3 /\
    pro !! 0 ≫= (.!! 0) = Some [1; 11; 21]%R /\
    (exists s0 s1 s2, fused !! 0 ≫= (.!! 0) = Some [s0; s1; s2] /\
       s0 = ((11 + 21) / 2)%R /\ s1 = ((1 + 21) / 2)%R /\ s2 = ((1 + 11) / 2)%R) /\
    ~ dims3 2 3 (3 - 1) fused.
Proof.
  destruct (DenseNet_forward_avg (T:=toy) (C:=toy_contract) (dense_args 3 true false)
              dense_avg two_images two_images _
              ltac:(vm_compute; reflexivity) eq_refl eq_refl
              ltac:(vm_compute; lia) eq_refl toy_average_logits)
    as [Hf _].
  eexists _, _. split; [exact Hf|]. split; [reflexivity|].
  split; [reflexivity|]. split.
  - eexists _, _, _. split; [reflexivity|].
    unfold leave_one_out_slot. simpl. repeat split; lra.
  - intros [_ Hd]. apply Forall_inv in Hd. destruct Hd as [_ Hd].
    apply Forall_inv in Hd. simpl in Hd. discriminate.
Qed.

(** C8 (amended).  Constructing a DenseNet in the averaging mode
    ([avg = True], [ind = False]) with [num_branches = 1] succeeds: the
    constructor does not look at the combination.  Every later forward call
    raises; once the trunk and the single head have run, it is the
    [AttributeError] of calling [unsqueeze] on the integer 0 that [x_m]
    still holds, and no division by K-1 is evaluated. *)
Theorem average_with_one_branch_fails_in_forward (a : DenseNet.args) :
  DenseNet.avg a = true -> DenseNet.ind a = false -> DenseNet.num_branches a = 1 ->
  (0 < DenseNet.compression a)%Q -> (DenseNet.compression a <= 1)%Q ->
  DenseNet.block_config a <> [] ->
  exists self,
    DenseNet.init a = Ok self /\
    forall (T : Torch) (x : Ten4),
      raises (DenseNet.forward self x) /\
      forall x' pro,
        DenseNet.trunk self x = Ok x' -> DenseNet.branches self x' = Ok pro ->
        DenseNet.forward self x = Raise (AttributeError "unsqueeze").
Proof.
  intros Havg Hind HK Hc0 Hc1 Hcfg.
  destruct (DenseNet_blocks_num_layers a Hcfg) as [nl Hnl].
  assert (Hcheck : negb (negb (Qle_bool (DenseNet.compression a) 0)
                         && Qle_bool (DenseNet.compression a) 1) = false).
  { apply Qle_bool_iff in Hc1. rewrite Hc1.
    destruct (Qle_bool (DenseNet.compression a) 0) eqn:Hle; [|reflexivity].
    apply Qle_bool_iff in Hle. exfalso. eapply Qlt_not_le; eauto. }
  unfold DenseNet.init. rewrite Hcheck, Hnl.
  match goal with
  | |- exists self, Ok ?s = Ok self /\ _ =>
      exists s; split; [reflexivity|];
      assert (Hi : Net.ind s = false) by exact Hind;
      assert (Ha : Net.avg s = true) by exact Havg;
      assert (Hk : Net.num_branches s = 1) by exact HK;
      revert Hi Ha Hk; generalize s
  end.
  intros self Hi Ha Hk T x. unfold DenseNet.forward. rewrite Hi, Ha, Hk. split.
  - apply bind_raises_cont. intros x' _. apply bind_raises_cont. intros pro _.
    rewrite fuse_avg_single. eexists. reflexivity.
  - intros x' pro Ht Hb. rewrite Ht. simpl. rewrite Hb. reflexivity.
Qed.

Lemma average_with_one_branch_fails_in_forward_witness :
  exists self,
    DenseNet.init (dense_args 1 true false) = Ok self /\
    @DenseNet.forward toy self two_images = Raise (AttributeError "unsqueeze").
Proof.
  assert (H0 : (0 < 1 # 2)%Q) by reflexivity.
  assert (H1 : (1 # 2 <= 1)%Q) by (intros H; discriminate H).
  assert (Hcfg : [6; 6; 6]%Z <> []) by discriminate.
  destruct (average_with_one_branch_fails_in_forward (dense_args 1 true false)
              eq_refl eq_refl eq_refl H0 H1 Hcfg)
    as (self & Hinit & Hfwd).
  exists self. split; [exact Hinit|].
  destruct (Hfwd toy two_images) as [_ Hraise].
  vm_compute in Hinit. injection Hinit as <-.
  apply (Hraise two_images
           [[[1%R]; [2%R]; [3%R]]; [[1%R]; [2%R]; [3%R]]]);
    vm_compute; reflexivity.
Defined.

(** Construction with [avg = True] and a single branch returns a model,
    for both classes. *)
Lemma average_with_one_branch_constructs_counterexample :
  ~ raises (DenseNet.init (dense_args 1 true false)) /\
  ~ raises (MobileNetV2.init (mobile_args 1 true false)).
Proof.
  split; intros [e He]; vm_compute in He; discriminate.
Qed.

(** C9 (amended).  The gate network ([control_v1] and [bn_v1]) is
    constructed if and only if [avg] is false, whatever [ind] is: the
    averaging configuration has no gate parameters, and a model built with
    [ind = True] and [avg = False] has them although its forward pass never
    reads them. *)
Theorem gate_is_constructed_iff_avg_is_false (self : Net.t) :
  (exists a, DenseNet.init a = Ok self) \/ (exists a, MobileNetV2.init a = Ok self) ->
  (is_Some (Net.modules self !! "control_v1") <-> Net.avg self = false) /\
  (is_Some (Net.modules self !! "bn_v1") <-> Net.avg self = false).
Proof.
  intros Hbuilt.
  assert (Hlook : if Net.avg self then
                    Net.modules self !! "control_v1" = None /\
                    Net.modules self !! "bn_v1" = None
                  else
                    is_Some (Net.modules self !! "control_v1") /\
                    is_Some (Net.modules self !! "bn_v1")).
  { destruct Hbuilt as [[a Hinit]|[a Hinit]].
    - destruct (DenseNet_init_fields a self Hinit) as (_ & Havgs & _).
      pose proof (DenseNet_init_gate_lookup a self Hinit) as Hgate.
      rewrite <- Havgs in Hgate. destruct (Net.avg self); [exact Hgate|].
      destruct Hgate as [[nf ->] ->]. split; eexists; reflexivity.
    - destruct (MobileNetV2_init_fields a self Hinit) as (_ & Havgs & _).
      pose proof (MobileNetV2_init_gate_lookup a self Hinit) as Hgate.
      rewrite <- Havgs in Hgate. destruct (Net.avg self); [exact Hgate|].
      destruct Hgate as [[nf ->] ->]. split; eexists; reflexivity. }
  destruct (Net.avg self); destruct Hlook as [H1 H2].
  - rewrite H1, H2. split; split; try discriminate; intros [l Hl]; discriminate.
  - split; split; auto.
Qed.

Lemma gate_is_constructed_iff_avg_is_false_witness :
  is_Some (Net.modules dense_avg !! "control_v1") <-> Net.avg dense_avg = false.
Proof.
  refine (proj1 (gate_is_constructed_iff_avg_is_false dense_avg _)).
  left. exists (dense_args 3 true false). vm_compute. reflexivity.
Defined.

(** A model constructed in independent mode carries the gate layers. *)
Lemma independent_model_has_gate_counterexample :
  DenseNet.init (dense_args 3 false true) = Ok dense_ind /\
  Net.ind dense_ind = true /\
  Net.modules dense_ind !! "control_v1" = Some (Linear 60 3) /\
  Net.modules dense_ind !! "bn_v1" = Some (BatchNorm1d 3).
Proof. repeat split; vm_compute; reflexivity. Qed.

(** C10 (amended).  Constructing a [MutualNet] with at least one branch
    for an architecture name outside the recognised set raises
    [NotImplementedError] carrying that name: no model object is returned,
    no factory is called and no default architecture is used.  The name is
    compared inside the loop over the branches, so with zero branches it is
    never looked at and the constructor returns a model without
    students. *)
Theorem unknown_family_raises_not_implemented {Student : Type}
  {zoo : MutualNet.Zoo Student} (model : string) (num_branches : nat)
  (num_classes : Z) (dropout : Q) :
  ~ In model MutualNet.recognized ->
  (1 <= num_branches ->
   MutualNet.init model num_branches num_classes dropout
   = Raise (NotImplementedError model)) /\
  (num_branches = 0 ->
   MutualNet.init model num_branches num_classes dropout
   = Ok {| MutualNet.num_branches := 0; MutualNet.students := ∅ |}).
Proof.
  intros Hunknown.
  assert (Hs : MutualNet.student model num_classes dropout
               = Raise (NotImplementedError model)).
  { unfold MutualNet.student.
    repeat match goal with
           | |- context [decide (model = ?s)] =>
               destruct (decide (model = s)) as [->|_];
               [exfalso; apply Hunknown; simpl; tauto|]
           end.
    reflexivity. }
  split.
  - intros HK. unfold MutualNet.init, range. destruct num_branches as [|K]; [lia|].
    simpl. rewrite Hs. reflexivity.
  - intros ->. reflexivity.
Qed.

Lemma unknown_family_raises_not_implemented_witness :
  ~ In "resnet32"%string MutualNet.recognized /\
  @MutualNet.init string toy_zoo "resnet32" 4 10 0
  = Raise (NotImplementedError "resnet32").
Proof.
  assert (Hunknown : ~ In "resnet32"%string MutualNet.recognized).
  { simpl. intros H. repeat destruct H as [H|H]; try discriminate H. exact H. }
  split; [exact Hunknown|].
  apply (proj1 (@unknown_family_raises_not_implemented string toy_zoo "resnet32" 4 10 0
                  Hunknown)).
  lia.
Defined.

(** The claim as stated promises a failure for every unknown name; with
    zero branches the unknown name [resnet32] (the default of the
    signature) constructs. *)
Lemma unknown_family_without_branches_counterexample :
  ~ In "resnet32"%string MutualNet.recognized /\
  ~ raises (@MutualNet.init string toy_zoo "resnet32" 0 10 0) /\
  @MutualNet.init string toy_zoo "resnet32" 0 10 0
  = Ok {| MutualNet.num_branches := 0; MutualNet.students := ∅ |}.
Proof.
  split; [|split].
  - simpl. intros H. repeat destruct H as [H|H]; try discriminate H. exact H.
  - intros [e He]. discriminate He.
  - reflexivity.
Qed.

(** C5.  The forward pass of the gradient-scaling tap returns its input
    unchanged; its backward pass returns the upstream gradient multiplied
    by the constant 1/K (and [None] for the branch count), where K is the
    number of branches the tap was applied with: it is stored by the
    forward pass and depends on nothing else.  For K = 4 a unit gradient
    becomes 0.25.  [DenseNet.forward] applies the tap to the trunk output
    with K = [self.num_branches]. *)
Theorem tap_is_identity_forward_and_scales_gradient (input grad_output : Ten4)
  (K : nat) :
  snd (ILR.forward input K) = input /\
  ILR.apply input K = input /\
  ILR.backward (fst (ILR.forward input K)) grad_output
  = (map (map (map (map (fun g => (g * (1 / INR K))%R)))) grad_output, None) /\
  (forall input', fst (ILR.forward input' K) = fst (ILR.forward input K)) /\
  ILR.backward (fst (ILR.forward input 4)) [[[[1%R]]]] = ([[[[0.25%R]]]], None) /\
  (forall (T : Torch) (avg ind : bool) (mods : gmap string Layer) (x : Ten4),
     let self := {| Net.num_branches := K; Net.avg := avg; Net.ind := ind;
                    Net.bpscale := true; Net.layer_ILR := true;
                    Net.modules := mods |} in
     DenseNet.trunk self x
     = (x' ← call4 self "features" x; Ok (snd (ILR.forward x' K)))).
Proof.
  split; [reflexivity|]. split; [reflexivity|]. split.
  - unfold ILR.backward, ILR.forward. simpl. f_equal.
    apply map_ext. intros t3. apply map_ext. intros m. apply map_ext. intros v.
    apply map_ext. intros g. lra.
  - split; [reflexivity|]. split; [|reflexivity].
    unfold ILR.backward, ILR.forward. simpl. repeat f_equal. lra.
Qed.

(** C4.  A MobileNetV2 constructed with a number of branches other than
    one cannot run its forward pass: the constructor never assigns
    [self.avgpool], which the loop over the branches i >= 1 reads (branch 0
    pools with [F.adaptive_avg_pool2d]).  With two or more branches the
    call raises [AttributeError] for [avgpool] as soon as the trunk, branch
    0 and [layer4_1] have run. *)
Theorem mobilenetv2_forward_needs_a_single_branch {T : Torch}
  (a : MobileNetV2.args) (self : Net.t) (x : Ten4) :
  MobileNetV2.init a = Ok self -> MobileNetV2.num_branches a <> 1 ->
  Net.modules self !! "avgpool" = None /\
  raises (MobileNetV2.forward self x) /\
  (2 <= MobileNetV2.num_branches a ->
   forall x' y0 t,
     call4 self "features" x = Ok x' ->
     MobileNetV2.head0 self x' = Ok y0 ->
     call4 self "layer4_1" x' = Ok t ->
     MobileNetV2.forward self x = Raise (AttributeError "avgpool")).
Proof.
  intros Hinit HK. split; [eapply MobileNetV2_init_no_avgpool; eauto|].
  split; [eapply MobileNetV2_forward_raises; eauto|].
  intros HK2 x' y0 t Hf Hy0 Hl. eapply MobileNetV2_forward_avgpool; eauto.
Qed.

Lemma mobilenetv2_forward_needs_a_single_branch_witness :
  MobileNetV2.num_branches (mobile_args 2 false false) <> 1 /\
  @MobileNetV2.forward toy (built (MobileNetV2.init (mobile_args 2 false false)))
    two_images = Raise (AttributeError "avgpool").
Proof.
  assert (HK : MobileNetV2.num_branches (mobile_args 2 false false) <> 1)
    by discriminate.
  split; [exact HK|].
  refine (proj2 (proj2 (@mobilenetv2_forward_needs_a_single_branch toy
                          (mobile_args 2 false false)
                          (built (MobileNetV2.init (mobile_args 2 false false)))
                          two_images _ HK))
            _ two_images [[1; 2; 3]; [1; 2; 3]]%R two_images _ _ _).
  - vm_compute. reflexivity.
  - vm_compute. lia.
  - vm_compute. reflexivity.
  - vm_compute. reflexivity.
  - vm_compute. reflexivity.
Defined.

(** With a single branch the forward pass of MobileNetV2 does return. *)
Lemma mobilenetv2_single_branch_forward_returns :
  exists w,
    @MobileNetV2.forward toy mobile_gated two_images
    = Ok ([[[1]; [2]; [3]]; [[1]; [2]; [3]]]%R,
          FMat (weighted_sum w [[[1]; [2]; [3]]; [[1]; [2]; [3]]]%R)) /\
    Forall distribution w.
Proof.
  assert (Hinit : MobileNetV2.init (mobile_args 1 false false) = Ok mobile_gated)
    by (vm_compute; reflexivity).
  exists (value [] (@gate toy mobile_gated two_images)). split.
  - apply (MobileNetV2_forward_gated (T:=toy) (C:=toy_contract)
             (mobile_args 1 false false) mobile_gated two_images two_images);
      vm_compute; reflexivity.
  - apply (gate_distribution (T:=toy) (C:=toy_contract) mobile_gated two_images _ 1);
      [lia | vm_compute; reflexivity | vm_compute; reflexivity].
Qed.

(** C1 (the defect).  The default MobileNetV2 has three branches; its
    forward pass raises for every input and every behaviour of the library,
    and with a library whose layers all return it is the [AttributeError]
    for [avgpool]: no per-branch logits tensor is returned. *)
Theorem mobilenetv2_default_forward_raises :
  exists self,
    MobileNetV2.init MobileNetV2.defaults = Ok self /\
    Net.num_branches self = 3 /\
    (forall (T : Torch) (x : Ten4), raises (MobileNetV2.forward self x)) /\
    @MobileNetV2.forward toy self two_images = Raise (AttributeError "avgpool").
Proof.
  exists (built (MobileNetV2.init MobileNetV2.defaults)).
  assert (Hinit : MobileNetV2.init MobileNetV2.defaults
                  = Ok (built (MobileNetV2.init MobileNetV2.defaults)))
    by (vm_compute; reflexivity).
  split; [exact Hinit|]. split; [reflexivity|]. split.
  - intros T x. eapply MobileNetV2_forward_raises; [exact Hinit | discriminate].
  - vm_compute. reflexivity.
Qed.

(** X24.  For DenseNet the per-branch logits have the promised layout: for every
    K >= 1, if the heads return, [forward] in independent mode returns a
    tensor of shape [batch, num_classes, K] whose slice [i] along the last
    axis is the output of head [i]. *)
Lemma densenet_forward_stacks_the_heads {T : Torch} {C : TorchContract T}
  (a : DenseNet.args) (self : Net.t) (x x' : Ten4) :
  DenseNet.init a = Ok self -> 1 <= DenseNet.num_branches a ->
  DenseNet.ind a = true ->
  DenseNet.trunk self x = Ok x' ->
  (forall i, i < DenseNet.num_branches a -> exists y, DenseNet.head self i x' = Ok y) ->
  exists pro,
    DenseNet.forward self x = Ok (pro, FNone) /\
    dims3 (length x) (Z.to_nat (DenseNet.num_classes a)) (DenseNet.num_branches a) pro /\
    forall i, i < DenseNet.num_branches a ->
      DenseNet.head self i x' = index_last3 pro i.
Proof.
  intros Hinit HK Hind Ht Hheads.
  destruct (DenseNet_init_fields a self Hinit) as (_ & _ & Hinds & _).
  destruct (DenseNet_branches_layout a self x' Hinit HK Hheads)
    as (pro & Hb & Hd & Hslices).
  exists pro. rewrite (DenseNet_trunk_batch self x x' Ht) in Hd.
  split; [|split; assumption].
  unfold DenseNet.forward. rewrite Ht. simpl. rewrite Hb. simpl.
  rewrite Hinds, Hind. reflexivity.
Qed.

(** Without any branch the loop body, and with it the comparison of the
    architecture name, never runs. *)
Lemma mutualnet_without_branches_constructs {Student : Type}
  {zoo : MutualNet.Zoo Student} (model : string) (num_classes : Z) (dropout : Q) :
  MutualNet.init model 0 num_classes dropout
  = Ok {| MutualNet.num_branches := 0; MutualNet.students := ∅ |}.
Proof. reflexivity. Qed.

(** A recognised name is dispatched to its own factory. *)
Lemma mutualnet_recognised_family {Student : Type} {zoo : MutualNet.Zoo Student}
  (num_classes : Z) (dropout : Q) :
  MutualNet.student "resnet18" num_classes dropout = MutualNet.resnet18 num_classes /\
  MutualNet.student "mobilenet_v2" num_classes dropout
  = MutualNet.mobilenet_v2 num_classes /\
  MutualNet.student "vgg16" num_classes dropout = MutualNet.vgg16 num_classes dropout /\
  MutualNet.student "densenetd40k12" num_classes dropout
  = MutualNet.densenetd40k12 num_classes /\
  MutualNet.student "densenet121" num_classes dropout
  = MutualNet.densenet121 num_classes /\
  MutualNet.student "shufflenet_v2_x0_5" num_classes dropout
  = MutualNet.shufflenet_v2_x0_5 num_classes.
Proof. repeat split. Qed.

(** * Further properties of the code *)

(** ** [_make_divisible] *)

Lemma py_int_floor (q : Q) : (0 <= q)%Q -> py_int q = Qfloor q.
Proof.
  intros Hq. unfold py_int. destruct q as [n d]. simpl.
  apply Z.quot_div_nonneg; [|lia].
  unfold Qle in Hq. simpl in Hq. lia.
Qed.

Lemma make_divisible_returns (v : Q) (divisor : Z) (min_value : option Z) :
  divisor <> 0%Z ->
  exists q,
    py_floordiv (py_int (v + inject_Z divisor / 2)) divisor = Ok q /\
    MobileNetV2._make_divisible v divisor min_value
    = Ok (let new_v := Z.max (default divisor min_value) (q * divisor) in
          if negb (Qle_bool ((9 # 10) * v) (inject_Z new_v))
          then new_v + divisor else new_v)%Z.
Proof.
  intros Hd. unfold MobileNetV2._make_divisible, py_floordiv.
  destruct (decide (divisor = 0%Z)); [contradiction|]. eexists. split; [reflexivity|].
  simpl. destruct (negb _); reflexivity.
Qed.

Lemma make_divisible_zero (v : Q) (min_value : option Z) :
  MobileNetV2._make_divisible v 0 min_value = Raise ZeroDivisionError.
Proof. reflexivity. Qed.

(** The model in exact arithmetic is the instance of the general one. *)
Lemma make_divisible_exact (v : Q) (divisor : Z) (min_value : option Z) :
  MobileNetV2._make_divisible v divisor min_value
  = @PyFloat._make_divisible Q PyFloat.exact v divisor min_value.
Proof.
  unfold MobileNetV2._make_divisible, PyFloat._make_divisible. simpl.
  destruct (py_floordiv _ divisor); reflexivity.
Qed.

(** X1.  Whatever the arithmetic on Python's numbers does (rounding, or an
    exception for a NaN, an infinity or a value out of range): whenever
    [_make_divisible] returns for a positive divisor and no explicit
    minimum, the result is a multiple of the divisor and at least the
    divisor. *)
Theorem make_divisible_is_a_multiple {F : Type} {N : PyFloat.ops F} (v : F)
  (divisor r : Z) :
  (0 < divisor)%Z ->
  PyFloat._make_divisible v divisor None = Ok r ->
  (divisor | r)%Z /\ (divisor <= r)%Z.
Proof.
  intros Hd Hrun. unfold PyFloat._make_divisible in Hrun.
  inv_bind Hrun. inv_bind Hrun. inv_bind Hrun. inv_bind Hrun. inv_bind Hrun.
  simpl default in Hrun.
  assert (Hm : (divisor | Z.max divisor (v3 * divisor))%Z).
  { destruct (Z.max_spec divisor (v3 * divisor)) as [[_ ->]|[_ ->]].
    - apply Z.divide_factor_r.
    - apply Z.divide_refl. }
  destruct (PyFloat.int_lt _ _); injection Hrun as <-; split.
  - apply Z.divide_add_r; [exact Hm | apply Z.divide_refl].
  - lia.
  - exact Hm.
  - lia.
Qed.

Lemma make_divisible_is_a_multiple_witness :
  MobileNetV2._make_divisible 18 8 None = Ok 24%Z /\ (8 | 24)%Z /\ (8 <= 24)%Z.
Proof.
  assert (Hrun : @PyFloat._make_divisible Q PyFloat.exact 18%Q 8 None = Ok 24%Z)
    by (vm_compute; reflexivity).
  split; [rewrite make_divisible_exact; exact Hrun|].
  apply (@make_divisible_is_a_multiple Q PyFloat.exact 18%Q 8 24); [lia | exact Hrun].
Defined.

(** ** [InvertedResidual.__init__] and [MobileNetV2.__init__] *)

Lemma InvertedResidual_Ok_iff (inp oup stride t : Z) :
  (exists l, MobileNetV2._InvertedResidual inp oup stride t = Ok l)
  <-> stride = 1%Z \/ stride = 2%Z.
Proof.
  unfold MobileNetV2._InvertedResidual. split.
  - intros [l Hl]. destruct (decide (stride = 1%Z)) as [|H1]; [auto|].
    destruct (decide (stride = 2%Z)) as [|H2]; [auto|].
    rewrite !bool_decide_eq_false_2 in Hl by assumption. discriminate.
  - intros [-> | ->]; eexists; reflexivity.
Qed.

Lemma stage_blocks_Ok_iff (t s oc : Z) (m : nat) (st : list Layer * Z) :
  (exists r,
     for_each (range 0 m)
       (fun i '(fs, ic) =>
          let stride := if decide (i = 0) then s else 1%Z in
          b ← MobileNetV2._InvertedResidual ic oc stride t;
          Ok (fs ++ [b], oc)) st = Ok r)
  <-> (m = 0 \/ s = 1%Z \/ s = 2%Z).
Proof.
  split.
  - intros [r Hr]. destruct m as [|m]; [auto|]. right.
    unfold range in Hr. simpl in Hr. destruct st as [fs ic]. inv_bind Hr.
    inv_bind E. apply (InvertedResidual_Ok_iff ic oc s t). eauto.
  - intros Hok.
    assert (Hall : forall l st0,
      (forall i, In i l -> i = 0 -> s = 1%Z \/ s = 2%Z) ->
      exists r,
        for_each l
          (fun i '(fs, ic) =>
             let stride := if decide (i = 0) then s else 1%Z in
             b ← MobileNetV2._InvertedResidual ic oc stride t;
             Ok (fs ++ [b], oc)) st0 = Ok r).
    { induction l as [|i l IH]; intros [fs ic] Hs; simpl; [eauto|].
      assert (Hb : exists b, MobileNetV2._InvertedResidual ic oc
                               (if decide (i = 0) then s else 1%Z) t = Ok b).
      { apply InvertedResidual_Ok_iff. destruct (decide (i = 0)) as [Hi|_]; [|auto].
        apply (Hs i); [left; reflexivity | exact Hi]. }
      destruct Hb as [b ->]. simpl. apply IH. intros j Hj. apply Hs. right; exact Hj. }
    apply Hall. intros i Hi Hi0. subst i. apply in_range in Hi.
    destruct Hok as [-> | Hok]; [lia | exact Hok].
Qed.

Lemma stage_Ok_iff (a : MobileNetV2.args) (st : MobileNetV2.stage_state)
  (row : list Z) :
  MobileNetV2.round_nearest a <> 0%Z ->
  (exists st', MobileNetV2.stage a st row = Ok st') <-> usable_row row.
Proof.
  intros Hrn. unfold MobileNetV2.stage, usable_row. split.
  - intros [st' Hst].
    destruct row as [|t [|c [|n [|s [|? ?]]]]]; try discriminate.
    exists t, c, n, s. split; [reflexivity|]. intros Hn.
    inv_bind Hst. inv_bind Hst.
    assert (Hloop : Z.to_nat n = 0 \/ s = 1%Z \/ s = 2%Z)
      by (eapply stage_blocks_Ok_iff; eauto).
    destruct Hloop as [H0|H]; [lia | exact H].
  - intros (t & c & n & s & -> & Hs).
    destruct (make_divisible_returns (inject_Z c * MobileNetV2.width_mult a)
                (MobileNetV2.round_nearest a) None Hrn) as (q & _ & ->).
    simpl.
    match goal with
    | |- context [for_each ?l ?body ?init] =>
        destruct (proj2 (stage_blocks_Ok_iff t s
                    (let new_v := Z.max (MobileNetV2.round_nearest a)
                                    (q * MobileNetV2.round_nearest a) in
                     if negb (Qle_bool ((9 # 10) * (inject_Z c * MobileNetV2.width_mult a))
                                (inject_Z new_v))
                     then new_v + MobileNetV2.round_nearest a else new_v)%Z
                    (Z.to_nat n) init)) as [[fs ic] Hr]
    end.
    + destruct (decide (0 < n)%Z) as [Hn|Hn]; [right; auto | left; lia].
    + simpl in Hr. rewrite Hr. simpl. eauto.
Qed.

Lemma stages_Ok_iff (a : MobileNetV2.args) (rows : list (list Z))
  (st : MobileNetV2.stage_state) :
  MobileNetV2.round_nearest a <> 0%Z ->
  (exists st', MobileNetV2.stages a rows st = Ok st') <-> Forall usable_row rows.
Proof.
  intros Hrn. revert st. induction rows as [|row rows IH]; intros st; simpl.
  - split; [constructor | eauto].
  - split.
    + intros [st' Hst]. inv_bind Hst. constructor.
      * apply (stage_Ok_iff a st row Hrn). eauto.
      * apply (IH v). eauto.
    + intros Hall. apply Forall_cons_1 in Hall. destruct Hall as [Hrow Hrows].
      destruct (proj2 (stage_Ok_iff a st row Hrn) Hrow) as [st1 ->]. simpl.
      apply IH. exact Hrows.
Qed.

Lemma stage_output_channel (a : MobileNetV2.args) (st st' : MobileNetV2.stage_state)
  (row : list Z) :
  MobileNetV2.stage a st row = Ok st' -> is_Some (MobileNetV2.output_channel st').
Proof.
  unfold MobileNetV2.stage. intros Hst.
  destruct row as [|t [|c [|n [|s [|? ?]]]]]; try discriminate.
  inv_bind Hst. inv_bind Hst. destruct v0 as [fs ic]. injection Hst as <-.
  simpl. eauto.
Qed.

Lemma stages_output_channel (a : MobileNetV2.args) (rows : list (list Z))
  (st st' : MobileNetV2.stage_state) :
  MobileNetV2.stages a rows st = Ok st' ->
  rows <> [] \/ is_Some (MobileNetV2.output_channel st) ->
  is_Some (MobileNetV2.output_channel st').
Proof.
  revert st. induction rows as [|row rows IH]; intros st Hst Hsome; simpl in Hst.
  - injection Hst as <-. destruct Hsome as [H|H]; [congruence | exact H].
  - inv_bind Hst. apply (IH v Hst). right. eapply stage_output_channel; eauto.
Qed.

(** X4.  What a returning constructor call shows about its arguments:
    [round_nearest] is not zero, the setting is not empty, and every row has
    four entries with a stride of 1 or 2 wherever it builds a block.  Each
    failing condition stops the constructor with an exception. *)
Theorem mobilenetv2_init_returns_only_if (a : MobileNetV2.args) (self : Net.t) :
  MobileNetV2.init a = Ok self ->
  MobileNetV2.round_nearest a <> 0%Z /\
  setting_of a <> [] /\
  Forall usable_row (setting_of a).
Proof.
  unfold MobileNetV2.init. fold (setting_of a). intros Hinit.
  destruct (bool_decide (length (setting_of a) = 0) || _) eqn:Hchk; [discriminate|].
  apply orb_false_elim in Hchk. destruct Hchk as [Hlen _].
  apply bool_decide_eq_false in Hlen.
  inv_bind Hinit. inv_bind Hinit. inv_bind Hinit.
  assert (Hrn : MobileNetV2.round_nearest a <> 0%Z).
  { intros H0. rewrite H0 in E. discriminate. }
  split; [exact Hrn|]. split.
  - intros Hnil. rewrite Hnil in Hlen. apply Hlen. reflexivity.
  - eapply (stages_Ok_iff a); [exact Hrn | eauto].
Qed.

Lemma mobilenetv2_init_returns_only_if_witness :
  MobileNetV2.round_nearest (mobile_args 1 false false) <> 0%Z /\
  setting_of (mobile_args 1 false false) <> [] /\
  Forall usable_row (setting_of (mobile_args 1 false false)).
Proof.
  apply (mobilenetv2_init_returns_only_if (mobile_args 1 false false) mobile_gated).
  vm_compute. reflexivity.
Defined.

Lemma MobileNetV2_heads_registered (K : nat) (ic lc nc : Z) (base : gmap string Layer)
  (i : nat) :
  (forall j, base !! ("layer4_" +:+ str j) = None) ->
  (forall j, base !! ("classifier4_" +:+ str j) = None) ->
  let m := setattrs
             (per_branch K (fun i =>
                [("layer4_" +:+ str i, MobileNetV2.ConvBNReLU ic lc 1 1 1);
                 ("classifier4_" +:+ str i, classifier (2 # 10) lc nc)])) base in
  (if decide (i < K)
   then m !! ("layer4_" +:+ str i) = Some (MobileNetV2.ConvBNReLU ic lc 1 1 1) /\
        m !! ("classifier4_" +:+ str i) = Some (classifier (2 # 10) lc nc)
   else m !! ("layer4_" +:+ str i) = None /\
        m !! ("classifier4_" +:+ str i) = None).
Proof.
  intros Hb1 Hb2 m. unfold m. destruct (decide (i < K)) as [Hi|Hi]; split.
  - apply setattrs_lookup_in.
    + apply in_per_branch. exists i. split; [exact Hi | left; reflexivity].
    + intros v' Hv'. apply in_per_branch in Hv'.
      destruct Hv' as (j & _ & [Heq|[Heq|[]]]); inversion Heq; reflexivity.
  - apply setattrs_lookup_in.
    + apply in_per_branch. exists i. split; [exact Hi | right; left; reflexivity].
    + intros v' Hv'. apply in_per_branch in Hv'.
      destruct Hv' as (j & _ & [Heq|[Heq|[]]]); inversion Heq; reflexivity.
  - rewrite setattrs_lookup_notin; [apply Hb1|].
    intros v Hv. apply in_per_branch in Hv.
    destruct Hv as (j & Hj & [Heq|[Heq|[]]]); inversion Heq as [[Hn Hl]].
    apply str_inj in Hn. lia.
  - rewrite setattrs_lookup_notin; [apply Hb2|].
    intros v Hv. apply in_per_branch in Hv.
    destruct Hv as (j & Hj & [Heq|[Heq|[]]]); inversion Heq as [[Hn Hl]].
    apply str_inj in Hn. lia.
Qed.

(** X5.  A constructed MobileNetV2 has the layers [layer4_i] and
    [classifier4_i] for exactly the indices [i] below the number of
    branches. *)
Theorem mobilenetv2_registers_one_head_per_branch (a : MobileNetV2.args)
  (self : Net.t) (i : nat) :
  MobileNetV2.init a = Ok self ->
  (is_Some (Net.modules self !! ("layer4_" +:+ str i))
   <-> i < MobileNetV2.num_branches a) /\
  (is_Some (Net.modules self !! ("classifier4_" +:+ str i))
   <-> i < MobileNetV2.num_branches a).
Proof.
  intros Hinit. apply MobileNetV2_init_inv in Hinit.
  destruct Hinit as (lc & ic & oc & fs & _ & ->). simpl.
  pose proof (MobileNetV2_heads_registered (MobileNetV2.num_branches a) ic lc
                (MobileNetV2.num_classes a) (<["features" := Sequential fs]> ∅) i) as Hreg.
  simpl in Hreg.
  assert (Hm : forall name : string,
    (exists j, name = "layer4_" +:+ str j) \/ (exists j, name = "classifier4_" +:+ str j) ->
    forall m : gmap string Layer,
      (if MobileNetV2.avg a then m
       else <["bn_v1" := BatchNorm1d (Z.of_nat (MobileNetV2.num_branches a))]>
              (<["control_v1" := Linear (default 0%Z oc)
                                   (Z.of_nat (MobileNetV2.num_branches a))]> m)) !! name
      = m !! name).
  { intros name Hname m. destruct (MobileNetV2.avg a); [reflexivity|].
    rewrite !lookup_insert_ne; [reflexivity | |];
      destruct Hname as [[j ->]|[j ->]]; discriminate. }
  rewrite !Hm by eauto.
  destruct (decide (i < MobileNetV2.num_branches a)) as [Hi|Hi].
  - destruct Hreg as [-> ->];
      try (intros j; rewrite lookup_insert_ne by discriminate; apply lookup_empty).
    split; split; eauto.
  - destruct Hreg as [-> ->];
      try (intros j; rewrite lookup_insert_ne by discriminate; apply lookup_empty).
    split; split; try (intros [? ?]; discriminate); intros; lia.
Qed.

Lemma mobilenetv2_registers_one_head_per_branch_witness :
  is_Some (Net.modules (built (MobileNetV2.init (mobile_args 2 false false)))
             !! ("layer4_" +:+ str 1)) /\
  ~ is_Some (Net.modules (built (MobileNetV2.init (mobile_args 2 false false)))
               !! ("layer4_" +:+ str 2)).
Proof.
  assert (Hinit : MobileNetV2.init (mobile_args 2 false false)
                  = Ok (built (MobileNetV2.init (mobile_args 2 false false))))
    by (vm_compute; reflexivity).
  split.
  - apply (proj1 (mobilenetv2_registers_one_head_per_branch _ _ 1 Hinit)).
    vm_compute. lia.
  - intros H.
    apply (proj1 (mobilenetv2_registers_one_head_per_branch _ _ 2 Hinit)) in H.
    vm_compute in H. lia.
Defined.

Lemma stages_ext (a b : MobileNetV2.args) (rows : list (list Z))
  (st : MobileNetV2.stage_state) :
  MobileNetV2.width_mult a = MobileNetV2.width_mult b ->
  MobileNetV2.round_nearest a = MobileNetV2.round_nearest b ->
  MobileNetV2.stages a rows st = MobileNetV2.stages b rows st.
Proof.
  intros Hw Hr. revert st. induction rows as [|row rows IH]; intros st; simpl;
    [reflexivity|].
  assert (Hs : MobileNetV2.stage a st row = MobileNetV2.stage b st row)
    by (unfold MobileNetV2.stage; rewrite Hw, Hr; reflexivity).
  rewrite Hs. destruct (MobileNetV2.stage b st row); simpl; [apply IH | reflexivity].
Qed.

Lemma standard_stages :
  exists st,
    MobileNetV2.stages (mobile_args 0 false false) MobileNetV2.default_setting
      {| MobileNetV2.features := [MobileNetV2.ConvBNReLU 3 32 3 1 1];
         MobileNetV2.input_channel := 32;
         MobileNetV2.output_channel := None |} = Ok st /\
    length (MobileNetV2.features st) = 18 /\
    MobileNetV2.input_channel st = 320%Z /\
    MobileNetV2.output_channel st = Some 320%Z.
Proof. eexists. split; [vm_compute; reflexivity | vm_compute; auto]. Qed.

(** X6.  The standard architecture (default setting, width multiplier 1,
    rounding to 8), for any number of branches and classes: the trunk has
    18 layers, every head maps 320 channels to 1280 and classifies from
    1280 features, and the gate reads 320 features. *)
Theorem mobilenetv2_standard_widths (a : MobileNetV2.args) (self : Net.t) :
  MobileNetV2.inverted_residual_setting a = None ->
  MobileNetV2.width_mult a = 1%Q ->
  MobileNetV2.round_nearest a = 8%Z ->
  MobileNetV2.init a = Ok self ->
  (exists fs, Net.modules self !! "features" = Some (Sequential fs) /\ length fs = 18) /\
  (forall i, i < MobileNetV2.num_branches a ->
     Net.modules self !! ("layer4_" +:+ str i)
     = Some (MobileNetV2.ConvBNReLU 320 1280 1 1 1) /\
     Net.modules self !! ("classifier4_" +:+ str i)
     = Some (classifier (2 # 10) 1280 (MobileNetV2.num_classes a))) /\
  (MobileNetV2.avg a = false ->
   Net.modules self !! "control_v1"
   = Some (Linear 320 (Z.of_nat (MobileNetV2.num_branches a)))).
Proof.
  intros Hirs Hwm Hrn Hinit. unfold MobileNetV2.init in Hinit.
  rewrite Hirs in Hinit. simpl default in Hinit.
  change (bool_decide (length MobileNetV2.default_setting = 0)
          || negb (bool_decide (length (default [] (MobileNetV2.default_setting !! 0)) = 4)))
    with false in Hinit.
  cbv iota in Hinit.
  rewrite Hwm, Hrn in Hinit.
  assert (E1 : MobileNetV2._make_divisible (32 * 1) 8 None = Ok 32%Z)
    by (vm_compute; reflexivity).
  assert (E2 : MobileNetV2._make_divisible (1280 * MobileNetV2.Qmax1 1) 8 None = Ok 1280%Z)
    by (vm_compute; reflexivity).
  rewrite E1, E2 in Hinit. cbn [mbind result_bind] in Hinit.
  rewrite (stages_ext a (mobile_args 0 false false)) in Hinit
    by (rewrite ?Hwm, ?Hrn; reflexivity).
  destruct standard_stages as (st & Hst & Hlen & Hic & Hoc).
  rewrite Hst in Hinit. cbn [mbind result_bind] in Hinit. rewrite Hic, Hoc in Hinit.
  set (base := <["features" := Sequential (imap (fun i l => (str i, l))
                                               (MobileNetV2.features st))]> (∅ : gmap string Layer))
    in *.
  assert (Hb1 : forall j, base !! ("layer4_" +:+ str j) = None)
    by (intros j; unfold base; rewrite lookup_insert_ne by discriminate; apply lookup_empty).
  assert (Hb2 : forall j, base !! ("classifier4_" +:+ str j) = None)
    by (intros j; unfold base; rewrite lookup_insert_ne by discriminate; apply lookup_empty).
  pose proof (fun i => MobileNetV2_heads_registered (MobileNetV2.num_branches a) 320 1280
                (MobileNetV2.num_classes a) base i Hb1 Hb2) as Hreg.
  simpl in Hreg.
  assert (Hfeat :
            setattrs
              (per_branch (MobileNetV2.num_branches a) (fun i =>
                 [("layer4_" +:+ str i, MobileNetV2.ConvBNReLU 320 1280 1 1 1);
                  ("classifier4_" +:+ str i,
                   classifier (2 # 10) 1280 (MobileNetV2.num_classes a))])) base
              !! "features"
            = Some (Sequential (imap (fun i l => (str i, l)) (MobileNetV2.features st)))).
  { rewrite MobileNetV2_heads_lookup by (intros j; discriminate).
    unfold base. apply lookup_insert_eq. }
  destruct (MobileNetV2.avg a) eqn:Havg; simpl in Hinit; injection Hinit as <-; simpl.
  - split; [|split].
    + eexists. split; [exact Hfeat|]. rewrite length_imap. exact Hlen.
    + intros i Hi. specialize (Hreg i). destruct (decide _); [exact Hreg | lia].
    + discriminate.
  - split; [|split].
    + eexists. rewrite !lookup_insert_ne by discriminate.
      split; [exact Hfeat|]. rewrite length_imap. exact Hlen.
    + intros i Hi. specialize (Hreg i). rewrite !lookup_insert_ne by discriminate.
      destruct (decide _); [exact Hreg | lia].
    + intros _. rewrite lookup_insert_ne by discriminate. apply lookup_insert_eq.
Qed.

Lemma mobilenetv2_standard_widths_witness :
  Net.modules (built (MobileNetV2.init (mobile_args 2 false false))) !! "control_v1"
  = Some (Linear 320 2).
Proof.
  apply (proj2 (proj2 (mobilenetv2_standard_widths (mobile_args 2 false false)
                         (built (MobileNetV2.init (mobile_args 2 false false)))
                         eq_refl eq_refl eq_refl ltac:(vm_compute; reflexivity)))).
  reflexivity.
Defined.

(** ** [MobileNetV2._forward_impl] in the averaging mode *)

(** X7.  With [avg] set and [ind] unset the forward pass of MobileNetV2 never
    returns: the averaging branch is [pass], so the [return] statement reads
    the local [x_m] that no statement has assigned.  When the trunk and the
    branches return, the exception is that [UnboundLocalError]. *)
Theorem mobilenetv2_average_mode_never_returns {T : Torch}
  (a : MobileNetV2.args) (self : Net.t) (x : Ten4) :
  MobileNetV2.init a = Ok self ->
  MobileNetV2.avg a = true -> MobileNetV2.ind a = false ->
  raises (MobileNetV2.forward self x) /\
  (forall x' pro,
     call4 self "features" x = Ok x' ->
     MobileNetV2.branches self x' = Ok pro ->
     MobileNetV2.forward self x = Raise (UnboundLocalError "x_m")).
Proof.
  intros Hinit Havg Hind.
  destruct (MobileNetV2_init_fields a self Hinit) as (_ & Havgs & Hinds).
  rewrite Havg in Havgs. rewrite Hind in Hinds.
  assert (Hret : forall x' pro,
             call4 self "features" x = Ok x' ->
             MobileNetV2.branches self x' = Ok pro ->
             MobileNetV2.forward self x = Raise (UnboundLocalError "x_m")).
  { intros x' pro Hf Hb. unfold MobileNetV2.forward. rewrite Hf. simpl.
    rewrite Hb. simpl. rewrite Hinds, Havgs. reflexivity. }
  split; [|exact Hret].
  destruct (call4 self "features" x) as [x'|e] eqn:Hf.
  - destruct (MobileNetV2.branches self x') as [pro|e] eqn:Hb.
    + eexists. eapply Hret; eauto.
    + unfold MobileNetV2.forward. rewrite Hf. simpl. rewrite Hb. simpl.
      eexists. reflexivity.
  - unfold MobileNetV2.forward. rewrite Hf. simpl. eexists. reflexivity.
Qed.

Lemma mobilenetv2_average_mode_never_returns_witness :
  @MobileNetV2.forward toy (built (MobileNetV2.init (mobile_args 1 true false)))
    two_images = Raise (UnboundLocalError "x_m").
Proof.
  refine (proj2 (@mobilenetv2_average_mode_never_returns toy
                   (mobile_args 1 true false)
                   (built (MobileNetV2.init (mobile_args 1 true false)))
                   two_images _ eq_refl eq_refl)
            two_images [[[1]; [2]; [3]]; [[1]; [2]; [3]]]%R _ _).
  - vm_compute. reflexivity.
  - vm_compute. reflexivity.
  - vm_compute. reflexivity.
Defined.

Lemma Rsum_single_weight (w l : Vec) :
  length w = 1 -> length l = 1 -> distribution w ->
  Rsum (zip_with Rmult w l) = entry 0 l.
Proof.
  destruct w as [|a [|]]; try discriminate. destruct l as [|v [|]]; try discriminate.
  intros _ _ [_ Hs]. unfold Rsum in *. simpl in *. unfold entry. simpl.
  assert (a = 1%R) by lra. subst a. lra.
Qed.

Lemma weighted_sum_single (B C : nat) (w : Mat) (pro : Ten3) :
  dims2 B 1 w -> dims3 B C 1 pro -> Forall distribution w ->
  weighted_sum w pro = map (map (entry 0)) pro.
Proof.
  intros [Hlw Hw] [Hlp Hp] Hd. unfold weighted_sum.
  revert B w Hlw Hw Hd Hlp. induction pro as [|m pro IH]; intros B w Hlw Hw Hd Hlp.
  - destruct w; reflexivity.
  - destruct w as [|r w]; [simpl in *; congruence|]. simpl.
    apply Forall_cons in Hw as [Hr Hw]. apply Forall_cons in Hd as [Hdr Hd].
    apply Forall_cons in Hp as [Hm Hp]. f_equal.
    + destruct Hm as [_ Hm]. apply map_ext_Forall.
      eapply Forall_impl; [exact Hm|]. intros l Hl. simpl in Hl.
      apply Rsum_single_weight; assumption.
    + apply (IH Hp (length w)); auto. simpl in *. lia.
Qed.

(** X8.  Whenever the forward pass of a MobileNetV2 returns a fused output, the
    model has a single branch and the fused output is that branch's logits:
    the softmax over a single gate logit is 1. *)
Theorem mobilenetv2_fused_output_is_the_branch_logits {T : Torch} {C : TorchContract T}
  (a : MobileNetV2.args) (self : Net.t) (x : Ten4) (pro : Ten3) (x_m : Mat) :
  MobileNetV2.init a = Ok self ->
  MobileNetV2.forward self x = Ok (pro, FMat x_m) ->
  MobileNetV2.num_branches a = 1 /\ pro = unsqueeze_last x_m.
Proof.
  intros Hinit Hrun.
  destruct (MobileNetV2_init_fields a self Hinit) as (HKs & Havgs & _).
  unfold MobileNetV2.forward in Hrun. inv_bind Hrun. inv_bind Hrun.
  destruct (Net.ind self); [discriminate|].
  destruct (Net.avg self) eqn:Havg; [discriminate|].
  inv_bind Hrun. inv_bind Hrun. injection Hrun as Epro Exm. subst v0 v2.
  destruct (MobileNetV2_branches_dims a self v pro Hinit E0) as (HK & Hp & y0 & Hy0 & Hidx).
  split; [exact HK|].
  pose proof (MobileNetV2_init_gate_lookup a self Hinit) as Hgate.
  rewrite <- Havgs in Hgate. destruct Hgate as [[nf Hlin] Hbn].
  rewrite HK in Hlin, Hbn.
  pose proof (gate_dims self v v1 nf 1 Hlin Hbn E1) as Hw.
  pose proof (gate_distribution self v v1 1 (le_n 1) Hbn E1) as Hd.
  rewrite HKs, HK in E2.
  rewrite (fuse_gated_weighted_sum _ _ 1 v1 pro (le_n 1) Hw Hp) in E2.
  injection E2 as <-.
  rewrite (weighted_sum_single _ _ v1 pro Hw Hp Hd).
  unfold MobileNetV2.branches in E0. inv_bind E0. rewrite HKs, HK in E0.
  simpl in E0. injection E0 as <-. rewrite unsqueeze_entry. reflexivity.
Qed.

Lemma mobilenetv2_fused_output_is_the_branch_logits_witness :
  exists x_m,
    @MobileNetV2.forward toy mobile_gated two_images
    = Ok ([[[1]; [2]; [3]]; [[1]; [2]; [3]]]%R, FMat x_m) /\
    [[[1]; [2]; [3]]; [[1]; [2]; [3]]]%R = unsqueeze_last x_m.
Proof.
  eexists. split; [vm_compute; reflexivity|].
  refine (proj2 (mobilenetv2_fused_output_is_the_branch_logits (T:=toy) (C:=toy_contract)
                   (mobile_args 1 false false) mobile_gated two_images _ _ _ _)).
  - vm_compute. reflexivity.
  - vm_compute. reflexivity.
Defined.

(** ** [DenseNet.__init__] *)

(** The iterations of the loop over the block configuration that are not
    the last one: they register nothing on the model, append a dense block
    and a transition each, and leave the trunk ending in a transition whose
    output width is the running [num_features]. *)
Lemma DenseNet_blocks_prefix (a : DenseNet.args) (len : nat) (l : list Z)
  (st0 : DenseNet.blocks_state) :
  length l < len ->
  let st := foldl (fun st '(i, nl) => DenseNet.block_step a len st i nl) st0
              (imap pair l) in
  DenseNet.mods st = DenseNet.mods st0 /\
  length (DenseNet.features st) = length (DenseNet.features st0) + 2 * length l /\
  (l = [] /\ st = st0 \/
   exists pre name nin,
     DenseNet.features st
     = pre ++ [(name, DenseNet._Transition nin (DenseNet.num_features st))]).
Proof.
  induction l as [|nl l IH] using rev_ind; intros Hlen st.
  - subst st. simpl. split; [reflexivity|]. split; [lia|]. left. auto.
  - rewrite length_app in Hlen. simpl in Hlen.
    destruct IH as (Hm & Hf & _); [lia|].
    subst st. rewrite imap_app. simpl. rewrite foldl_snoc.
    set (st1 := foldl _ st0 (imap pair l)) in *.
    unfold DenseNet.block_step. rewrite Nat.add_0_r.
    destruct (decide (length l <> len - 1)) as [_|Heq]; [|lia]. simpl.
    split; [exact Hm|]. split.
    + rewrite !length_app. simpl. lia.
    + right.
      exists (DenseNet.features st1 ++
              [("denseblock" +:+ str (length l + 1),
                DenseNet._DenseBlock nl (DenseNet.num_features st1) (DenseNet.bn_size a)
                  (DenseNet.growth_rate a) (DenseNet.drop_rate a) (DenseNet.efficient a))]).
      eexists. eexists. rewrite <- app_assoc. reflexivity.
Qed.

(** The last iteration registers the heads' dense blocks. *)
Lemma DenseNet_blocks_last (a : DenseNet.args) (l : list Z) (nl : Z) :
  DenseNet.block_config a = l ++ [nl] ->
  let pre := foldl (fun st '(i, nl) =>
                      DenseNet.block_step a (length (DenseNet.block_config a)) st i nl)
               {| DenseNet.features := DenseNet.first_convolution a;
                  DenseNet.mods := ∅;
                  DenseNet.num_features := DenseNet.num_init_features a;
                  DenseNet.num_layers := None |}
               (imap pair l) in
  DenseNet.blocks a
  = {| DenseNet.features := DenseNet.features pre;
       DenseNet.mods :=
         setattrs
           (per_branch (DenseNet.num_branches a) (fun i =>
              [("layer3_" +:+ str i,
                DenseNet._DenseBlock nl (DenseNet.num_features pre) (DenseNet.bn_size a)
                  (DenseNet.growth_rate a) (DenseNet.drop_rate a) (DenseNet.efficient a))]))
           ∅;
       DenseNet.num_features := DenseNet.num_features pre;
       DenseNet.num_layers := Some nl |}.
Proof.
  intros Hcfg pre. unfold DenseNet.blocks.
  assert (Hlen : length (DenseNet.block_config a) = length l + 1)
    by (rewrite Hcfg, length_app; reflexivity).
  destruct (DenseNet_blocks_prefix a (length (DenseNet.block_config a)) l
              {| DenseNet.features := DenseNet.first_convolution a;
                 DenseNet.mods := ∅;
                 DenseNet.num_features := DenseNet.num_init_features a;
                 DenseNet.num_layers := None |}) as (Hm & _); [lia|].
  fold pre in Hm. simpl in Hm.
  replace (imap pair (DenseNet.block_config a)) with (imap pair (l ++ [nl]))
    by (rewrite Hcfg; reflexivity).
  rewrite imap_app. simpl. rewrite foldl_snoc. fold pre.
  unfold DenseNet.block_step. rewrite Nat.add_0_r.
  destruct (decide (length l <> length (DenseNet.block_config a) - 1)) as [Hne|_]; [lia|].
  rewrite Hm. reflexivity.
Qed.

Lemma nonempty_snoc {A : Type} (l : list A) :
  l <> [] -> exists l' x, l = l' ++ [x].
Proof.
  destruct l as [|x l] using rev_ind; [congruence|]. eauto.
Qed.

Lemma compression_check (c : Q) :
  negb (negb (Qle_bool c 0) && Qle_bool c 1) = false <-> (0 < c /\ c <= 1)%Q.
Proof.
  rewrite negb_false_iff, andb_true_iff, negb_true_iff, Qle_bool_iff.
  split; intros [H0 H1]; (split; [|exact H1]).
  - apply Qnot_le_lt. intros Hle. apply Qle_bool_iff in Hle. congruence.
  - destruct (Qle_bool c 0) eqn:E; [|reflexivity].
    apply Qle_bool_iff in E. exfalso. eapply Qlt_not_le; eauto.
Qed.


(** The sub-modules a successful [DenseNet.__init__] has registered, by
    name. *)
Lemma DenseNet_init_modules (a : DenseNet.args) (self : Net.t) :
  DenseNet.init a = Ok self ->
  exists (nf nl : Z) (trunk : list (string * Layer)),
    let K := DenseNet.num_branches a in
    nf = DenseNet.num_features (DenseNet.blocks a) /\
    last (DenseNet.block_config a) = Some nl /\
    (length (DenseNet.block_config a) = 1 /\ nf = DenseNet.num_init_features a \/
     exists pre name nin, trunk = pre ++ [(name, DenseNet._Transition nin nf)]) /\
    Net.modules self !! "features" = Some (Sequential trunk) /\
    Net.modules self !! "control_v1"
    = (if DenseNet.avg a then None else Some (Linear nf (Z.of_nat K))) /\
    forall i,
      Net.modules self !! ("layer3_" +:+ str i)
      = (if decide (i < K)
         then Some (DenseNet._DenseBlock nl nf (DenseNet.bn_size a) (DenseNet.growth_rate a)
                      (DenseNet.drop_rate a) (DenseNet.efficient a))
         else None) /\
      Net.modules self !! ("norm_final_" +:+ str i)
      = (if decide (i < K)
         then Some (BatchNorm2d (nf + nl * DenseNet.growth_rate a)) else None) /\
      Net.modules self !! ("relu_final_" +:+ str i)
      = (if decide (i < K) then Some ReLU else None) /\
      Net.modules self !! ("classifier3_" +:+ str i)
      = (if decide (i < K)
         then Some (Linear (nf + nl * DenseNet.growth_rate a) (DenseNet.num_classes a))
         else None).
Proof.
  intros Hinit.
  assert (Hne : DenseNet.block_config a <> []).
  { intros Hnil. unfold DenseNet.init in Hinit. destruct (negb _); [discriminate|].
    unfold DenseNet.blocks in Hinit. rewrite Hnil in Hinit. discriminate. }
  destruct (nonempty_snoc _ Hne) as (l & nl0 & Hcfg).
  pose proof (DenseNet_blocks_last a l nl0 Hcfg) as Hblocks. simpl in Hblocks.
  destruct (DenseNet_blocks_prefix a (length (DenseNet.block_config a)) l
              {| DenseNet.features := DenseNet.first_convolution a;
                 DenseNet.mods := ∅;
                 DenseNet.num_features := DenseNet.num_init_features a;
                 DenseNet.num_layers := None |}) as (_ & _ & Hshape).
  { rewrite Hcfg, length_app. simpl. lia. }
  set (pre := foldl _ _ (imap pair l)) in *.
  apply DenseNet_init_inv in Hinit. destruct Hinit as (nl & Hnl & ->).
  rewrite Hblocks in Hnl. simpl in Hnl. injection Hnl as <-.
  rewrite Hblocks. cbn [DenseNet.features DenseNet.mods DenseNet.num_features].
  set (nf := DenseNet.num_features pre).
  set (K := DenseNet.num_branches a).
  exists nf, nl0, (DenseNet.features pre).
  cbn zeta. split; [reflexivity|]. split; [rewrite Hcfg; apply last_snoc|]. split.
  { destruct Hshape as [[-> Hst]|Hshape].
    - left. rewrite Hcfg. split; [reflexivity|]. unfold nf. rewrite Hst. reflexivity.
    - right. exact Hshape. }
  cbn [Net.modules].
  set (heads := setattrs (per_branch K (fun i =>
                  [("layer3_" +:+ str i,
                    DenseNet._DenseBlock nl0 nf (DenseNet.bn_size a) (DenseNet.growth_rate a)
                      (DenseNet.drop_rate a) (DenseNet.efficient a))])) ∅).
  set (m0 := <["features" := Sequential (DenseNet.features pre)]> heads).
  set (m1 := if bool_decide (DenseNet.avg a = false)
             then <["bn_v1" := BatchNorm1d (Z.of_nat K)]>
                    (<["control_v1" := Linear nf (Z.of_nat K)]> m0)
             else m0).
  set (norms := fun i : nat =>
                  [("norm_final_" +:+ str i, BatchNorm2d (nf + nl0 * DenseNet.growth_rate a));
                   ("relu_final_" +:+ str i, ReLU)]).
  set (clss := fun i : nat =>
                 [("classifier3_" +:+ str i,
                   Linear (nf + nl0 * DenseNet.growth_rate a) (DenseNet.num_classes a))]).
  assert (Hcls_skip : forall k, (forall j, k <> "classifier3_" +:+ str j) ->
            forall m : gmap string Layer, setattrs (per_branch K clss) m !! k = m !! k).
  { intros k Hk m. apply setattrs_lookup_notin. intros v Hv. apply in_per_branch in Hv.
    destruct Hv as (j & _ & [Heq|[]]). inversion Heq. eapply Hk; eauto. }
  assert (Hnorm_skip : forall k, (forall j, k <> "norm_final_" +:+ str j) ->
            (forall j, k <> "relu_final_" +:+ str j) ->
            forall m : gmap string Layer, setattrs (per_branch K norms) m !! k = m !! k).
  { intros k Hk1 Hk2 m. apply setattrs_lookup_notin. intros v Hv. apply in_per_branch in Hv.
    destruct Hv as (j & _ & [Heq|[Heq|[]]]); inversion Heq; [eapply Hk1 | eapply Hk2]; eauto. }
  assert (Hheads_skip : forall k, (forall j, k <> "layer3_" +:+ str j) -> heads !! k = None).
  { intros k Hk. unfold heads. rewrite setattrs_lookup_notin; [apply lookup_empty|].
    intros v Hv. apply in_per_branch in Hv.
    destruct Hv as (j & _ & [Heq|[]]). inversion Heq. eapply Hk; eauto. }
  assert (Hm1_skip : forall k, k <> "bn_v1"%string -> k <> "control_v1"%string ->
            k <> "features"%string -> m1 !! k = heads !! k).
  { intros k H1 H2 H3. unfold m1, m0. destruct (bool_decide _);
      rewrite ?lookup_insert_ne by congruence; reflexivity. }
  split; [|split].
  - rewrite lookup_insert_ne by discriminate.
    rewrite Hcls_skip by (intros j; discriminate).
    rewrite Hnorm_skip by (intros j; discriminate).
    unfold m1, m0. destruct (bool_decide _);
      rewrite ?lookup_insert_ne by discriminate; apply lookup_insert_eq.
  - rewrite lookup_insert_ne by discriminate.
    rewrite Hcls_skip by (intros j; discriminate).
    rewrite Hnorm_skip by (intros j; discriminate).
    unfold m1, m0. destruct (DenseNet.avg a); simpl.
    + rewrite lookup_insert_ne by discriminate. apply Hheads_skip. intros j; discriminate.
    + rewrite lookup_insert_ne by discriminate. apply lookup_insert_eq.
  - intros i. repeat split.
    + rewrite lookup_insert_ne by discriminate.
      rewrite Hcls_skip by (intros j; discriminate).
      rewrite Hnorm_skip by (intros j; discriminate).
      rewrite Hm1_skip by discriminate.
      destruct (decide (i < K)) as [Hi|Hi].
      * apply setattrs_lookup_in.
        -- apply in_per_branch. exists i. split; [exact Hi | left; reflexivity].
        -- intros v' Hv'. apply in_per_branch in Hv'.
           destruct Hv' as (j & _ & [Heq|[]]). inversion Heq. reflexivity.
      * unfold heads. rewrite setattrs_lookup_notin; [apply lookup_empty|].
        intros v Hv. apply in_per_branch in Hv.
        destruct Hv as (j & Hj & [Heq|[]]). inversion Heq as [[Hn Hl]].
        apply str_inj in Hn. lia.
    + rewrite lookup_insert_ne by discriminate.
      rewrite Hcls_skip by (intros j; discriminate).
      destruct (decide (i < K)) as [Hi|Hi].
      * apply setattrs_lookup_in.
        -- apply in_per_branch. exists i. split; [exact Hi | left; reflexivity].
        -- intros v' Hv'. apply in_per_branch in Hv'.
           destruct Hv' as (j & _ & [Heq|[Heq|[]]]); inversion Heq; reflexivity.
      * rewrite setattrs_lookup_notin.
        -- rewrite Hm1_skip by discriminate. apply Hheads_skip. intros j; discriminate.
        -- intros v Hv. apply in_per_branch in Hv.
           destruct Hv as (j & Hj & [Heq|[Heq|[]]]); inversion Heq as [[Hn Hl]].
           apply str_inj in Hn. lia.
    + rewrite lookup_insert_ne by discriminate.
      rewrite Hcls_skip by (intros j; discriminate).
      destruct (decide (i < K)) as [Hi|Hi].
      * apply setattrs_lookup_in.
        -- apply in_per_branch. exists i. split; [exact Hi | right; left; reflexivity].
        -- intros v' Hv'. apply in_per_branch in Hv'.
           destruct Hv' as (j & _ & [Heq|[Heq|[]]]); inversion Heq; reflexivity.
      * rewrite setattrs_lookup_notin.
        -- rewrite Hm1_skip by discriminate. apply Hheads_skip. intros j; discriminate.
        -- intros v Hv. apply in_per_branch in Hv.
           destruct Hv as (j & Hj & [Heq|[Heq|[]]]); inversion Heq as [[Hn Hl]].
           apply str_inj in Hn. lia.
    + rewrite lookup_insert_ne by discriminate.
      destruct (decide (i < K)) as [Hi|Hi].
      * apply setattrs_lookup_in.
        -- apply in_per_branch. exists i. split; [exact Hi | left; reflexivity].
        -- intros v' Hv'. apply in_per_branch in Hv'.
           destruct Hv' as (j & _ & [Heq|[]]). inversion Heq. reflexivity.
      * rewrite setattrs_lookup_notin.
        -- rewrite Hnorm_skip by (intros j; discriminate).
           rewrite Hm1_skip by discriminate. apply Hheads_skip. intros j; discriminate.
        -- intros v Hv. apply in_per_branch in Hv.
           destruct Hv as (j & Hj & [Heq|[]]). inversion Heq as [[Hn Hl]].
           apply str_inj in Hn. lia.
Qed.

(** X10.  A DenseNet registers the four per-branch sub-modules [layer3_i],
    [norm_final_i], [relu_final_i] and [classifier3_i] for exactly the
    indices [i < num_branches]. *)
Theorem densenet_registers_one_head_per_branch (a : DenseNet.args) (self : Net.t)
  (i : nat) :
  DenseNet.init a = Ok self ->
  (is_Some (Net.modules self !! ("layer3_" +:+ str i)) <-> i < DenseNet.num_branches a) /\
  (is_Some (Net.modules self !! ("norm_final_" +:+ str i))
   <-> i < DenseNet.num_branches a) /\
  (is_Some (Net.modules self !! ("relu_final_" +:+ str i))
   <-> i < DenseNet.num_branches a) /\
  (is_Some (Net.modules self !! ("classifier3_" +:+ str i))
   <-> i < DenseNet.num_branches a).
Proof.
  intros Hinit.
  destruct (DenseNet_init_modules a self Hinit)
    as (nf & nl & trunk & _ & _ & _ & _ & _ & Hheads).
  destruct (Hheads i) as (H1 & H2 & H3 & H4). rewrite H1, H2, H3, H4.
  destruct (decide (i < DenseNet.num_branches a)) as [Hi|Hi];
    repeat split; intros H; try exact Hi; try (eexists; reflexivity);
    try (destruct H as [? H]; discriminate H); try contradiction.
Qed.

Lemma densenet_registers_one_head_per_branch_witness :
  is_Some (Net.modules dense_gated !! ("norm_final_" +:+ str 2)) /\
  ~ is_Some (Net.modules dense_gated !! ("norm_final_" +:+ str 3)).
Proof.
  assert (Hinit : DenseNet.init (dense_args 3 false false) = Ok dense_gated)
    by (vm_compute; reflexivity).
  split.
  - apply (proj1 (proj2 (densenet_registers_one_head_per_branch
                           (dense_args 3 false false) dense_gated 2 Hinit))).
    simpl. lia.
  - intros H.
    apply (proj1 (proj2 (densenet_registers_one_head_per_branch
                           (dense_args 3 false false) dense_gated 3 Hinit))) in H.
    simpl in H. lia.
Defined.

(** X11.  The widths the constructor gives the heads fit each other and the
    trunk.  With [nl] the last entry of the block configuration and [nf] the
    output width of the trunk (the output width of its final transition, or
    [num_init_features] when the configuration has a single entry): the gate
    reads [nf] features, every head's dense block has [nl] layers and takes
    [nf] channels, and the head's final normalisation and its classifier
    take [nf + nl * growth_rate] features. *)
Theorem densenet_head_widths (a : DenseNet.args) (self : Net.t) :
  DenseNet.init a = Ok self ->
  exists (nf nl : Z) (trunk : list (string * Layer)),
    last (DenseNet.block_config a) = Some nl /\
    Net.modules self !! "features" = Some (Sequential trunk) /\
    (length (DenseNet.block_config a) = 1 /\ nf = DenseNet.num_init_features a \/
     exists pre name nin, trunk = pre ++ [(name, DenseNet._Transition nin nf)]) /\
    (DenseNet.avg a = false ->
     Net.modules self !! "control_v1"
     = Some (Linear nf (Z.of_nat (DenseNet.num_branches a)))) /\
    forall i, i < DenseNet.num_branches a ->
      Net.modules self !! ("layer3_" +:+ str i)
      = Some (DenseNet._DenseBlock nl nf (DenseNet.bn_size a) (DenseNet.growth_rate a)
                (DenseNet.drop_rate a) (DenseNet.efficient a)) /\
      Net.modules self !! ("norm_final_" +:+ str i)
      = Some (BatchNorm2d (nf + nl * DenseNet.growth_rate a)) /\
      Net.modules self !! ("relu_final_" +:+ str i) = Some ReLU /\
      Net.modules self !! ("classifier3_" +:+ str i)
      = Some (Linear (nf + nl * DenseNet.growth_rate a) (DenseNet.num_classes a)).
Proof.
  intros Hinit.
  destruct (DenseNet_init_modules a self Hinit)
    as (nf & nl & trunk & _ & Hlast & Hshape & Htrunk & Hgate & Hheads).
  exists nf, nl, trunk. split; [exact Hlast|]. split; [exact Htrunk|].
  split; [exact Hshape|]. split.
  - intros Havg. rewrite Hgate, Havg. reflexivity.
  - intros i Hi. destruct (Hheads i) as (H1 & H2 & H3 & H4).
    destruct (decide (i < DenseNet.num_branches a)); [auto | contradiction].
Qed.

Lemma densenet_head_widths_witness :
  exists (nf nl : Z) (trunk : list (string * Layer)),
    last [6; 6; 6]%Z = Some nl /\
    Net.modules dense_gated !! "features" = Some (Sequential trunk) /\
    (length [6; 6; 6]%Z = 1 /\ nf = 24%Z \/
     exists pre name nin, trunk = pre ++ [(name, DenseNet._Transition nin nf)]) /\
    (false = false ->
     Net.modules dense_gated !! "control_v1" = Some (Linear nf 3)) /\
    forall i, i < 3 ->
      Net.modules dense_gated !! ("layer3_" +:+ str i)
      = Some (DenseNet._DenseBlock nl nf 4 12 0 false) /\
      Net.modules dense_gated !! ("norm_final_" +:+ str i)
      = Some (BatchNorm2d (nf + nl * 12)) /\
      Net.modules dense_gated !! ("relu_final_" +:+ str i) = Some ReLU /\
      Net.modules dense_gated !! ("classifier3_" +:+ str i)
      = Some (Linear (nf + nl * 12) 3).
Proof.
  apply (densenet_head_widths (dense_args 3 false false) dense_gated).
  vm_compute. reflexivity.
Defined.

(** Every iteration but the last appends a dense block and a transition to
    the trunk, and every transition is built by the loop. *)
Lemma DenseNet_blocks_transitions (a : DenseNet.args) (len : nat) (l : list Z)
  (st0 : DenseNet.blocks_state) (P : Z -> Z -> Prop) :
  (forall nin, P nin (py_int (inject_Z nin * DenseNet.compression a))) ->
  Forall (fun kv => forall nin nout, kv.2 = DenseNet._Transition nin nout -> P nin nout)
    (DenseNet.features st0) ->
  Forall (fun kv => forall nin nout, kv.2 = DenseNet._Transition nin nout -> P nin nout)
    (DenseNet.features
       (foldl (fun st '(i, nl) => DenseNet.block_step a len st i nl) st0 (imap pair l))).
Proof.
  intros HP H0. generalize (imap pair l) as il. intros il.
  induction il as [|[i nl] il IH] using rev_ind; [exact H0|].
  rewrite foldl_snoc. unfold DenseNet.block_step.
  destruct (decide (i <> len - 1)); simpl; [|exact IH].
  apply Forall_app. split; [exact IH|].
  constructor; [intros nin nout Heq; discriminate Heq|].
  constructor; [|constructor].
  intros nin nout Heq. simpl in Heq. unfold DenseNet._Transition in Heq.
  inversion Heq. subst. apply HP.
Qed.

Lemma compressed_width (c : Q) (nin : Z) :
  (0 < c)%Q -> (c <= 1)%Q -> (0 <= nin)%Z ->
  (0 <= py_int (inject_Z nin * c) <= nin)%Z.
Proof.
  intros H0 H1 Hn.
  assert (Hq : (0 <= inject_Z nin)%Q) by (change 0%Q with (inject_Z 0); rewrite <- Zle_Qle; exact Hn).
  assert (Hlo : (0 <= inject_Z nin * c)%Q) by Lqa.nra.
  assert (Hhi : (inject_Z nin * c <= inject_Z nin)%Q) by Lqa.nra.
  rewrite py_int_floor by exact Hlo. split.
  - change 0%Z with (Qfloor 0). apply Qfloor_resp_le. exact Hlo.
  - rewrite <- (Qfloor_Z nin) at 2. apply Qfloor_resp_le. exact Hhi.
Qed.

(** X12.  No transition of the trunk widens: a transition built for a
    non-negative number of input channels has between zero and that many
    output channels. *)
Theorem densenet_transitions_never_widen (a : DenseNet.args) (self : Net.t)
  (trunk : list (string * Layer)) (name : string) (nin nout : Z) :
  DenseNet.init a = Ok self ->
  Net.modules self !! "features" = Some (Sequential trunk) ->
  In (name, DenseNet._Transition nin nout) trunk ->
  (0 <= nin)%Z ->
  (0 <= nout <= nin)%Z.
Proof.
  intros Hinit Htrunk Hin Hnin.
  assert (Hc : (0 < DenseNet.compression a /\ DenseNet.compression a <= 1)%Q).
  { apply compression_check. unfold DenseNet.init in Hinit.
    destruct (negb _); [discriminate | reflexivity]. }
  destruct Hc as [Hc0 Hc1].
  assert (Hfeat : trunk = DenseNet.features (DenseNet.blocks a)).
  { destruct (DenseNet_init_modules a self Hinit)
      as (nf & nl & trunk' & _ & _ & _ & Htrunk' & _).
    apply DenseNet_init_inv in Hinit. destruct Hinit as (nl' & _ & ->).
    simpl in Htrunk. rewrite lookup_insert_ne in Htrunk by discriminate.
    rewrite !setattrs_lookup_notin in Htrunk.
    - destruct (bool_decide _); rewrite ?lookup_insert_ne in Htrunk by discriminate;
        rewrite lookup_insert_eq in Htrunk; congruence.
    - intros v Hv. apply in_per_branch in Hv.
      destruct Hv as (j & _ & [Heq|[Heq|[]]]); discriminate.
    - intros v Hv. apply in_per_branch in Hv.
      destruct Hv as (j & _ & [Heq|[]]); discriminate. }
  subst trunk. unfold DenseNet.blocks in Hin.
  assert (H0 : Forall (fun kv : string * Layer =>
                         forall nin nout, kv.2 = DenseNet._Transition nin nout ->
                                          (0 <= nin)%Z -> (0 <= nout <= nin)%Z)
                 (DenseNet.first_convolution a)).
  { unfold DenseNet.first_convolution. destruct (DenseNet.small_inputs a);
      repeat (constructor; [intros ? ? Heq; discriminate Heq|]); constructor. }
  pose proof (DenseNet_blocks_transitions a (length (DenseNet.block_config a))
                (DenseNet.block_config a)
                {| DenseNet.features := DenseNet.first_convolution a;
                   DenseNet.mods := ∅;
                   DenseNet.num_features := DenseNet.num_init_features a;
                   DenseNet.num_layers := None |}
                (fun nin nout => (0 <= nin)%Z -> (0 <= nout <= nin)%Z)
                (fun nin => compressed_width _ nin Hc0 Hc1) H0) as HF.
  rewrite Forall_forall in HF.
  apply (HF (name, DenseNet._Transition nin nout)).
  - apply list_elem_of_In. exact Hin.
  - reflexivity.
  - exact Hnin.
Qed.

Lemma densenet_transitions_never_widen_witness :
  In ("transition1"%string, DenseNet._Transition 96 48)
    (DenseNet.features (DenseNet.blocks (dense_args 3 false false))) /\
  (0 <= 48 <= 96)%Z.
Proof.
  assert (Hin : In ("transition1"%string, DenseNet._Transition 96 48)
                  (DenseNet.features (DenseNet.blocks (dense_args 3 false false))))
    by (vm_compute; do 4 right; left; reflexivity).
  split; [exact Hin|].
  apply (densenet_transitions_never_widen (dense_args 3 false false) dense_gated
           (DenseNet.features (DenseNet.blocks (dense_args 3 false false)))
           "transition1" 96 48).
  - vm_compute. reflexivity.
  - vm_compute. reflexivity.
  - exact Hin.
  - lia.
Defined.

(** ** [DenseNet.forward] at the edges *)

(** X13.  A DenseNet constructed with zero branches cannot run its forward pass:
    branch 0 is read unconditionally and [layer3_0] was never registered. *)
Theorem densenet_without_branches_cannot_run {T : Torch} (a : DenseNet.args)
  (self : Net.t) (x : Ten4) :
  DenseNet.init a = Ok self -> DenseNet.num_branches a = 0 ->
  raises (DenseNet.forward self x) /\
  (forall x', DenseNet.trunk self x = Ok x' ->
              DenseNet.forward self x = Raise (AttributeError "layer3_0")).
Proof.
  intros Hinit HK.
  destruct (DenseNet_init_modules a self Hinit)
    as (nf & nl & trunk & _ & _ & _ & _ & _ & Hheads).
  destruct (Hheads 0) as (Hl & _). rewrite HK in Hl. simpl in Hl.
  assert (Hret : forall x', DenseNet.trunk self x = Ok x' ->
                            DenseNet.forward self x = Raise (AttributeError "layer3_0")).
  { intros x' Ht. unfold DenseNet.forward. rewrite Ht. simpl.
    unfold DenseNet.branches, DenseNet.head, call4.
    change ("layer3_" +:+ str 0) with "layer3_0"%string.
    rewrite (getattr_missing self "layer3_0" Hl). reflexivity. }
  split; [|exact Hret].
  destruct (DenseNet.trunk self x) as [x'|e] eqn:Ht.
  - eexists. eapply Hret. reflexivity.
  - unfold DenseNet.forward. rewrite Ht. eexists. reflexivity.
Qed.

Lemma densenet_without_branches_cannot_run_witness :
  @DenseNet.forward toy (built (DenseNet.init (dense_args 0 false false))) two_images
  = Raise (AttributeError "layer3_0").
Proof.
  refine (proj2 (@densenet_without_branches_cannot_run toy (dense_args 0 false false)
                   (built (DenseNet.init (dense_args 0 false false))) two_images _ eq_refl)
            two_images _).
  - vm_compute. reflexivity.
  - vm_compute. reflexivity.
Defined.

(** X14.  [bpscale] does not change what the forward pass computes: the model
    constructed with the other value of the flag is constructed as well, and
    returns or raises the same on every input. *)
Theorem densenet_bpscale_keeps_the_forward_value (a : DenseNet.args) (self : Net.t)
  (b : bool) :
  DenseNet.init a = Ok self ->
  exists self',
    DenseNet.init (with_bpscale b a) = Ok self' /\
    forall (T : Torch) (x : Ten4), DenseNet.forward self' x = DenseNet.forward self x.
Proof.
  intros Hinit. unfold DenseNet.init in *.
  change (DenseNet.compression (with_bpscale b a)) with (DenseNet.compression a).
  destruct (negb _); [discriminate|].
  change (DenseNet.blocks (with_bpscale b a)) with (DenseNet.blocks a).
  cbn zeta in *.
  destruct (DenseNet.num_layers (DenseNet.blocks a)) as [nl|]; [|discriminate].
  eexists. split; [reflexivity|]. intros T x. injection Hinit as <-.
  unfold DenseNet.forward, DenseNet.trunk. simpl.
  destruct b, (DenseNet.bpscale a); reflexivity.
Qed.

Lemma densenet_bpscale_keeps_the_forward_value_witness :
  exists self',
    DenseNet.init (with_bpscale false (dense_args 3 false false)) = Ok self' /\
    forall (T : Torch) (x : Ten4),
      DenseNet.forward self' x = DenseNet.forward dense_gated x.
Proof.
  apply (densenet_bpscale_keeps_the_forward_value (dense_args 3 false false) dense_gated
           false).
  vm_compute. reflexivity.
Defined.

(** ** Empty batches *)

Lemma view_rows_empty (n : nat) (t : Ten4) : n = 0 -> raises (view_rows n t).
Proof. intros ->. eexists. reflexivity. Qed.

Lemma DenseNet_head_empty {T : Torch} {C : TorchContract T} (self : Net.t) (i : nat)
  (x : Ten4) :
  length x = 0 -> raises (DenseNet.head self i x).
Proof.
  intros Hx. unfold DenseNet.head.
  apply bind_raises_cont. intros t1 H1. apply call4_batch in H1.
  apply bind_raises_cont. intros t2 H2. apply call4_batch in H2.
  apply bind_raises_cont. intros t3 H3. apply call4_batch in H3.
  apply bind_raises_cont. intros t4 H4.
  apply bind_raises. apply view_rows_empty. congruence.
Qed.

Lemma MobileNetV2_head0_empty {T : Torch} {C : TorchContract T} (self : Net.t)
  (x : Ten4) :
  length x = 0 -> raises (MobileNetV2.head0 self x).
Proof.
  intros Hx. unfold MobileNetV2.head0.
  apply bind_raises_cont. intros t1 H1. apply call4_batch in H1.
  apply bind_raises_cont. intros t2 H2. apply pool_batch in H2.
  apply bind_raises. apply view_rows_empty. congruence.
Qed.

(** X15.  Neither model processes an empty batch: whatever the layers compute,
    as long as they keep the batch axis, the first [view(size(0), -1)] of
    branch 0 is asked to infer [-1] for a tensor without elements. *)
Theorem empty_batch_is_refused {T : Torch} {C : TorchContract T} (x : Ten4) :
  length x = 0 ->
  (forall self, raises (DenseNet.forward self x)) /\
  (forall self, raises (MobileNetV2.forward self x)).
Proof.
  intros Hx. split; intros self.
  - unfold DenseNet.forward. apply bind_raises_cont. intros x' Ht.
    apply DenseNet_trunk_batch in Ht. apply bind_raises.
    unfold DenseNet.branches. apply bind_raises. apply DenseNet_head_empty. congruence.
  - unfold MobileNetV2.forward. apply bind_raises_cont. intros x' Ht.
    apply call4_batch in Ht. apply bind_raises.
    unfold MobileNetV2.branches. apply bind_raises. apply MobileNetV2_head0_empty.
    congruence.
Qed.

Lemma empty_batch_is_refused_witness :
  raises (@DenseNet.forward toy dense_gated []) /\
  raises (@MobileNetV2.forward toy mobile_gated []).
Proof.
  destruct (empty_batch_is_refused (T:=toy) (C:=toy_contract) [] eq_refl) as [Hd Hm].
  split; [apply Hd | apply Hm].
Defined.

(** ** The gated output lies between the branches *)

Lemma weighted_sum_between (w l : Vec) (lo hi : R) :
  length w = length l -> Forall (fun a => (0 <= a)%R) w ->
  Forall (fun v => (lo <= v <= hi)%R) l ->
  (lo * Rsum w <= Rsum (zip_with Rmult w l) <= hi * Rsum w)%R.
Proof.
  revert l. induction w as [|a w IH]; intros l Hlen Hw Hl.
  - unfold Rsum. simpl. lra.
  - destruct l as [|v l]; [discriminate|]. simpl in Hlen.
    inversion Hw as [|? ? Ha Hw']. inversion Hl as [|? ? Hv Hl']. subst.
    specialize (IH l ltac:(lia) Hw' Hl'). unfold Rsum in *. simpl. nra.
Qed.

Lemma DenseNet_forward_gated_inv {T : Torch} {C : TorchContract T} (a : DenseNet.args)
  (self : Net.t) (x : Ten4) (pro : Ten3) (x_m : Mat) :
  DenseNet.init a = Ok self ->
  DenseNet.forward self x = Ok (pro, FMat x_m) ->
  exists w,
    1 <= DenseNet.num_branches a /\
    dims2 (length x) (DenseNet.num_branches a) w /\
    Forall distribution w /\
    dims3 (length x) (Z.to_nat (DenseNet.num_classes a)) (DenseNet.num_branches a) pro /\
    x_m = weighted_sum w pro.
Proof.
  intros Hinit Hrun.
  destruct (DenseNet_init_fields a self Hinit) as (HKs & Havgs & _).
  unfold DenseNet.forward in Hrun. inv_bind Hrun. inv_bind Hrun.
  destruct (Net.ind self); [discriminate|].
  destruct (Net.avg self) eqn:Havg; [inv_bind Hrun; discriminate|].
  inv_bind Hrun. inv_bind Hrun. injection Hrun as Epro Exm. subst v0 v2.
  assert (HK : 1 <= DenseNet.num_branches a).
  { destruct (DenseNet.num_branches a) as [|K] eqn:HK0; [|lia]. exfalso.
    destruct (DenseNet_init_modules a self Hinit)
      as (nf & nl & trunk & _ & _ & _ & _ & _ & Hheads).
    destruct (Hheads 0) as (Hl & _). rewrite HK0 in Hl. simpl in Hl.
    unfold DenseNet.branches, DenseNet.head, call4 in E0.
    change ("layer3_" +:+ str 0) with "layer3_0"%string in E0.
    rewrite (getattr_missing self "layer3_0" Hl) in E0. discriminate. }
  pose proof (DenseNet_trunk_batch self x v E) as Hlen.
  pose proof (DenseNet_branches_dims a self v pro Hinit HK E0) as Hp.
  pose proof (DenseNet_init_gate_lookup a self Hinit) as Hgate.
  rewrite <- Havgs in Hgate. destruct Hgate as [[nf Hlin] Hbn].
  pose proof (gate_dims self v v1 nf _ Hlin Hbn E1) as Hw.
  pose proof (gate_distribution self v v1 _ HK Hbn E1) as Hd.
  rewrite HKs in E2.
  rewrite (fuse_gated_weighted_sum _ _ _ v1 pro HK Hw Hp) in E2. injection E2 as <-.
  exists v1. rewrite <- Hlen. auto.
Qed.

(** X16.  Gated fusion is a convex combination: for every batch element and
    class, the fused logit lies between any two bounds that hold for the
    logits of all branches. *)
Theorem densenet_gated_output_is_between_the_branches {T : Torch} {C : TorchContract T}
  (a : DenseNet.args) (self : Net.t) (x : Ten4) (pro : Ten3) (x_m : Mat)
  (b c : nat) (logits : Vec) (lo hi : R) :
  DenseNet.init a = Ok self ->
  DenseNet.forward self x = Ok (pro, FMat x_m) ->
  pro !! b ≫= (.!! c) = Some logits ->
  Forall (fun v => (lo <= v <= hi)%R) logits ->
  exists fused_logit,
    x_m !! b ≫= (.!! c) = Some fused_logit /\ (lo <= fused_logit <= hi)%R.
Proof.
  intros Hinit Hrun Hl Hb.
  destruct (DenseNet_forward_gated_inv a self x pro x_m Hinit Hrun)
    as (w & HK & [Hlw Hw] & Hd & [Hlp Hp] & ->).
  destruct (pro !! b) as [m|] eqn:Hm; [|discriminate]. simpl in Hl.
  assert (Hbw : b < length w).
  { apply lookup_lt_Some in Hm. lia. }
  destruct (lookup_lt_is_Some_2 w b Hbw) as [r Hr].
  unfold weighted_sum. rewrite lookup_zip_with, Hr. simpl. rewrite Hm. simpl.
  rewrite list_lookup_fmap, Hl. simpl. eexists. split; [reflexivity|].
  rewrite Forall_forall in Hw. rewrite Forall_forall in Hd. rewrite Forall_forall in Hp.
  assert (Hrw : r ∈ w) by (eapply list_elem_of_lookup_2; eauto).
  assert (Hmp : m ∈ pro) by (eapply list_elem_of_lookup_2; eauto).
  destruct (Hd r Hrw) as [Hpos Hsum].
  destruct (Hp m Hmp) as [_ Hrows]. rewrite Forall_forall in Hrows.
  assert (Hll : length logits = DenseNet.num_branches a).
  { apply Hrows. eapply list_elem_of_lookup_2; eauto. }
  pose proof (weighted_sum_between r logits lo hi
                ltac:(rewrite (Hw r Hrw), Hll; reflexivity) Hpos Hb) as Hbt.
  rewrite Hsum in Hbt. lra.
Qed.

Lemma densenet_gated_output_is_between_the_branches_witness :
  exists (pro : Ten3) (x_m : Mat) (fused_logit : R),
    @DenseNet.forward toy dense_gated two_images = Ok (pro, FMat x_m) /\
    pro !! 0 ≫= (.!! 0) = Some [1; 11; 21]%R /\
    x_m !! 0 ≫= (.!! 0) = Some fused_logit /\ (1 <= fused_logit <= 21)%R.
Proof.
  exists [[[1; 11; 21]; [2; 12; 22]; [3; 13; 23]];
          [[1; 11; 21]; [2; 12; 22]; [3; 13; 23]]]%R.
  exists (match @DenseNet.forward toy dense_gated two_images with
          | Ok (_, FMat m) => m
          | _ => []
          end).
  match goal with
  | |- exists f, ?run /\ ?sel /\ _ =>
      assert (Hrun : run) by (vm_compute; reflexivity);
      assert (Hl : sel) by reflexivity
  end.
  destruct (densenet_gated_output_is_between_the_branches (T:=toy) (C:=toy_contract)
              (dense_args 3 false false) dense_gated two_images _ _ 0 0
              [1; 11; 21]%R 1%R 21%R ltac:(vm_compute; reflexivity) Hrun Hl
              ltac:(repeat constructor; lra)) as (f & Hf & Hb).
  exists f. auto.
Defined.

(** ** [MutualNet] *)

Lemma MutualNet_init_loop {Student : Type} (s : Student) (n : nat)
  (base : gmap string Student) :
  (forall j, base !! ("stu" +:+ str j) = None) ->
  exists stus,
    for_each (range 0 n) (fun i stus => Ok (<["stu" +:+ str i := s]> stus)) base
    = Ok stus /\
    forall i, stus !! ("stu" +:+ str i) = if decide (i < n) then Some s else None.
Proof.
  intros Hbase. induction n as [|n (stus & Hrun & Hlook)].
  - exists base. split; [reflexivity|]. intros i.
    destruct (decide (i < 0)); [lia | apply Hbase].
  - exists (<["stu" +:+ str n := s]> stus). rewrite range_succ by lia.
    rewrite for_each_app, Hrun. split; [reflexivity|]. intros i.
    destruct (decide (i = n)) as [->|Hne].
    + rewrite lookup_insert_eq. destruct (decide (n < S n)); [reflexivity | lia].
    + rewrite lookup_insert_ne by (intros Heq; apply str_inj in Heq; congruence).
      rewrite Hlook. destruct (decide (i < n)), (decide (i < S n)); try reflexivity; lia.
Qed.

(** X17.  What constructing a [MutualNet] with at least one branch does: if the
    factory selected by the architecture name raises, so does the
    constructor, with the same exception; otherwise the constructor returns,
    records the number of branches and registers a student built by that
    factory under [stu<i>] for exactly the indices [i < num_branches]. *)
Theorem mutualnet_init_outcome {Student : Type} {zoo : MutualNet.Zoo Student}
  (model : string) (num_branches : nat) (num_classes : Z) (dropout : Q) :
  1 <= num_branches ->
  match MutualNet.student model num_classes dropout with
  | Raise e => MutualNet.init model num_branches num_classes dropout = Raise e
  | Ok s =>
      exists self,
        MutualNet.init model num_branches num_classes dropout = Ok self /\
        MutualNet.num_branches self = num_branches /\
        forall i, MutualNet.students self !! ("stu" +:+ str i)
                  = if decide (i < num_branches) then Some s else None
  end.
Proof.
  intros HK. unfold MutualNet.init.
  destruct (MutualNet.student model num_classes dropout) as [s|e] eqn:Hs.
  - destruct (MutualNet_init_loop s num_branches ∅) as (stus & Hrun & Hlook);
      [intros j; apply lookup_empty|].
    cbn [mbind result_bind]. rewrite Hrun. simpl. eexists. split; [reflexivity|]. split; [reflexivity|].
    exact Hlook.
  - destruct num_branches as [|K]; [lia|]. unfold range. simpl. reflexivity.
Qed.

Lemma mutualnet_init_outcome_witness :
  exists self,
    @MutualNet.init string toy_zoo "vgg16" 2 10 0 = Ok self /\
    MutualNet.num_branches self = 2 /\
    forall i, MutualNet.students self !! ("stu" +:+ str i)
              = if decide (i < 2) then Some "vgg16"%string else None.
Proof.
  apply (@mutualnet_init_outcome string toy_zoo "vgg16" 2 10 0). lia.
Defined.

(** X18.  The output of [MutualNet.forward]: if every student returns logits of
    one shape [B, C], the outputs are stacked along a new last axis in
    ascending order of the student index. *)
Theorem mutualnet_forward_stacks_the_students {Student : Type}
  {zoo : MutualNet.Zoo Student} (self : MutualNet.t Student) (x : Ten4) (B C : nat) :
  1 <= MutualNet.num_branches self ->
  (forall i, i < MutualNet.num_branches self ->
     exists y, MutualNet.call_student self ("stu" +:+ str i) x = Ok y /\ dims2 B C y) ->
  exists out,
    MutualNet.forward self x = Ok out /\
    dims3 B C (MutualNet.num_branches self) out /\
    forall i, i < MutualNet.num_branches self ->
      MutualNet.call_student self ("stu" +:+ str i) x = index_last3 out i.
Proof.
  intros HK Hstu.
  destruct (Hstu 0) as (y0 & Hy0 & Hd0); [lia|].
  destruct (stack_loop (fun i => MutualNet.call_student self ("stu" +:+ str i) x)
              B C y0 (MutualNet.num_branches self) Hd0)
    as (out & Hrun & Hdims & H0 & Hslices); [intros i Hi; apply Hstu; lia | exact HK |].
  exists out. unfold MutualNet.forward.
  change ("stu" +:+ str 0) with "stu0"%string in Hy0. rewrite Hy0. simpl.
  split; [exact Hrun|]. split; [exact Hdims|].
  intros i Hi. rewrite (index_last3_dims _ _ _ _ _ Hdims Hi).
  destruct (decide (i = 0)) as [->|Hne].
  - rewrite H0. exact Hy0.
  - apply Hslices. lia.
Qed.

Lemma mutualnet_forward_stacks_the_students_witness :
  exists out,
    @MutualNet.forward string toy_zoo
      {| MutualNet.num_branches := 2;
         MutualNet.students := <["stu1" := "vgg16"%string]> (<["stu0" := "vgg16"%string]> ∅) |}
      two_images = Ok out /\
    dims3 2 1 2 out.
Proof.
  destruct (@mutualnet_forward_stacks_the_students string toy_zoo
              {| MutualNet.num_branches := 2;
                 MutualNet.students :=
                   <["stu1" := "vgg16"%string]> (<["stu0" := "vgg16"%string]> ∅) |}
              two_images 2 1) as (out & Hrun & Hd & _).
  - simpl. lia.
  - intros i Hi. simpl in Hi.
    assert (Hi' : i = 0 \/ i = 1) by lia.
    destruct Hi' as [-> | ->]; (eexists; split; [vm_compute; reflexivity|]);
      (split; [reflexivity | repeat constructor]).
  - exists out. auto.
Defined.

(** X19.  A [MutualNet] with zero branches is constructed whatever the
    architecture name, but its forward pass reads [self.stu0], which was
    never registered. *)
Theorem mutualnet_without_branches_cannot_run {Student : Type}
  {zoo : MutualNet.Zoo Student} (model : string) (num_classes : Z) (dropout : Q)
  (x : Ten4) :
  exists self,
    MutualNet.init model 0 num_classes dropout = Ok self /\
    MutualNet.forward self x = Raise (AttributeError "stu0").
Proof. eexists. split; reflexivity. Qed.

(** ** The gate: ReLU before the softmax *)

Lemma softmax_row_lookup (v : Vec) (i : nat) (z : R) :
  v !! i = Some z -> softmax_row v !! i = Some (exp z / Rsum (map exp v))%R.
Proof.
  intros Hz. unfold softmax_row. rewrite !list_lookup_fmap, Hz. reflexivity.
Qed.

(** X20.  The gate weights are strictly positive, they are ordered like the
    normalised gate logits, and all branches whose normalised logit is not
    positive share one and the same weight: the ReLU in front of the softmax
    maps their logits to zero. *)
Theorem gate_weights_follow_the_rectified_logits {T : Torch} (self : Net.t) (x : Ten4)
  (w : Mat) :
  gate self x = Ok w ->
  exists lin bn,
    call2 self "bn_v1" lin = Ok bn /\
    length w = length bn /\
    forall b logits weights i j zi zj wi wj,
      bn !! b = Some logits -> w !! b = Some weights ->
      logits !! i = Some zi -> logits !! j = Some zj ->
      weights !! i = Some wi -> weights !! j = Some wj ->
      (0 < wi)%R /\
      ((zi <= zj)%R -> (wi <= wj)%R) /\
      ((zi <= 0)%R -> (zj <= 0)%R -> wi = wj).
Proof.
  intros Hg. apply gate_inv in Hg.
  destruct Hg as (pooled & flat & lin & bn & _ & _ & _ & Hb & ->).
  exists lin, bn. split; [exact Hb|]. split.
  { unfold softmax, relu. rewrite !length_map. reflexivity. }
  intros b logits weights i j zi zj wi wj Hbn Hw Hzi Hzj Hwi Hwj.
  unfold softmax, relu in Hw. rewrite !list_lookup_fmap, Hbn in Hw. simpl in Hw.
  injection Hw as <-.
  assert (Hri : map (fun v => Rmax 0 v) logits !! i = Some (Rmax 0 zi))
    by (rewrite list_lookup_fmap, Hzi; reflexivity).
  assert (Hrj : map (fun v => Rmax 0 v) logits !! j = Some (Rmax 0 zj))
    by (rewrite list_lookup_fmap, Hzj; reflexivity).
  rewrite (softmax_row_lookup _ _ _ Hri) in Hwi. injection Hwi as <-.
  rewrite (softmax_row_lookup _ _ _ Hrj) in Hwj. injection Hwj as <-.
  assert (Hpos : (0 < Rsum (map exp (map (fun v => Rmax 0 v) logits)))%R).
  { apply Rsum_exp_pos. destruct logits; [discriminate | discriminate]. }
  set (S := Rsum _) in *.
  split; [apply Rdiv_lt_0_compat; [apply exp_pos | exact Hpos]|]. split.
  - intros Hle. apply Rmult_le_compat_r; [apply Rlt_le, Rinv_0_lt_compat; exact Hpos|].
    assert (Hm : (Rmax 0 zi <= Rmax 0 zj)%R)
      by (apply Rle_max_compat_l; exact Hle).
    destruct Hm as [Hlt|Heq]; [apply Rlt_le, exp_increasing; exact Hlt | rewrite Heq; lra].
  - intros Hi Hj. rewrite !Rmax_left by assumption. reflexivity.
Qed.

Lemma gate_weights_follow_the_rectified_logits_witness :
  exists lin bn,
    @call2 toy dense_gated "bn_v1" lin = Ok bn /\
    length (value [] (@gate toy dense_gated two_images)) = length bn /\
    forall b logits weights i j zi zj wi wj,
      bn !! b = Some logits ->
      value [] (@gate toy dense_gated two_images) !! b = Some weights ->
      logits !! i = Some zi -> logits !! j = Some zj ->
      weights !! i = Some wi -> weights !! j = Some wj ->
      (0 < wi)%R /\
      ((zi <= zj)%R -> (wi <= wj)%R) /\
      ((zi <= 0)%R -> (zj <= 0)%R -> wi = wj).
Proof.
  apply (@gate_weights_follow_the_rectified_logits toy dense_gated two_images).
  vm_compute. reflexivity.
Defined.

(** ** [_DenseLayer.forward] and [_DenseBlock.forward] *)

Lemma zip_with_strict_app_inv {A : Type} (t r y : list (list A)) :
  zip_with_strict (fun a b => Ok (a ++ b)) t r = Ok y ->
  length y = length t /\ length r = length t /\
  Forall2 (fun a e => a `prefix_of` e) t y /\
  forall n, Forall (fun e => length e = n) r ->
            Forall2 (fun a e => length e = length a + n) t y.
Proof.
  revert r y. induction t as [|a t IH]; intros r y Hz.
  - destruct r; [|discriminate]. injection Hz as <-. repeat split; constructor.
  - destruct r as [|b r]; [discriminate|]. simpl in Hz. inv_bind Hz.
    injection Hz as <-. destruct (IH r v E) as (Hl1 & Hl2 & Hp & Hn).
    simpl. repeat split; try lia.
    + constructor; [apply prefix_app_r; reflexivity | exact Hp].
    + intros n Hr. inversion Hr as [|? ? Hb Hr']. subst.
      constructor; [rewrite length_app; reflexivity | apply Hn; exact Hr'].
Qed.

(** [torch.cat(ts, 1)]: the channels of the first tensor lead the result,
    and tensors of [n] channels each add [n] channels each. *)
Lemma cat_channels_inv (t : Ten4) (ts : list Ten4) (y : Ten4) :
  cat_channels (t :: ts) = Ok y ->
  length y = length t /\
  Forall2 (fun a e => a `prefix_of` e) t y /\
  forall n, Forall (fun t' => Forall (fun e => length e = n) t') ts ->
            Forall2 (fun a e => length e = length a + length ts * n) t y.
Proof.
  revert t y. induction ts as [|t' ts IH]; intros t y Hc.
  - simpl in Hc. injection Hc as <-. split; [reflexivity|]. split.
    + apply Forall2_same_length_lookup_2; [reflexivity|].
      intros i a e Ha He. replace e with a by congruence. reflexivity.
    + intros n _. apply Forall2_same_length_lookup_2; [reflexivity|].
      intros i a e Ha He. replace e with a by congruence. simpl. lia.
  - change (cat_channels (t :: t' :: ts))
      with (r ← cat_channels (t' :: ts); zip_with_strict (fun a b => Ok (a ++ b)) t r)
      in Hc.
    inv_bind Hc. destruct (IH t' v E) as (Hlr & _ & Hnr).
    destruct (zip_with_strict_app_inv t v y Hc) as (Hly & Hlv & Hp & Hn).
    split; [exact Hly|]. split; [exact Hp|].
    intros n Hts. inversion Hts as [|? ? Ht' Hts']. subst.
    specialize (Hnr n Hts').
    replace (length (t' :: ts) * n) with (n + length ts * n) by (simpl; lia).
    apply Hn.
    apply Forall_forall. intros e He.
    apply list_elem_of_lookup in He. destruct He as [i He].
    destruct (Forall2_lookup_r _ _ _ _ _ Hnr He) as (a' & Ha' & Hlen).
    rewrite Forall_forall in Ht'. rewrite Hlen, (Ht' a'); [reflexivity|].
    eapply list_elem_of_lookup_2; eauto.
Qed.

Section BlockChannels.
Context {T : Torch} {F : Functional} {C : ChannelContract T F}.

(** A dense layer returns [growth_rate] channels for every batch
    element. *)
Lemma DenseLayer_forward_channels (path : string) (nin growth bn_size : Z) (drop : Q)
  (eff : bool) (prev : list Ten4) (y : Ten4) :
  DenseNet._DenseLayer_forward path nin growth bn_size drop eff prev = Ok y ->
  Forall (fun e => length e = Z.to_nat growth) y.
Proof.
  unfold DenseNet._DenseLayer_forward. intros Hrun.
  inv_bind Hrun. inv_bind Hrun. inv_bind Hrun. inv_bind Hrun.
  apply conv_channels in E2. destruct E2 as [_ Hch].
  destruct (negb _).
  - apply dropout_channels in Hrun. destruct Hrun as [_ Hd].
    apply Forall_forall. intros e He. apply list_elem_of_lookup in He.
    destruct He as [i He].
    destruct (Forall2_lookup_r _ _ _ _ _ Hd He) as (a' & Ha' & Hlen).
    rewrite Forall_forall in Hch. rewrite Hlen. apply Hch.
    eapply list_elem_of_lookup_2; eauto.
  - injection Hrun as <-. exact Hch.
Qed.

Lemma DenseBlock_features_inv (path : string) (n : nat) (nin bn_size growth : Z)
  (drop : Q) (eff : bool) (x : Ten4) (fs : list Ten4) :
  DenseNet._DenseBlock_features path n nin bn_size growth drop eff x = Ok fs ->
  exists news,
    fs = x :: news /\ length news = n /\
    Forall (fun t' => Forall (fun e => length e = Z.to_nat growth) t') news.
Proof.
  unfold DenseNet._DenseBlock_features. revert fs.
  induction n as [|n IH]; intros fs Hrun.
  - simpl in Hrun. injection Hrun as <-. exists []. repeat split. constructor.
  - rewrite range_succ in Hrun by lia. rewrite for_each_app in Hrun.
    inv_bind Hrun. destruct (IH v E) as (news & -> & Hlen & Hch).
    cbn [for_each mbind result_bind] in Hrun.
    destruct (DenseNet._DenseLayer_forward _ _ _ _ _ _ _) as [f|e] eqn:Hf;
      [|discriminate].
    cbn [mbind result_bind] in Hrun. injection Hrun as <-.
    exists (news ++ [f]). split; [reflexivity|]. split.
    + rewrite length_app. simpl. lia.
    + apply Forall_app. split; [exact Hch|]. constructor; [|constructor].
      eapply DenseLayer_forward_channels; eauto.
Qed.

End BlockChannels.

Lemma DenseBlock_features_head {T : Torch} {F : Functional} (path : string) (n : nat)
  (nin bn_size growth : Z) (drop : Q) (eff : bool) (x : Ten4) (fs : list Ten4) :
  DenseNet._DenseBlock_features path n nin bn_size growth drop eff x = Ok fs ->
  exists news, fs = x :: news.
Proof.
  unfold DenseNet._DenseBlock_features. revert fs.
  induction n as [|n IH]; intros fs Hrun.
  - simpl in Hrun. injection Hrun as <-. eauto.
  - rewrite range_succ in Hrun by lia. rewrite for_each_app in Hrun.
    inv_bind Hrun. destruct (IH v E) as (news & ->).
    cbn [for_each mbind result_bind] in Hrun.
    destruct (DenseNet._DenseLayer_forward _ _ _ _ _ _ _) as [f|e] eqn:Hf;
      [|discriminate].
    cbn [mbind result_bind] in Hrun. injection Hrun as <-.
    exists (news ++ [f]). reflexivity.
Qed.

(** X21.  Dense connectivity: whatever the layers compute, the output of a dense
    block has the batch size of its input and, for every batch element,
    starts with the channels of the input, unchanged. *)
Theorem dense_block_output_starts_with_its_input {T : Torch} {F : Functional}
  (path : string) (num_layers num_input_features bn_size growth_rate : Z)
  (drop_rate : Q) (efficient : bool) (init_features y : Ten4) :
  DenseNet._DenseBlock_forward path num_layers num_input_features bn_size growth_rate
    drop_rate efficient init_features = Ok y ->
  length y = length init_features /\
  Forall2 (fun e_in e_out => e_in `prefix_of` e_out) init_features y.
Proof.
  unfold DenseNet._DenseBlock_forward. intros Hrun. inv_bind Hrun.
  destruct (DenseBlock_features_head _ _ _ _ _ _ _ _ _ E) as (news & ->).
  destruct (cat_channels_inv _ _ _ Hrun) as (Hlen & Hp & _). auto.
Qed.

Lemma DenseBlock_forward_channels {T : Torch} {F : Functional}
  {C : ChannelContract T F}
  (path : string) (num_layers num_input_features bn_size growth_rate : Z)
  (drop_rate : Q) (efficient : bool) (init_features y : Ten4) :
  DenseNet._DenseBlock_forward path num_layers num_input_features bn_size growth_rate
    drop_rate efficient init_features = Ok y ->
  Forall2 (fun e_in e_out =>
             length e_out = length e_in + Z.to_nat num_layers * Z.to_nat growth_rate)
    init_features y.
Proof.
  unfold DenseNet._DenseBlock_forward. intros Hrun. inv_bind Hrun.
  destruct (DenseBlock_features_inv _ _ _ _ _ _ _ _ _ E) as (news & -> & Hlen & Hch).
  destruct (cat_channels_inv _ _ _ Hrun) as (_ & _ & Hn).
  rewrite <- Hlen. apply Hn. exact Hch.
Qed.

(** X22.  The number of channels a dense block returns: with a library whose
    convolutions return the number of channels they were constructed with,
    every batch element gains [growth_rate] channels per layer. *)
Theorem dense_block_output_channels {T : Torch} {F : Functional}
  {C : ChannelContract T F}
  (path : string) (num_layers num_input_features bn_size growth_rate : Z)
  (drop_rate : Q) (efficient : bool) (init_features y : Ten4) :
  DenseNet._DenseBlock_forward path num_layers num_input_features bn_size growth_rate
    drop_rate efficient init_features = Ok y ->
  Forall2 (fun e_in e_out =>
             length e_out = length e_in + Z.to_nat num_layers * Z.to_nat growth_rate)
    init_features y.
Proof.
  unfold DenseNet._DenseBlock_forward. intros Hrun. inv_bind Hrun.
  destruct (DenseBlock_features_inv _ _ _ _ _ _ _ _ _ E) as (news & -> & Hlen & Hch).
  destruct (cat_channels_inv _ _ _ Hrun) as (_ & _ & Hn).
  rewrite <- Hlen. apply Hn. exact Hch.
Qed.

Lemma toy_channels : ChannelContract toy_conv toy_functional.
Proof.
  split.
  - intros name i o k s p g x y Hrun. simpl in Hrun. injection Hrun as <-.
    rewrite length_map. split; [reflexivity|].
    apply Forall_map. apply Forall_forall. intros e _. simpl.
    apply length_replicate.
  - intros p x y Hrun. simpl in Hrun. injection Hrun as <-. split; [reflexivity|].
    apply Forall2_same_length_lookup_2; [reflexivity|].
    intros i a e Ha He. congruence.
Qed.

Lemma dense_block_output_starts_with_its_input_witness :
  let y := value [] (@DenseNet._DenseBlock_forward toy_conv toy_functional
                       "layer3_0" 2 1 4 3 0 false two_images) in
  length y = 2 /\ Forall2 (fun e_in e_out => e_in `prefix_of` e_out) two_images y.
Proof.
  apply (@dense_block_output_starts_with_its_input toy_conv toy_functional
           "layer3_0" 2 1 4 3 0 false two_images).
  vm_compute. reflexivity.
Defined.

Lemma dense_block_output_channels_witness :
  let y := value [] (@DenseNet._DenseBlock_forward toy_conv toy_functional
                       "layer3_0" 2 1 4 3 (1 # 5) false two_images) in
  Forall2 (fun e_in e_out => length e_out = length e_in + 2 * 3) two_images y.
Proof.
  apply (@dense_block_output_channels toy_conv toy_functional toy_channels
           "layer3_0" 2 1 4 3 (1 # 5) false two_images).
  vm_compute. reflexivity.
Defined.

(** X23.  The head of every branch is wired consistently: the final
    normalisation registered for branch [i] is constructed for exactly the
    number of channels that the branch's dense block returns when it is fed
    the number of channels it was constructed for. *)
Theorem densenet_head_block_feeds_its_normalisation {T : Torch} {F : Functional}
  {C : ChannelContract T F} (a : DenseNet.args) (self : Net.t) (i : nat) :
  DenseNet.init a = Ok self -> i < DenseNet.num_branches a ->
  (0 <= DenseNet.growth_rate a)%Z ->
  exists nl nf n_out : Z,
    Net.modules self !! ("layer3_" +:+ str i)
    = Some (DenseNet._DenseBlock nl nf (DenseNet.bn_size a) (DenseNet.growth_rate a)
              (DenseNet.drop_rate a) (DenseNet.efficient a)) /\
    Net.modules self !! ("norm_final_" +:+ str i) = Some (BatchNorm2d n_out) /\
    forall path x y,
      (0 <= nl)%Z -> (0 <= nf)%Z ->
      Forall (fun e => length e = Z.to_nat nf) x ->
      DenseNet._DenseBlock_forward path nl nf (DenseNet.bn_size a) (DenseNet.growth_rate a)
        (DenseNet.drop_rate a) (DenseNet.efficient a) x = Ok y ->
      Forall (fun e => length e = Z.to_nat n_out) y.
Proof.
  intros Hinit Hi Hg.
  destruct (DenseNet_init_modules a self Hinit)
    as (nf & nl & trunk & _ & _ & _ & _ & _ & Hheads).
  destruct (Hheads i) as (Hblock & Hnorm & _).
  destruct (decide (i < DenseNet.num_branches a)); [|contradiction].
  exists nl, nf, (nf + nl * DenseNet.growth_rate a)%Z.
  split; [exact Hblock|]. split; [exact Hnorm|].
  intros path x y Hnl Hnf Hx Hrun.
  pose proof (DenseBlock_forward_channels _ _ _ _ _ _ _ _ _ Hrun) as Hch.
  apply Forall_forall. intros e He. apply list_elem_of_lookup in He.
  destruct He as [b He].
  destruct (Forall2_lookup_r _ _ _ _ _ Hch He) as (e_in & Hin & Hlen).
  rewrite Forall_forall in Hx. rewrite Hlen, (Hx e_in) by (eapply list_elem_of_lookup_2; eauto).
  rewrite Z2Nat.inj_add by nia. rewrite Z2Nat.inj_mul by lia. reflexivity.
Qed.

Lemma densenet_head_block_feeds_its_normalisation_witness :
  exists nl nf n_out : Z,
    Net.modules dense_gated !! ("layer3_" +:+ str 0)
    = Some (DenseNet._DenseBlock nl nf 4 12 0 false) /\
    Net.modules dense_gated !! ("norm_final_" +:+ str 0) = Some (BatchNorm2d n_out) /\
    forall path x y,
      (0 <= nl)%Z -> (0 <= nf)%Z ->
      Forall (fun e => length e = Z.to_nat nf) x ->
      @DenseNet._DenseBlock_forward toy_conv toy_functional path nl nf 4 12 0 false x
      = Ok y ->
      Forall (fun e => length e = Z.to_nat n_out) y.
Proof.
  apply (@densenet_head_block_feeds_its_normalisation toy_conv toy_functional
           toy_channels (dense_args 3 false false) dense_gated 0).
  - vm_compute. reflexivity.
  - simpl. lia.
  - simpl. lia.
Defined.

Lemma densenet_forward_stacks_the_heads_witness :
  exists pro,
    @DenseNet.forward toy dense_ind two_images = Ok (pro, FNone) /\
    dims3 2 3 3 pro /\
    forall i, i < 3 -> @DenseNet.head toy dense_ind i two_images = index_last3 pro i.
Proof.
  apply (densenet_forward_stacks_the_heads (T:=toy) (C:=toy_contract)
           (dense_args 3 false true) dense_ind two_images two_images).
  - vm_compute. reflexivity.
  - simpl. lia.
  - reflexivity.
  - vm_compute. reflexivity.
  - intros i Hi. simpl in Hi.
    assert (Hi' : i = 0 \/ i = 1 \/ i = 2) by lia.
    destruct Hi' as [-> | [-> | ->]]; eexists; vm_compute; reflexivity.
Defined.

(** X25.  Inside a dense block every layer receives what it was built for: the
    layer with index [i] is constructed for
    [num_input_features + i * growth_rate] input channels, and the
    concatenation of the features it is called with has exactly that many
    channels when the block input has [num_input_features] channels. *)
Theorem dense_layer_receives_the_channels_it_was_built_for {T : Torch} {F : Functional}
  {C : ChannelContract T F}
  (path : string) (i : nat) (num_input_features bn_size growth_rate : Z)
  (drop_rate : Q) (efficient : bool) (init_features : Ten4) (features : list Ten4)
  (concated_features : Ten4) :
  (0 <= num_input_features)%Z -> (0 <= growth_rate)%Z ->
  Forall (fun e => length e = Z.to_nat num_input_features) init_features ->
  DenseNet._DenseBlock_features path i num_input_features bn_size growth_rate
    drop_rate efficient init_features = Ok features ->
  cat_channels features = Ok concated_features ->
  Forall (fun e => length e = Z.to_nat (num_input_features + Z.of_nat i * growth_rate))
    concated_features.
Proof.
  intros Hnin Hg Hx Hfs Hcat.
  assert (Hrun : DenseNet._DenseBlock_forward path (Z.of_nat i) num_input_features bn_size
                   growth_rate drop_rate efficient init_features = Ok concated_features).
  { unfold DenseNet._DenseBlock_forward. rewrite Nat2Z.id, Hfs. exact Hcat. }
  pose proof (DenseBlock_forward_channels _ _ _ _ _ _ _ _ _ Hrun) as Hch.
  apply Forall_forall. intros e He. apply list_elem_of_lookup in He.
  destruct He as [b He].
  destruct (Forall2_lookup_r _ _ _ _ _ Hch He) as (e_in & Hin & Hlen).
  rewrite Forall_forall in Hx.
  rewrite Hlen, (Hx e_in) by (eapply list_elem_of_lookup_2; eauto).
  rewrite Z2Nat.inj_add by nia. rewrite Z2Nat.inj_mul by lia. reflexivity.
Qed.

Lemma dense_layer_receives_the_channels_it_was_built_for_witness :
  Forall (fun e => length e = Z.to_nat (1 + Z.of_nat 2 * 3))
    (value [] (features ← @DenseNet._DenseBlock_features toy_conv toy_functional
                            "layer3_0" 2 1 4 3 0 false two_images;
               cat_channels features)).
Proof.
  apply (@dense_layer_receives_the_channels_it_was_built_for toy_conv toy_functional
           toy_channels "layer3_0" 2 1 4 3 0 false two_images
           (value [] (@DenseNet._DenseBlock_features toy_conv toy_functional
                        "layer3_0" 2 1 4 3 0 false two_images))).
  - lia.
  - lia.
  - repeat constructor.
  - vm_compute. reflexivity.
  - vm_compute. reflexivity.
Defined.

(** ** The gate of MobileNetV2 and the width of the trunk *)

Lemma stages_app (a : MobileNetV2.args) (l : list (list Z)) (row : list Z)
  (st : MobileNetV2.stage_state) :
  MobileNetV2.stages a (l ++ [row]) st
  = (st1 ← MobileNetV2.stages a l st; MobileNetV2.stage a st1 row).
Proof.
  revert st. induction l as [|r l IH]; intros st; simpl.
  - destruct (MobileNetV2.stage a st row); reflexivity.
  - destruct (MobileNetV2.stage a st r) as [st1|e]; simpl; [apply IH | reflexivity].
Qed.

Lemma stage_blocks_last (t s oc : Z) (l : list nat) (fs fs' : list Layer) (ic ic' : Z) :
  l <> [] ->
  for_each l
    (fun i '(fs, ic) =>
       let stride := if decide (i = 0) then s else 1%Z in
       b ← MobileNetV2._InvertedResidual ic oc stride t;
       Ok (fs ++ [b], oc)) (fs, ic) = Ok (fs', ic') ->
  ic' = oc /\
  exists pre u conv, fs' = pre ++ [InvertedResidual u (conv ++ [BatchNorm2d oc])].
Proof.
  revert fs ic. induction l as [|i l IH]; intros fs ic Hne Hrun; [congruence|].
  simpl in Hrun. inv_bind Hrun. inv_bind E. injection E as <-.
  destruct l as [|j l].
  - simpl in Hrun. injection Hrun as <- <-. split; [reflexivity|].
    unfold MobileNetV2._InvertedResidual in E0. destruct (negb _); [discriminate|].
    injection E0 as <-.
    match goal with
    | |- exists pre u conv, _ ++ [InvertedResidual ?u0 (?X ++ [?A; ?B; ?C])] = _ =>
        exists fs, u0, (X ++ [A; B]); rewrite <- (app_assoc X [A; B] [C]); reflexivity
    end.
  - apply (IH _ _ ltac:(discriminate) Hrun).
Qed.

Lemma stage_last_block (a : MobileNetV2.args) (st st' : MobileNetV2.stage_state)
  (t c n s : Z) :
  MobileNetV2.stage a st [t; c; n; s] = Ok st' -> (0 < n)%Z ->
  exists oc pre u conv,
    MobileNetV2.output_channel st' = Some oc /\
    MobileNetV2.input_channel st' = oc /\
    MobileNetV2.features st' = pre ++ [InvertedResidual u (conv ++ [BatchNorm2d oc])].
Proof.
  unfold MobileNetV2.stage. intros Hst Hn. inv_bind Hst. inv_bind Hst.
  destruct v0 as [fs ic]. injection Hst as <-. simpl.
  destruct (stage_blocks_last t s v (range 0 (Z.to_nat n)) _ _ _ _
              ltac:(unfold range; destruct (Z.to_nat n) eqn:E1; [lia | discriminate]) E0)
    as (-> & pre & u & conv & ->).
  eauto 10.
Qed.

(** X26.  Whenever the last row of the setting builds at least one block, the
    gate reads as many features as the trunk returns channels: that width
    is the one the final normalisation of the trunk's last block is built
    for, the one every head's first convolution takes, and the input width
    of [control_v1]. *)
Theorem mobilenetv2_gate_reads_the_trunk_width (a : MobileNetV2.args) (self : Net.t)
  (t c n s : Z) :
  MobileNetV2.init a = Ok self -> MobileNetV2.avg a = false ->
  last (setting_of a) = Some [t; c; n; s] -> (0 < n)%Z ->
  exists (w lc : Z) pre name u conv,
    Net.modules self !! "features"
    = Some (Sequential (pre ++ [(name, InvertedResidual u (conv ++ [BatchNorm2d w]))])) /\
    Net.modules self !! "control_v1"
    = Some (Linear w (Z.of_nat (MobileNetV2.num_branches a))) /\
    forall i, i < MobileNetV2.num_branches a ->
      Net.modules self !! ("layer4_" +:+ str i)
      = Some (MobileNetV2.ConvBNReLU w lc 1 1 1).
Proof.
  intros Hinit Havg Hlast Hn. unfold MobileNetV2.init in Hinit.
  fold (setting_of a) in Hinit.
  destruct (_ || _); [discriminate|].
  inv_bind Hinit. inv_bind Hinit. inv_bind Hinit.
  apply last_Some in Hlast. destruct Hlast as [l Hl]. rewrite Hl, stages_app in E1.
  inv_bind E1.
  destruct (stage_last_block a v2 v1 t c n s E1 Hn)
    as (oc & pre & u & conv & Hoc & Hic & Hfs).
  rewrite Hoc, Hic, Hfs, Havg in Hinit. simpl in Hinit. injection Hinit as <-.
  exists oc, v0. rewrite imap_app. simpl.
  set (base := <["features" := _]> (∅ : gmap string Layer)).
  assert (Hb1 : forall j, base !! ("layer4_" +:+ str j) = None)
    by (intros j; unfold base; rewrite lookup_insert_ne by discriminate; apply lookup_empty).
  assert (Hb2 : forall j, base !! ("classifier4_" +:+ str j) = None)
    by (intros j; unfold base; rewrite lookup_insert_ne by discriminate; apply lookup_empty).
  eexists. eexists. exists u, conv. split; [|split].
  - rewrite !lookup_insert_ne by discriminate.
    rewrite MobileNetV2_heads_lookup by (intros j; discriminate).
    unfold base. rewrite lookup_insert_eq. reflexivity.
  - rewrite lookup_insert_ne by discriminate. apply lookup_insert_eq.
  - intros i Hi. rewrite !lookup_insert_ne by discriminate.
    pose proof (MobileNetV2_heads_registered (MobileNetV2.num_branches a) oc v0
                  (MobileNetV2.num_classes a) base i Hb1 Hb2) as Hreg.
    simpl in Hreg. destruct (decide _); [apply Hreg | lia].
Qed.

Lemma mobilenetv2_gate_reads_the_trunk_width_witness :
  exists (w lc : Z) pre name u conv,
    Net.modules mobile_gated !! "features"
    = Some (Sequential (pre ++ [(name, InvertedResidual u (conv ++ [BatchNorm2d w]))])) /\
    Net.modules mobile_gated !! "control_v1" = Some (Linear w (Z.of_nat 1)) /\
    forall i, i < 1 ->
      Net.modules mobile_gated !! ("layer4_" +:+ str i)
      = Some (MobileNetV2.ConvBNReLU w lc 1 1 1).
Proof.
  apply (mobilenetv2_gate_reads_the_trunk_width (mobile_args 1 false false) mobile_gated
           6 320 1 1).
  - vm_compute. reflexivity.
  - reflexivity.
  - reflexivity.
  - lia.
Defined.

(** ** The blocks of one stage of MobileNetV2 *)

Lemma stage_blocks_tail (t s oc : Z) (rest : Layer) (l : list nat) (fs fs' : list Layer)
  (ic' : Z) :
  MobileNetV2._InvertedResidual oc oc 1 t = Ok rest ->
  ~ In 0 l ->
  for_each l
    (fun i '(fs, ic) =>
       let stride := if decide (i = 0) then s else 1%Z in
       b ← MobileNetV2._InvertedResidual ic oc stride t;
       Ok (fs ++ [b], oc)) (fs, oc) = Ok (fs', ic') ->
  fs' = fs ++ replicate (length l) rest.
Proof.
  intros Hrest. revert fs. induction l as [|i l IH]; intros fs H0 Hrun.
  - simpl in Hrun. injection Hrun as <- _. rewrite app_nil_r. reflexivity.
  - simpl in Hrun.
    destruct (decide (i = 0)) as [->|_]; [exfalso; apply H0; left; reflexivity|].
    rewrite Hrest in Hrun. cbn [mbind result_bind] in Hrun.
    rewrite (IH (fs ++ [rest])) by (try exact Hrun; intros Hin; apply H0; right; exact Hin).
    rewrite <- app_assoc. reflexivity.
Qed.

(** X27.  One row [t, c, n, s] of the setting with [n >= 1] appends [n]
    blocks to the trunk: the first takes the incoming width and the stride
    [s]; the other [n - 1] are copies of one block with stride 1 and equal
    input and output width, so each of them uses the residual connection. *)
Theorem mobilenetv2_later_blocks_of_a_stage_are_residual (a : MobileNetV2.args)
  (st st' : MobileNetV2.stage_state) (t c n s : Z) :
  MobileNetV2.stage a st [t; c; n; s] = Ok st' -> (0 < n)%Z ->
  exists oc first conv,
    MobileNetV2._make_divisible (inject_Z c * MobileNetV2.width_mult a)
      (MobileNetV2.round_nearest a) None = Ok oc /\
    MobileNetV2._InvertedResidual (MobileNetV2.input_channel st) oc s t = Ok first /\
    MobileNetV2._InvertedResidual oc oc 1 t = Ok (InvertedResidual true conv) /\
    MobileNetV2.features st'
    = MobileNetV2.features st
      ++ first :: replicate (Z.to_nat n - 1) (InvertedResidual true conv).
Proof.
  unfold MobileNetV2.stage. intros Hst Hn. inv_bind Hst. inv_bind Hst.
  destruct v0 as [fs ic]. injection Hst as <-. simpl.
  assert (Hrange : range 0 (Z.to_nat n) = 0 :: range 1 (Z.to_nat n)).
  { unfold range. destruct (Z.to_nat n) as [|m] eqn:Hm; [lia|].
    simpl. rewrite Nat.sub_0_r. reflexivity. }
  rewrite Hrange in E0. simpl in E0. inv_bind E0.
  destruct (MobileNetV2._InvertedResidual (MobileNetV2.input_channel st) v s t)
    as [first|e] eqn:Hfirst; [|discriminate].
  simpl in E1. injection E1 as <-.
  assert (Hrest : exists conv, MobileNetV2._InvertedResidual v v 1 t
                               = Ok (InvertedResidual true conv)).
  { unfold MobileNetV2._InvertedResidual. simpl.
    rewrite bool_decide_eq_true_2 by reflexivity. eexists. reflexivity. }
  destruct Hrest as [conv Hrest].
  exists v, first, conv. split; [exact E|]. split; [exact Hfirst|].
  split; [exact Hrest|].
  rewrite (stage_blocks_tail t s v _ (range 1 (Z.to_nat n)) _ fs ic Hrest) by
    (try exact E0; intros Hin; apply in_range in Hin; lia).
  rewrite <- app_assoc. simpl. do 3 f_equal. unfold range. apply length_seq.
Qed.

Lemma mobilenetv2_later_blocks_of_a_stage_are_residual_witness :
  exists oc first conv,
    MobileNetV2._make_divisible (inject_Z 32 * 1) 8 None = Ok oc /\
    MobileNetV2._InvertedResidual 24 oc 1 6 = Ok first /\
    MobileNetV2._InvertedResidual oc oc 1 6 = Ok (InvertedResidual true conv) /\
    MobileNetV2.features
      (value {| MobileNetV2.features := []; MobileNetV2.input_channel := 0;
                MobileNetV2.output_channel := None |}
         (MobileNetV2.stage (mobile_args 1 false false)
            {| MobileNetV2.features := []; MobileNetV2.input_channel := 24;
               MobileNetV2.output_channel := Some 24%Z |} [6; 32; 3; 1]%Z))
    = [] ++ first :: replicate (Z.to_nat 3 - 1) (InvertedResidual true conv).
Proof.
  apply (mobilenetv2_later_blocks_of_a_stage_are_residual (mobile_args 1 false false)
           {| MobileNetV2.features := []; MobileNetV2.input_channel := 24;
              MobileNetV2.output_channel := Some 24%Z |}).
  - vm_compute. reflexivity.
  - lia.
Defined.

(** ** The depth-40, growth-12 DenseNet *)

Lemma d40k12_blocks (a : DenseNet.args) :
  DenseNet.growth_rate a = 12%Z -> DenseNet.block_config a = [6; 6; 6]%Z ->
  DenseNet.compression a = (1 # 2)%Q -> DenseNet.num_init_features a = 24%Z ->
  DenseNet.num_features (DenseNet.blocks a) = 60%Z /\
  DenseNet.num_layers (DenseNet.blocks a) = Some 6%Z.
Proof.
  intros Hg Hcfg Hc Hn. unfold DenseNet.blocks. rewrite Hcfg. simpl.
  unfold DenseNet.block_step. simpl. rewrite Hg, Hc, Hn. split; reflexivity.
Qed.

(** X28.  The configuration [densenetd40k12] passes on (growth rate 12,
    blocks [6, 6, 6]) with the default compression 0.5 and 24 initial
    features, for any number of branches and classes: the trunk returns 60
    channels and every head works on 132, the widths the comments of
    [forward] give; the gate reads 60 features, every head's dense block has
    6 layers on 60 channels, and its normalisation and classifier take 132
    features. *)
Theorem densenet_d40k12_widths (a : DenseNet.args) (self : Net.t) :
  DenseNet.growth_rate a = 12%Z -> DenseNet.block_config a = [6; 6; 6]%Z ->
  DenseNet.compression a = (1 # 2)%Q -> DenseNet.num_init_features a = 24%Z ->
  DenseNet.init a = Ok self ->
  (DenseNet.avg a = false ->
   Net.modules self !! "control_v1"
   = Some (Linear 60 (Z.of_nat (DenseNet.num_branches a)))) /\
  forall i, i < DenseNet.num_branches a ->
    Net.modules self !! ("layer3_" +:+ str i)
    = Some (DenseNet._DenseBlock 6 60 (DenseNet.bn_size a) 12
              (DenseNet.drop_rate a) (DenseNet.efficient a)) /\
    Net.modules self !! ("norm_final_" +:+ str i) = Some (BatchNorm2d 132) /\
    Net.modules self !! ("classifier3_" +:+ str i)
    = Some (Linear 132 (DenseNet.num_classes a)).
Proof.
  intros Hg Hcfg Hc Hn Hinit.
  destruct (d40k12_blocks a Hg Hcfg Hc Hn) as [Hnf Hnl].
  destruct (DenseNet_init_modules a self Hinit)
    as (nf & nl & trunk & Hnf' & Hlast & _ & _ & Hgate & Hheads).
  rewrite Hcfg in Hlast. simpl in Hlast. injection Hlast as <-.
  rewrite Hnf in Hnf'.
  subst nf. rewrite Hg in Hheads. split.
  - intros Havg. rewrite Hgate, Havg. reflexivity.
  - intros i Hi. destruct (Hheads i) as (H1 & H2 & _ & H4).
    destruct (decide (i < DenseNet.num_branches a)); [|contradiction].
    repeat split; assumption.
Qed.

Lemma densenet_d40k12_widths_witness :
  Net.modules dense_gated !! "control_v1" = Some (Linear 60 3) /\
  Net.modules dense_gated !! ("norm_final_" +:+ str 1) = Some (BatchNorm2d 132).
Proof.
  destruct (densenet_d40k12_widths (dense_args 3 false false) dense_gated
              eq_refl eq_refl eq_refl eq_refl ltac:(vm_compute; reflexivity))
    as [Hgate Hheads].
  split; [apply Hgate; reflexivity|].
  destruct (Hheads 1 ltac:(simpl; lia)) as (_ & Hnorm & _). exact Hnorm.
Defined.

(** ** The leave-one-out slots keep the total *)

Lemma Rsum_delete (l : Vec) (i : nat) :
  i < length l -> Rsum (delete i l) = (Rsum l - entry i l)%R.
Proof.
  revert i. induction l as [|a l IH]; intros i Hi; [simpl in Hi; lia|].
  destruct i as [|i]; simpl.
  - unfold entry. simpl. lra.
  - simpl in Hi. rewrite IH by lia. unfold entry. simpl. lra.
Qed.

Lemma Rsum_complements (l : Vec) (c : R) :
  Rsum (map (fun i => (c * Rsum (delete i l))%R) (seq 0 (length l)))
  = (c * (INR (length l) - 1) * Rsum l)%R.
Proof.
  rewrite (Rsum_scale c (fun i => Rsum (delete i l))).
  assert (H : forall js, Forall (fun i => i < length l) js ->
            Rsum (map (fun i => Rsum (delete i l)) js)
            = (INR (length js) * Rsum l - Rsum (map (fun i => entry i l) js))%R).
  { induction js as [|j js IH]; intros Hjs; [simpl; lra|].
    inversion Hjs as [|? ? Hj Hjs']. subst.
    change (length (j :: js)) with (S (length js)). rewrite S_INR.
    simpl. rewrite IH by exact Hjs'. rewrite Rsum_delete by exact Hj. lra. }
  rewrite H by (apply Forall_forall; intros i Hi; apply list_elem_of_In, in_seq in Hi; lia).
  rewrite length_seq, Rsum_entries. lra.
Qed.

Lemma DenseNet_forward_avg_inv {T : Torch} {C : TorchContract T} (a : DenseNet.args)
  (self : Net.t) (x : Ten4) (pro fused : Ten3) :
  DenseNet.init a = Ok self ->
  DenseNet.forward self x = Ok (pro, FTen fused) ->
  2 <= DenseNet.num_branches a /\
  dims3 (length x) (Z.to_nat (DenseNet.num_classes a)) (DenseNet.num_branches a) pro /\
  fused = leave_one_out (DenseNet.num_branches a) (range 0 (DenseNet.num_branches a)) pro.
Proof.
  intros Hinit Hrun.
  destruct (DenseNet_init_fields a self Hinit) as (HKs & _).
  unfold DenseNet.forward in Hrun. inv_bind Hrun. inv_bind Hrun.
  destruct (Net.ind self); [discriminate|].
  destruct (Net.avg self) eqn:Havg;
    [|inv_bind Hrun; inv_bind Hrun; discriminate].
  inv_bind Hrun. injection Hrun as Epro Ef. subst v0 v1. rewrite HKs in E1.
  assert (HK : 2 <= DenseNet.num_branches a).
  { destruct (DenseNet.num_branches a) as [|[|K]] eqn:HK0; [| |lia]; exfalso.
    - destruct (DenseNet_init_modules a self Hinit)
        as (nf & nl & trunk & _ & _ & _ & _ & _ & Hheads).
      destruct (Hheads 0) as (Hl & _). rewrite HK0 in Hl. simpl in Hl.
      unfold DenseNet.branches, DenseNet.head, call4 in E0.
      change ("layer3_" +:+ str 0) with "layer3_0"%string in E0.
      rewrite (getattr_missing self "layer3_0" Hl) in E0. discriminate.
    - rewrite fuse_avg_single in E1. discriminate. }
  pose proof (DenseNet_trunk_batch self x v E) as Hlen.
  pose proof (DenseNet_branches_dims a self v pro Hinit ltac:(lia) E0) as Hp.
  rewrite (fuse_avg_slots _ _ _ pro HK Hp) in E1. injection E1 as <-.
  rewrite <- Hlen. auto.
Qed.

(** X29.  Leave-one-out averaging keeps the total: whenever the forward pass
    of a DenseNet returns an averaged output, then for every batch element
    and class the fused slots add up to what the branch logits add up to,
    so their mean over the branch axis is the mean of the branches. *)
Theorem densenet_average_keeps_the_total {T : Torch} {C : TorchContract T}
  (a : DenseNet.args) (self : Net.t) (x : Ten4) (pro fused : Ten3)
  (b c : nat) (logits : Vec) :
  DenseNet.init a = Ok self ->
  DenseNet.forward self x = Ok (pro, FTen fused) ->
  pro !! b ≫= (.!! c) = Some logits ->
  exists slots,
    fused !! b ≫= (.!! c) = Some slots /\
    length slots = length logits /\
    Rsum slots = Rsum logits.
Proof.
  intros Hinit Hrun Hl.
  destruct (DenseNet_forward_avg_inv a self x pro fused Hinit Hrun)
    as (HK & [_ Hp] & ->).
  destruct (pro !! b) as [m|] eqn:Hm; [|discriminate]. simpl in Hl.
  unfold leave_one_out. rewrite list_lookup_fmap, Hm. simpl.
  rewrite list_lookup_fmap, Hl. simpl. eexists. split; [reflexivity|].
  rewrite Forall_forall in Hp.
  destruct (Hp m) as [_ Hrows]; [eapply list_elem_of_lookup_2; eauto|].
  rewrite Forall_forall in Hrows.
  assert (Hll : length logits = DenseNet.num_branches a)
    by (apply Hrows; eapply list_elem_of_lookup_2; eauto).
  split.
  - rewrite length_map. unfold range. rewrite length_seq. lia.
  - unfold leave_one_out_slot, range. rewrite Nat.sub_0_r, <- Hll.
    rewrite Rsum_complements. field.
    assert (H2 : (2 <= INR (length logits))%R).
    { rewrite Hll. change 2%R with (INR 2). apply le_INR. exact HK. }
    lra.
Qed.

Lemma densenet_average_keeps_the_total_witness :
  exists (pro fused : Ten3) (slots : Vec),
    @DenseNet.forward toy dense_avg two_images = Ok (pro, FTen fused) /\
    pro !! 0 ≫= (.!! 0) = Some [1; 11; 21]%R /\
    fused !! 0 ≫= (.!! 0) = Some slots /\
    length slots = 3 /\ Rsum slots = Rsum [1; 11; 21]%R.
Proof.
  exists [[[1; 11; 21]; [2; 12; 22]; [3; 13; 23]];
          [[1; 11; 21]; [2; 12; 22]; [3; 13; 23]]]%R.
  exists (match @DenseNet.forward toy dense_avg two_images with
          | Ok (_, FTen t) => t
          | _ => []
          end).
  match goal with
  | |- exists s, ?run /\ ?sel /\ _ =>
      assert (Hrun : run) by (vm_compute; reflexivity);
      assert (Hl : sel) by reflexivity
  end.
  destruct (densenet_average_keeps_the_total (T:=toy) (C:=toy_contract)
              (dense_args 3 true false) dense_avg two_images _ _ 0 0
              [1; 11; 21]%R ltac:(vm_compute; reflexivity) Hrun Hl)
    as (slots & Hs & Hlen & Hsum).
  exists slots. auto.
Defined.
